(** * gepetto_viewer_rerun.client : the entity / scene registry of [Gui]

    A shallow embedding of [src/gepetto_viewer_rerun/client.py].  The
    registry state of a [Gui] object is a record; every method is a
    computation in a small monad that threads the registry, records the
    calls made to the rerun backend ([rr.new_recording], [rr.log],
    [rr.log_file_from_path]) and to the Python [logger], and may raise a
    Python exception.  The [isinstance] assertions on arguments hold by
    typing.  A number is a Python [int] or a [float], an IEEE 754 binary64
    value; numbers are stored in payloads as they are given, except the
    length of an arrow, which NumPy multiplies into a [float64] array. *)

From Stdlib Require Import ZArith SpecFloat String Ascii List Lia.
From stdpp Require Import base list strings.

Open Scope Z_scope.
Open Scope string_scope.
Open Scope list_scope.

(** ** Python strings: [str.find] with a one-character needle, [len], slices *)

Module Py.

Fixpoint find_from (c : ascii) (s : string) (i : Z) : Z :=
  match s with
  | EmptyString => -1
  | String a s' => if Ascii.eqb a c then i else find_from c s' (i + 1)
  end.

(** [s.find(c)] : index of the first occurrence, or [-1]. *)
Definition find (c : ascii) (s : string) : Z := find_from c s 0.

(** [len(s)] *)
Definition len (s : string) : Z := Z.of_nat (String.length s).

Fixpoint take (n : nat) (s : string) : string :=
  match n, s with
  | S n', String a s' => String a (take n' s')
  | _, _ => EmptyString
  end.

Fixpoint drop (n : nat) (s : string) : string :=
  match n, s with
  | S n', String _ s' => drop n' s'
  | _, _ => s
  end.

(** [s[:i]] and [s[i:]] for an index [0 <= i]. *)
Definition slice_to (s : string) (i : Z) : string := take (Z.to_nat i) s.
Definition slice_from (s : string) (i : Z) : string := drop (Z.to_nat i) s.

(** The character ['/'] does not occur in [s]. *)
Fixpoint slash_free (s : string) : bool :=
  match s with
  | EmptyString => true
  | String a s' => negb (Ascii.eqb a "/") && slash_free s'
  end.

End Py.

(** ** Python numbers *)

(** A Python [float], and the element type of a NumPy [float64] array. *)
Definition float64 : Type := spec_float.

Definition float64_prec : Z := 53.
Definition float64_emax : Z := 1024.

(** An argument annotated [Union[int, float]]. *)
Inductive Number :=
| PyInt (z : Z)
| PyFloat (f : float64).

Definition Number_of_Z (z : Z) : Number := PyInt z.

Definition Z_of_Number (x : Number) : option Z :=
  match x with
  | PyInt z => Some z
  | PyFloat _ => None
  end.

Declare Scope num_scope.
Delimit Scope num_scope with num.
Bind Scope num_scope with Number.
Number Notation Number Number_of_Z Z_of_Number : num_scope.

(** The floats [0.0], [1.0], [0.5] and [0.1]. *)
Definition zero64 : float64 := S754_zero false.
Definition one64 : float64 := S754_finite false 4503599627370496 (-52).
Definition half64 : float64 := S754_finite false 4503599627370496 (-53).
Definition tenth64 : float64 := S754_finite false 7205759403792794 (-56).

(** The conversion of a Python [int] to a [float]: the nearest binary64
    value, ties to even; [None] is Python's [OverflowError] (int too large
    to convert to float), raised when the nearest value is not finite. *)
Definition float_of_int (z : Z) : option float64 :=
  match binary_normalize float64_prec float64_emax z 0 false with
  | S754_infinity _ => None
  | f => Some f
  end.

(** The operand NumPy makes of a Python number that meets a [float64]
    array. *)
Definition to_float64 (x : Number) : option float64 :=
  match x with
  | PyInt z => float_of_int z
  | PyFloat f => Some f
  end.

(** The product of two [float64] values. *)
Definition fmul (x y : float64) : float64 :=
  SFmul float64_prec float64_emax x y.
Arguments fmul : simpl never.

(** ** The rerun backend, as far as the client sees it *)

(** A recording stream returned by [rr.new_recording]; it is determined by
    the application id and the recording id it was opened with. *)
Record Recording := mkRecording {
  application_id : string;
  recording_id : string
}.

(** The result of [rec.to_native()]. *)
Inductive NativeRecording := Native (r : Recording).

Definition Colors := list (list Number).

(** Modelled from the spec: [entity.MeshFromPath] is not part of the
    sources; it is the payload of a mesh loaded from an external file and
    carries the path of that file.  The other constructors are the rerun
    archetype classes the client instantiates, one per class, with the
    keyword arguments the source passes. *)
Inductive Payload :=
| Arrows3D (radii : list (list Number)) (vectors : list (list float64))
           (colors : Colors) (labels : list string)
| Boxes3D (sizes : list (list Number)) (colors : Colors) (fill_mode : string)
          (labels : option (list string))
| Capsules3D (lengths : list Number) (radii : list Number) (colors : Colors)
| LineStrips3D (strips : list (list (list Number))) (radii : list Number)
               (colors : Colors) (labels : list string)
| Mesh3D (vertex_positions : list (list Number))
         (triangle_indices : option (list (list Z))) (vertex_colors : Colors)
| MeshFromPath (path : string)
| Points3D (positions : list (list Number)) (radii : list (list Number))
           (colors : Colors) (labels : list string).

(** [archetype.colors.pa_array]; [None] is Python's [AttributeError] for a
    payload built without a [colors] component. *)
Definition attr_colors (a : Payload) : option Colors :=
  match a with
  | Arrows3D _ _ c _ | Boxes3D _ c _ _ | Capsules3D _ _ c
  | LineStrips3D _ _ c _ | Points3D _ _ c _ => Some c
  | Mesh3D _ _ _ | MeshFromPath _ => None
  end.

(** [archetype.path] *)
Definition attr_path (a : Payload) : option string :=
  match a with
  | MeshFromPath p => Some p
  | _ => None
  end.

(** [isinstance(archetype, MeshFromPath)] *)
Definition is_MeshFromPath (a : Payload) : bool :=
  match a with MeshFromPath _ => true | _ => false end.

Inductive BackendCall :=
| NewRecording (application : string) (recording : string) (spawn : bool)
| Log (entity_path : string) (payload : Payload) (recording : option Recording)
| LogFileFromPath (file_path : string) (recording : NativeRecording).

Inductive Level := INFO | ERROR.
Definition LogRecord : Type := Level * string.

(** ** [class Archetype(Enum)] *)

Module Archetype.

Inductive t :=
| ARROWS3D | BOXES3D | CAPSULES3D | LINESTRIPS3D | MESH3D
| MESH_FROM_PATH | POINTS3D.

Definition value (a : t) : nat :=
  match a with
  | ARROWS3D => 0 | BOXES3D => 1 | CAPSULES3D => 2 | LINESTRIPS3D => 3
  | MESH3D => 4 | MESH_FROM_PATH => 5 | POINTS3D => 6
  end%nat.

Definition name (a : t) : string :=
  match a with
  | ARROWS3D => "ARROWS3D" | BOXES3D => "BOXES3D"
  | CAPSULES3D => "CAPSULES3D" | LINESTRIPS3D => "LINESTRIPS3D"
  | MESH3D => "MESH3D" | MESH_FROM_PATH => "MESH_FROM_PATH"
  | POINTS3D => "POINTS3D"
  end.

(** [len(Archetype)] *)
Definition count : nat := 7.

Definition eqb (a b : t) : bool := Nat.eqb (value a) (value b).

End Archetype.

(** ** [scene.Scene] and [entity.Entity] *)

(** Scene objects live in [Gui.sceneList], which only ever grows; a
    reference to a scene object is its position in that list, and
    [scene == s] on references is object identity. *)
Abbreviation SceneRef := nat (only parsing).

Module Scene.

(** Modelled from the spec: [scene.py] is not part of the sources.  A
    scene is [{ name; recording : optional handle }], created with no
    recording. *)
Record t := mk { name : string; rec : option Recording }.

Definition new (name : string) : t := mk name None.

(** Modelled from the spec: [Scene.setRec] attaches the handle to the
    scene; on a scene that already has one the handle is simply
    overwritten. *)
Definition setRec (s : t) (r : Recording) : t := mk (name s) (Some r).

End Scene.

Module Entity.

(** Modelled from the spec: [entity.py] is not part of the sources.  An
    entity is [{ name; payload; scenes }]. *)
Record t := mk {
  name : string;
  archetype : Payload;
  scenes : list SceneRef
}.

(** Modelled from the spec: [Entity(name, archetype)] has an empty
    membership set, [Entity(name, archetype, scene)] the set [{scene}]. *)
Definition new (name : string) (archetype : Payload)
           (scene : option SceneRef) : t :=
  mk name archetype (match scene with Some s => [s] | None => [] end).

(** Modelled from the spec: [addMembership] inserts the scene into
    [entity.scenes] and is idempotent. *)
Definition addScene (e : t) (s : SceneRef) : t :=
  mk (name e) (archetype e)
     (if existsb (Nat.eqb s) (scenes e) then scenes e else scenes e ++ [s]).

Definition set_archetype (a : Payload) (e : t) : t :=
  mk (name e) a (scenes e).

End Entity.

(** A reference to an entity object: its bucket in [entityList] and its
    position in the bucket (buckets only grow). *)
Abbreviation EntityRef := (nat * nat)%type (only parsing).

(** ** [class Gui] : the registry *)

Record Gui := mkGui {
  sceneList : list Scene.t;
  windowList : list string;
  entityList : list (list Entity.t)
}.

(** [Gui.__init__] *)
Definition Gui_init : Gui :=
  mkGui [] [] (replicate Archetype.count []).

(** ** The monad of methods *)

Inductive Exn :=
| AttributeError
| IndexError
| AssertionError
| OverflowError.

Inductive Outcome (A : Type) :=
| Return (a : A)
| Raise (e : Exn).
Arguments Return {A} a.
Arguments Raise {A} e.

Record Run (A : Type) := mkRun {
  outcome : Outcome A;
  final : Gui;
  backend : list BackendCall;
  journal : list LogRecord
}.
Arguments mkRun {A} _ _ _ _.
Arguments outcome {A} _.
Arguments final {A} _.
Arguments backend {A} _.
Arguments journal {A} _.

Definition M (A : Type) : Type := Gui -> Run A.

#[global] Instance M_ret : MRet M := fun A a self => mkRun (Return a) self [] [].

#[global] Instance M_bind : MBind M := fun A B f m self =>
  match m self with
  | mkRun (Return a) g calls records =>
      match f a g with
      | mkRun o g' calls' records' =>
          mkRun o g' (calls ++ calls') (records ++ records')
      end
  | mkRun (Raise e) g calls records => mkRun (Raise e) g calls records
  end.

#[global] Instance M_fmap : FMap M := fun A B f m => x ← m; mret (f x).

Definition get : M Gui := fun self => mkRun (Return self) self [] [].
Definition put (g : Gui) : M unit := fun _ => mkRun (Return tt) g [] [].
Definition raise {A} (e : Exn) : M A := fun self => mkRun (Raise e) self [] [].
Definition emit (c : BackendCall) : M unit :=
  fun self => mkRun (Return tt) self [c] [].
Definition logger_info (msg : string) : M unit :=
  fun self => mkRun (Return tt) self [] [(INFO, msg)].
Definition logger_error (msg : string) : M unit :=
  fun self => mkRun (Return tt) self [] [(ERROR, msg)].

(** An attribute or item access that raises when the value is absent. *)
Definition or_raise {A} (e : Exn) (o : option A) : M A :=
  match o with Some a => mret a | None => raise e end.

(** [for x in l: body(x)] *)
Fixpoint for_each {A} (l : list A) (body : A -> M unit) : M unit :=
  match l with
  | [] => mret tt
  | x :: l' => body x ;; for_each l' body
  end.

(** [assert cond] *)
Definition assert (cond : bool) : M unit :=
  if cond then mret tt else raise AssertionError.

(** ** Calls into [rerun] *)

Definition rr_new_recording (application recording : string) (spawn : bool)
  : M Recording :=
  emit (NewRecording application recording spawn) ;;
  mret (mkRecording application recording).

Definition rr_log (entity_path : string) (payload : Payload)
           (recording : option Recording) : M unit :=
  emit (Log entity_path payload recording).

Definition rr_log_file_from_path (file_path : string)
           (recording : NativeRecording) : M unit :=
  emit (LogFileFromPath file_path recording).

(** [rec.to_native()]; on [None] Python raises [AttributeError]. *)
Definition to_native (rec : option Recording) : M NativeRecording :=
  match rec with
  | Some r => mret (Native r)
  | None => raise AttributeError
  end.

(** ** Methods of [Gui] *)

(** Position of [l[i]] for a Python index; [None] stands for [IndexError]. *)
Definition position {A} (l : list A) (i : Z) : option nat :=
  let n := Z.of_nat (length l) in
  if Z.ltb i 0
  then (if Z.ltb (i + n) 0 then None else Some (Z.to_nat (i + n)))
  else (if Z.ltb i n then Some (Z.to_nat i) else None).

(** [self.sceneList[i]] as a reference to the scene object. *)
Definition sceneList_ref (i : Z) : M SceneRef :=
  self ← get; or_raise IndexError (position (sceneList self) i).

(** Reading a scene object through a reference. *)
Definition scene_at (self : Gui) (s : SceneRef) : option Scene.t :=
  sceneList self !! s.

Definition scene_deref (s : SceneRef) : M Scene.t :=
  self ← get; or_raise IndexError (scene_at self s).

(** [scene.setRec(rec)] through a reference. *)
Definition scene_setRec (s : SceneRef) (r : Recording) : M unit :=
  self ← get;
  put (mkGui (alter (fun sc => Scene.setRec sc r) s (sceneList self))
             (windowList self) (entityList self)).

(** [self.entityList[k].append(entity)] *)
Definition entityList_append (k : nat) (e : Entity.t) : M unit :=
  self ← get;
  match entityList self !! k with
  | Some _ =>
      put (mkGui (sceneList self) (windowList self)
                 (alter (fun b => b ++ [e]) k (entityList self)))
  | None => raise IndexError
  end.

Definition entity_at (self : Gui) (r : EntityRef) : option Entity.t :=
  entityList self !! r.1 ≫= fun b => b !! r.2.

Definition entity_deref (r : EntityRef) : M Entity.t :=
  self ← get; or_raise IndexError (entity_at self r).

(** In-place mutation of the entity object behind a reference. *)
Definition entity_update (r : EntityRef) (f : Entity.t -> Entity.t) : M unit :=
  self ← get;
  put (mkGui (sceneList self) (windowList self)
             (alter (alter f r.2) r.1 (entityList self))).

Definition createWindow (name : string) : M string :=
  self ← get;
  put (mkGui (sceneList self) (windowList self ++ [name]) (entityList self)) ;;
  logger_info
    ("createWindow() does not create any window, " +:+
     "Rerun create both window and scene at the same time. " +:+
     "Window will be created after calling addSceneToWindow().") ;;
  mret name.

Definition createScene (sceneName : string) : M unit :=
  self ← get;
  put (mkGui (sceneList self ++ [Scene.new sceneName]) (windowList self)
             (entityList self)) ;;
  logger_info
    ("createScene() does not create any scene yet, " +:+
     "Rerun create both window and scene at the same time. " +:+
     "Window will be created after calling addSceneToWindow().").

Fixpoint getSceneIndex_from (l : list Scene.t) (sceneName : string) (index : Z)
  : Z :=
  match l with
  | [] => -1
  | scene :: l' =>
      if String.eqb (Scene.name scene) sceneName then index
      else getSceneIndex_from l' sceneName (index + 1)
  end.

Definition _getSceneIndex (self : Gui) (sceneName : string) : Z :=
  getSceneIndex_from (sceneList self) sceneName 0.

(** [wid in self.windowList] *)
Definition window_in (self : Gui) (wid : string) : bool :=
  existsb (String.eqb wid) (windowList self).

Definition addSceneToWindow (sceneName wid : string) : M bool :=
  self ← get;
  let index := _getSceneIndex self sceneName in
  if Z.eqb index (-1) then
    logger_error
      ("addSceneToWindow(): Unknown sceneName '" +:+ sceneName +:+ "'.") ;;
    mret false
  else if negb (window_in self wid) then
    logger_error
      ("addSceneToWindow(): Unknown windowName '" +:+ wid +:+ "'.") ;;
    mret false
  else
    rec ← rr_new_recording wid sceneName true;
    scene ← sceneList_ref index;
    scene_setRec scene rec ;;
    mret true.

Definition _parseEntity (archetypeName : string) (archetype : Payload)
           (entityType : Archetype.t) : M unit :=
  let charIndex := Py.find "/" archetypeName in
  (* Put entity to entityList, wait for addToGroup() to be logged *)
  let pending : M unit :=
    let entity := Entity.new archetypeName archetype None in
    entityList_append (Archetype.value entityType) entity ;;
    logger_info
      ("_parseEntity() does not create a " +:+ Archetype.name entityType +:+
       " for '" +:+ archetypeName +:+ "', " +:+
       "it will be created when added to a group with addToGroup().") in
  if negb (Z.eqb charIndex (-1))
     && negb (Z.eqb charIndex (Py.len archetypeName - 1)) then
    let sceneName := Py.slice_to archetypeName charIndex in
    self ← get;
    let sceneIndex := _getSceneIndex self sceneName in
    if negb (Z.eqb sceneIndex (-1)) then
      let entityName := Py.slice_from archetypeName (charIndex + 1) in
      scene ← sceneList_ref sceneIndex;
      let entity := Entity.new entityName archetype (Some scene) in
      entityList_append (Archetype.value entityType) entity ;;
      (if Archetype.eqb entityType Archetype.MESH_FROM_PATH then
         file_path ← or_raise AttributeError (attr_path (Entity.archetype entity));
         sc ← scene_deref scene;
         native ← to_native (Scene.rec sc);
         rr_log_file_from_path file_path native
       else
         sc ← scene_deref scene;
         rr_log entityName (Entity.archetype entity) (Scene.rec sc)) ;;
      sc ← scene_deref scene;
      logger_info
        ("_parseEntity() creates a " +:+ Archetype.name entityType +:+
         " for '" +:+ archetypeName +:+ "', " +:+
         "and logs it directly to '" +:+ Scene.name sc +:+ "' scene.")
    else pending
  else pending.

Fixpoint find_entity (bucket : list Entity.t) (entityName : string) (j : nat)
  : option nat :=
  match bucket with
  | [] => None
  | entity :: bucket' =>
      if String.eqb (Entity.name entity) entityName then Some j
      else find_entity bucket' entityName (S j)
  end.

Fixpoint scan_buckets (buckets : list (list Entity.t)) (entityName : string)
         (i : nat) : option EntityRef :=
  match buckets with
  | [] => None
  | entity_list :: buckets' =>
      match find_entity entity_list entityName 0 with
      | Some j => Some (i, j)
      | None => scan_buckets buckets' entityName (S i)
      end
  end.

(** [_getEntity] returns the entity object (here: a reference to it) or
    [None]. *)
Definition _getEntity (self : Gui) (entityName : string) : option EntityRef :=
  scan_buckets (entityList self) entityName 0.

Definition _isEntityInScene (entity : option Entity.t) (scene : SceneRef)
  : bool :=
  match entity with
  | Some e => existsb (fun s => Nat.eqb scene s) (Entity.scenes e)
  | None => false
  end.

Definition addFloor (floorName : string) : M bool :=
  let floor :=
    Boxes3D [[200; 200; PyFloat half64]]%num [[125; 125; 125]]%num "Solid"
            None in
  _parseEntity floorName floor Archetype.BOXES3D ;;
  mret true.

Definition addBox (boxName : string) (boxSize1 boxSize2 boxSize3 : Number)
           (RGBAcolor : list Number) : M bool :=
  let box :=
    Boxes3D [[boxSize1; boxSize2; boxSize3]] [RGBAcolor] "Solid"
            (Some [boxName]) in
  _parseEntity boxName box Archetype.BOXES3D ;;
  mret true.

(** [np.column_stack([np.sin(angle) * length, np.zeros(1),
    np.cos(angle) * length])] for [angle = np.arange(0, tau, tau)], the
    one-element [float64] array [[0.]]: [np.sin(angle)] is [[0.]] and
    [np.cos(angle)] is [[1.]], and each is multiplied by [length] in
    [float64].  The result is a single row; [None] is the
    [OverflowError] of an [int] that has no finite [float64]. *)
Definition arrow_vectors (length : Number) : option (list (list float64)) :=
  match to_float64 length with
  | Some x => Some [[fmul zero64 x; zero64; fmul one64 x]]
  | None => None
  end.

Definition addArrow (name : string) (radius length : Number)
           (RGBAcolor : list Number) : M bool :=
  vectors ← or_raise OverflowError (arrow_vectors length);
  let arrow := Arrows3D [[radius]] vectors [RGBAcolor] [name] in
  _parseEntity name arrow Archetype.ARROWS3D ;;
  mret true.

(** The local function [createArrow] of [resizeArrow]. *)
Definition createArrow (arrowName : string) (radius length : Number)
           (colors : Colors) : M Payload :=
  vectors ← or_raise OverflowError (arrow_vectors length);
  let arrow := Arrows3D [[radius]] vectors colors [arrowName] in
  mret arrow.

Definition resizeArrow (arrowName : string) (radius length : Number)
  : M bool :=
  let charIndex := Py.find "/" arrowName in
  let globally : M bool :=
    self ← get;
    match _getEntity self arrowName with
    | None =>
        logger_error
          ("resizeArrow(): Arrow '" +:+ arrowName +:+ "' does not exists.") ;;
        mret false
    | Some entity =>
        e ← entity_deref entity;
        colors ← or_raise AttributeError (attr_colors (Entity.archetype e));
        newArrow ← createArrow arrowName radius length colors;
        entity_update entity (Entity.set_archetype newArrow) ;;
        e ← entity_deref entity;
        (match Entity.scenes e with
         | _ :: _ =>
             for_each (Entity.scenes e) (fun scene =>
               sc ← scene_deref scene;
               rr_log (Entity.name e) (Entity.archetype e) (Scene.rec sc) ;;
               logger_info
                 ("resizeArrow(): Logging a new Arrow3D named '" +:+
                  Entity.name e +:+ "' " +:+
                  "in '" +:+ Scene.name sc +:+ "' scene."))
         | [] =>
             logger_info
               ("resizeArrow(): Resizing an Arrow3D named '" +:+
                Entity.name e +:+ "'.")
         end) ;;
        mret true
    end in
  if negb (Z.eqb charIndex (-1))
     && negb (Z.eqb charIndex (Py.len arrowName - 1)) then
    let sceneName := Py.slice_to arrowName charIndex in
    self ← get;
    let sceneIndex := _getSceneIndex self sceneName in
    if negb (Z.eqb sceneIndex (-1)) then
      let entityName := Py.slice_from arrowName (charIndex + 1) in
      let entity := _getEntity self entityName in
      scene ← sceneList_ref sceneIndex;
      match entity with
      | Some r =>
          e ← entity_deref r;
          if _isEntityInScene (Some e) scene then
            colors ← or_raise AttributeError (attr_colors (Entity.archetype e));
            newArrow ← createArrow arrowName radius length colors;
            entity_update r (Entity.set_archetype newArrow) ;;
            e ← entity_deref r;
            sc ← scene_deref scene;
            rr_log (Entity.name e) (Entity.archetype e) (Scene.rec sc) ;;
            logger_info
              ("resizeArrow('" +:+ arrowName +:+ "'): Logging new arrow " +:+
               "'" +:+ entityName +:+ "' in '" +:+ sceneName +:+ "' scene.") ;;
            mret true
          else
            logger_error
              ("resizeArrow(" +:+ arrowName +:+ "): Arrow '" +:+ entityName +:+
               "' " +:+ "does not exists in '" +:+ sceneName +:+ "' scene.") ;;
            mret false
      | None =>
          logger_error
            ("resizeArrow(" +:+ arrowName +:+ "): Arrow '" +:+ entityName +:+
             "' " +:+ "does not exists in '" +:+ sceneName +:+ "' scene.") ;;
          mret false
      end
    else globally
  else globally.

Definition addCapsule (name : string) (radius height : Number)
           (RGBAcolor : list Number) : M bool :=
  let capsule := Capsules3D [height] [radius] [RGBAcolor] in
  _parseEntity name capsule Archetype.CAPSULES3D ;;
  mret true.

Definition addLine (lineName : string) (pos1 pos2 : list Number)
           (RGBAcolor : list Number) : M bool :=
  let line :=
    LineStrips3D [[pos1; pos2]] [PyFloat tenth64] [RGBAcolor] [lineName] in
  _parseEntity lineName line Archetype.LINESTRIPS3D ;;
  mret true.

Definition addSquareFace (faceName : string)
           (pos1 pos2 pos3 pos4 : list Number) (RGBAcolor : list Number)
  : M bool :=
  let mesh :=
    Mesh3D [pos1; pos2; pos3; pos4]
           (Some [[0; 1; 2]; [0; 1; 3]; [0; 2; 3]; [1; 2; 3]]) [RGBAcolor] in
  _parseEntity faceName mesh Archetype.MESH3D ;;
  mret true.

Definition addTriangleFace (faceName : string) (pos1 pos2 pos3 : list Number)
           (RGBAcolor : list Number) : M bool :=
  assert (forallb (fun x => Nat.eqb (length x) 3) [pos1; pos2; pos3]) ;;
  let mesh := Mesh3D [pos1; pos2; pos3] None [RGBAcolor] in
  _parseEntity faceName mesh Archetype.MESH3D ;;
  mret true.

Definition addSphere (sphereName : string) (radius : Number)
           (RGBAcolor : list Number) : M bool :=
  let sphere :=
    Points3D [[PyFloat zero64; PyFloat zero64; PyFloat zero64]] [[radius]]
             [RGBAcolor] [sphereName] in
  _parseEntity sphereName sphere Archetype.POINTS3D ;;
  mret true.

Fixpoint getRecording_from (l : list Scene.t) (recName : string)
  : option Recording :=
  match l with
  | [] => None
  | scene :: l' =>
      if String.eqb (Scene.name scene) recName then Scene.rec scene
      else getRecording_from l' recName
  end.

Definition _getRecording (self : Gui) (recName : string) : option Recording :=
  getRecording_from (sceneList self) recName.

(** The class named by the [logger.info] line of each branch of the
    [isinstance] chain of [_logArchetype].  The chain ends in
    [else: return False] for a payload of no known class; [Payload] has
    no such value. *)
Definition archetype_class (a : Payload) : string :=
  match a with
  | Arrows3D _ _ _ _ => "Arrows3D"
  | Boxes3D _ _ _ _ => "Boxes3D"
  | Capsules3D _ _ _ => "Capsules3D"
  | LineStrips3D _ _ _ _ => "LineStrip3D"
  | Mesh3D _ _ _ => "Mesh3D"
  | MeshFromPath _ => "Mesh from file"
  | Points3D _ _ _ _ => "Points3D"
  end.

Definition _logArchetype (entityName groupName : string) : M bool :=
  self ← get;
  let entity := _getEntity self entityName in
  let rec := _getRecording self groupName in
  let sceneIndex := _getSceneIndex self groupName in
  entity ← or_raise AttributeError entity;
  e ← entity_deref entity;
  match Entity.archetype e with
  | MeshFromPath path =>
      native ← to_native rec;
      rr_log_file_from_path path native ;;
      logger_info
        ("Logging Mesh from file named '" +:+ Entity.name e +:+ "'.") ;;
      mret true
  | a =>
      logger_info
        ("Logging " +:+ archetype_class a +:+ " named '" +:+
         Entity.name e +:+ "'.") ;;
      scene ← sceneList_ref sceneIndex;
      entity_update entity (fun e => Entity.addScene e scene) ;;
      e ← entity_deref entity;
      rr_log (Entity.name e) (Entity.archetype e) rec ;;
      mret true
  end.

Definition addToGroup (nodeName groupName : string) : M bool :=
  self ← get;
  if Z.eqb (_getSceneIndex self groupName) (-1) then
    logger_error
      ("addToGroup(): Scene '" +:+ groupName +:+ "' does not exists.") ;;
    mret false
  else
    match _getEntity self nodeName with
    | None =>
        logger_error
          ("addToGroup(): Entity '" +:+ nodeName +:+ "' does not exists.") ;;
        mret false
    | Some _ => _logArchetype nodeName groupName
    end.

(** ** The public calls of the facade *)

(** The primitive-creation methods present in the source. *)
Inductive Primitive :=
| Floor (floorName : string)
| Box (boxName : string) (boxSize1 boxSize2 boxSize3 : Number)
      (RGBAcolor : list Number)
| Arrow (name : string) (radius length : Number) (RGBAcolor : list Number)
| Capsule (name : string) (radius height : Number) (RGBAcolor : list Number)
| Line (lineName : string) (pos1 pos2 : list Number)
       (RGBAcolor : list Number)
| SquareFace (faceName : string) (pos1 pos2 pos3 pos4 : list Number)
             (RGBAcolor : list Number)
| TriangleFace (faceName : string) (pos1 pos2 pos3 : list Number)
               (RGBAcolor : list Number)
| Sphere (sphereName : string) (radius : Number) (RGBAcolor : list Number).

Definition create (p : Primitive) : M bool :=
  match p with
  | Floor n => addFloor n
  | Box n a b c col => addBox n a b c col
  | Arrow n r l col => addArrow n r l col
  | Capsule n r h col => addCapsule n r h col
  | Line n p1 p2 col => addLine n p1 p2 col
  | SquareFace n p1 p2 p3 p4 col => addSquareFace n p1 p2 p3 p4 col
  | TriangleFace n p1 p2 p3 col => addTriangleFace n p1 p2 p3 col
  | Sphere n r col => addSphere n r col
  end.

(** The name argument of a creation call. *)
Definition prim_name (p : Primitive) : string :=
  match p with
  | Floor n | Box n _ _ _ _ | Arrow n _ _ _ | Capsule n _ _ _
  | Line n _ _ _ | SquareFace n _ _ _ _ _ | TriangleFace n _ _ _ _
  | Sphere n _ _ => n
  end.

(** The argument assertions that are not enforced by the types of the
    embedding: [addTriangleFace] wants three coordinates per position. *)
Definition prim_valid (p : Primitive) : bool :=
  match p with
  | TriangleFace _ p1 p2 p3 _ =>
      forallb (fun x => Nat.eqb (length x) 3) [p1; p2; p3]
  | _ => true
  end.

(** Every call a client can make.  [AddMesh] is the mesh-from-path
    creation: its public wrapper is not in the sources, the call is
    [_parseEntity] at kind [MESH_FROM_PATH] with a [MeshFromPath] payload. *)
Inductive Call :=
| CreateWindow (name : string)
| CreateScene (sceneName : string)
| AddSceneToWindow (sceneName wid : string)
| Create (p : Primitive)
| AddMesh (meshName path : string)
| ResizeArrow (arrowName : string) (radius length : Number)
| AddToGroup (nodeName groupName : string).

(** What a call returns to the client. *)
Inductive Value := VNone | VBool (b : bool) | VStr (s : string).

Definition call (c : Call) : M Value :=
  match c with
  | CreateWindow n => VStr <$> createWindow n
  | CreateScene n => createScene n ;; mret VNone
  | AddSceneToWindow s w => VBool <$> addSceneToWindow s w
  | Create p => VBool <$> create p
  | AddMesh n path =>
      _parseEntity n (MeshFromPath path) Archetype.MESH_FROM_PATH ;;
      mret VNone
  | ResizeArrow n r l => VBool <$> resizeArrow n r l
  | AddToGroup n g => VBool <$> addToGroup n g
  end.

(** Running a sequence of calls from a registry; a call that raises leaves
    the registry as it was at the raise, and the client goes on. *)
Fixpoint session (cs : list Call) (self : Gui) : Gui :=
  match cs with
  | [] => self
  | c :: cs' => session cs' (final (call c self))
  end.

(** ** Vocabulary of the specification *)

(** A scene of that name has been created. *)
Definition registered (self : Gui) (sceneName : string) : Prop :=
  exists sc, In sc (sceneList self) /\ Scene.name sc = sceneName.

(** [isMemberOf(e, s)], on names: the entity found under [entityName] is in
    the scene found under [sceneName]. *)
Definition isMemberOf (self : Gui) (entityName sceneName : string) : bool :=
  let index := _getSceneIndex self sceneName in
  match _getEntity self entityName with
  | Some r =>
      negb (Z.eqb index (-1))
      && _isEntityInScene (entity_at self r) (Z.to_nat index)
  | None => false
  end.

(** The registry has one bucket per archetype kind, and every scene
    reference held by an entity points into [sceneList]. *)
Definition wf_Gui (self : Gui) : bool :=
  Nat.eqb (length (entityList self)) Archetype.count
  && forallb (forallb (fun e =>
       forallb (fun s => Nat.ltb s (length (sceneList self)))
               (Entity.scenes e))) (entityList self).

(** Registering an entity in the bucket of its kind. *)
Definition register (self : Gui) (k : Archetype.t) (e : Entity.t) : Gui :=
  mkGui (sceneList self) (windowList self)
        (alter (fun b => b ++ [e]) (Archetype.value k) (entityList self)).

(** *** Name resolution *)

(** [name] is [scene/rest]: the text before its first ['/'] is [scene] and
    a non-empty remainder [rest] follows. *)
Definition prefixed (name scene rest : string) : Prop :=
  Py.slash_free scene = true /\ rest <> "" /\ name = scene +:+ "/" +:+ rest.

(** [name] has no resolvable scene prefix in the registry [self]. *)
Inductive bare (self : Gui) (name : string) : Prop :=
| bare_no_slash :
    Py.slash_free name = true -> bare self name
| bare_trailing pre :
    Py.slash_free pre = true -> name = pre +:+ "/" -> bare self name
| bare_unregistered pre rest :
    Py.slash_free pre = true -> name = pre +:+ "/" +:+ rest ->
    ~ registered self pre -> bare self name.

(** The payload a creation method builds from its arguments, and the
    bucket it files the entity under.  The payload of an arrow exists
    when its length has a finite [float64]. *)
Definition prim_payload (p : Primitive) : option Payload :=
  match p with
  | Floor _ =>
      Some (Boxes3D [[200; 200; PyFloat half64]]%num [[125; 125; 125]]%num
                    "Solid" None)
  | Box n a b c col => Some (Boxes3D [[a; b; c]] [col] "Solid" (Some [n]))
  | Arrow n r l col =>
      match to_float64 l with
      | Some x =>
          Some (Arrows3D [[r]] [[fmul zero64 x; zero64; fmul one64 x]] [col]
                         [n])
      | None => None
      end
  | Capsule _ r h col => Some (Capsules3D [h] [r] [col])
  | Line n p1 p2 col =>
      Some (LineStrips3D [[p1; p2]] [PyFloat tenth64] [col] [n])
  | SquareFace _ p1 p2 p3 p4 col =>
      Some (Mesh3D [p1; p2; p3; p4]
                   (Some [[0; 1; 2]; [0; 1; 3]; [0; 2; 3]; [1; 2; 3]]) [col])
  | TriangleFace _ p1 p2 p3 col => Some (Mesh3D [p1; p2; p3] None [col])
  | Sphere n r col =>
      Some (Points3D [[PyFloat zero64; PyFloat zero64; PyFloat zero64]] [[r]]
                     [col] [n])
  end.

Definition prim_kind (p : Primitive) : Archetype.t :=
  match p with
  | Floor _ | Box _ _ _ _ _ => Archetype.BOXES3D
  | Arrow _ _ _ _ => Archetype.ARROWS3D
  | Capsule _ _ _ _ => Archetype.CAPSULES3D
  | Line _ _ _ _ => Archetype.LINESTRIPS3D
  | SquareFace _ _ _ _ _ _ | TriangleFace _ _ _ _ _ => Archetype.MESH3D
  | Sphere _ _ _ => Archetype.POINTS3D
  end.

(** The primitive-creation calls that reach [_parseEntity] (their
    arguments pass the assertions and their payload is built), with the
    name, payload and kind they hand to it, and what they return. *)
Definition creation (c : Call)
  : option (string * Payload * Archetype.t * Value) :=
  match c with
  | Create p =>
      if prim_valid p
      then match prim_payload p with
           | Some a => Some (prim_name p, a, prim_kind p, VBool true)
           | None => None
           end
      else None
  | AddMesh n path =>
      Some (n, MeshFromPath path, Archetype.MESH_FROM_PATH, VNone)
  | _ => None
  end.

(** In-place change of the entity behind a reference. *)
Definition update (self : Gui) (r : EntityRef) (f : Entity.t -> Entity.t)
  : Gui :=
  mkGui (sceneList self) (windowList self)
        (alter (alter f r.2) r.1 (entityList self)).

(** An entity of that name has been created. *)
Definition entity_registered (self : Gui) (entityName : string) : Prop :=
  exists b e, In b (entityList self) /\ In e b /\ Entity.name e = entityName.

(** The levels of the diagnostics a run reported. *)
Definition levels {A} (r : Run A) : list Level := map fst (journal r).

(** The recording handle currently held by the scene behind a reference
    ([scene.rec]); [None] when the scene is not bound to a window. *)
Definition scene_rec (self : Gui) (s : SceneRef) : option Recording :=
  scene_at self s ≫= Scene.rec.

(** Every scene reference held by the entity points into a scene list of
    length [n]. *)
Definition refs_below (n : nat) (e : Entity.t) : Prop :=
  Forall (fun s => (s < n)%nat) (Entity.scenes e).

(** [m] keeps the property [I] of the registry, whether it returns or
    raises, and returns values that satisfy [Q]. *)
Definition preserves {A} (I : Gui -> Prop) (m : M A) (Q : A -> Prop) : Prop :=
  forall self, I self ->
    match m self with
    | mkRun (Return a) g _ _ => I g /\ Q a
    | mkRun (Raise _) g _ _ => I g
    end.

(** *** Properties under examination *)

(** Every creation call whose name is [scene/rest], with [scene]
    registered, issues exactly one backend call. *)
Definition prefixed_creation_logs_once : Prop :=
  forall c name a ty v self scene rest,
    creation c = Some (name, a, ty, v) ->
    wf_Gui self = true ->
    prefixed name scene rest ->
    registered self scene ->
    exists one, backend (call c self) = [one].

(** Every creation call under a name with no resolvable scene prefix
    returns with the entity registered under that name. *)
Definition bare_creation_registers : Prop :=
  forall p self,
    prim_valid p = true ->
    wf_Gui self = true ->
    bare self (prim_name p) ->
    outcome (create p self) = Return true
    /\ entity_registered (final (create p self)) (prim_name p).

(** On a name with no resolvable scene prefix that names an entity,
    [resizeArrow] returns with the payload of that entity replaced by an
    arrow of the given radius. *)
Definition bare_resize_replaces_payload : Prop :=
  forall self name radius length ref e,
    wf_Gui self = true ->
    bare self name ->
    _getEntity self name = Some ref ->
    entity_at self ref = Some e ->
    let r := resizeArrow name radius length self in
    outcome r = Return true
    /\ exists vectors colors,
         entity_at (final r) ref
         = Some (Entity.mk (Entity.name e)
                           (Arrows3D [[radius]] vectors colors [name])
                           (Entity.scenes e)).

(** No call ever changes a recording handle that a scene already has. *)
Definition handle_never_replaced : Prop :=
  forall self c s sc h,
    wf_Gui self = true ->
    scene_at self s = Some sc -> Scene.rec sc = Some h ->
    exists sc', scene_at (final (call c self)) s = Some sc'
                /\ Scene.rec sc' = Some h.

(** Scene ["world"] bound to window ["win"], with a second window
    ["win2"] declared. *)
Definition two_windows : Gui :=
  session [CreateScene "world"; CreateWindow "win"; CreateWindow "win2";
           AddSceneToWindow "world" "win"] Gui_init.

(** The state of the scenario of the specification: scene ["world"] bound
    to window ["win"]. *)
Definition world_bound : Gui :=
  session [CreateScene "world"; CreateWindow "win";
           AddSceneToWindow "world" "win"] Gui_init.

(** Scene ["world"] created and not bound to any window. *)
Definition world_unbound : Gui := session [CreateScene "world"] Gui_init.

(** Scene ["world"] bound to window ["win"], and a mesh-from-path entity
    ["m"] created under a bare name, hence pending. *)
Definition mesh_pending : Gui :=
  session [CreateScene "world"; CreateWindow "win";
           AddSceneToWindow "world" "win"; AddMesh "m" "m.obj"] Gui_init.

(** Scene ["s1"] and an arrow ["arrowA"] created under a bare name and
    never added to the scene. *)
Definition arrow_unlogged : Gui :=
  session [CreateScene "s1";
           Create (Arrow "arrowA" 1 1 [255; 0; 0; 255]%num)] Gui_init.

(** Scene ["world"] bound to window ["win"], with the arrow ["arrowA"]
    added to it. *)
Definition arrow_logged : Gui :=
  session [CreateScene "world"; CreateWindow "win";
           AddSceneToWindow "world" "win";
           Create (Arrow "arrowA" 1 1 [255; 0; 0; 255]%num);
           AddToGroup "arrowA" "world"] Gui_init.

(** Scenes ["world"] and ["aux"] bound to window ["win"], a second window
    ["win2"] declared, and the arrow ["arrowA"] added to both scenes. *)
Definition arrow_in_two_scenes : Gui :=
  session [CreateScene "world"; CreateScene "aux"; CreateWindow "win";
           CreateWindow "win2"; AddSceneToWindow "world" "win";
           AddSceneToWindow "aux" "win";
           Create (Arrow "arrowA" 1 1 [255; 0; 0; 255]%num);
           AddToGroup "arrowA" "world"; AddToGroup "arrowA" "aux"] Gui_init.

(** A square face ["f"] created under a bare name: an entity whose payload
    is a [Mesh3D], which has [vertex_colors] and no [colors]. *)
Definition face_pending : Gui :=
  session [Create (SquareFace "f" [0; 0; 0]%num [1; 0; 0]%num [1; 1; 0]%num
                              [0; 1; 0]%num [255; 0; 0; 255]%num)] Gui_init.

(** Scene ["world"] created and not bound, and a sphere ["s1"] created
    under a bare name. *)
Definition sphere_unbound : Gui :=
  session [CreateScene "world";
           Create (Sphere "s1" 2 [0; 255; 0; 255]%num)] Gui_init.

(** Unfolding the monad: one pass exposes the next call that is stuck on
    the registry, a rewrite with its run equation lets the pass go on. *)
Ltac unfold_monad :=
  cbv beta iota zeta delta
      [mbind M_bind mret M_ret fmap M_fmap get put emit raise or_raise assert
       logger_info logger_error rr_log rr_log_file_from_path rr_new_recording
       to_native].

(** The changes a single call can make to the registry: none; for
    [createWindow] a window appended; for [createScene] an unbound scene
    appended; for [addSceneToWindow] a handle attached to a scene; for a
    creation an entity appended to the bucket of its kind; for
    [resizeArrow] the payload of one entity replaced; for [addToGroup] a
    scene added to the membership of one entity. *)
Inductive change (self : Gui) : Call -> Gui -> Prop :=
| change_none c : change self c self
| change_window w :
    change self (CreateWindow w)
           (mkGui (sceneList self) (windowList self ++ [w]) (entityList self))
| change_scene n :
    change self (CreateScene n)
           (mkGui (sceneList self ++ [Scene.new n]) (windowList self)
                  (entityList self))
| change_bind n w s :
    (s < length (sceneList self))%nat ->
    change self (AddSceneToWindow n w)
           (mkGui (alter (fun sc => Scene.setRec sc (mkRecording w n)) s
                         (sceneList self))
                  (windowList self) (entityList self))
| change_register c name a ty v e :
    creation c = Some (name, a, ty, v) ->
    refs_below (length (sceneList self)) e ->
    Entity.archetype e = a ->
    change self c (register self ty e)
| change_payload n x y ref a :
    change self (ResizeArrow n x y)
           (update self ref (Entity.set_archetype a))
| change_member n g ref s :
    (s < length (sceneList self))%nat ->
    change self (AddToGroup n g)
           (update self ref (fun e => Entity.addScene e s)).

(** ** Numbers *)

(** [float(z)] on the values that matter: small integers are exact, an
    integer above [2**53] is rounded to the nearest even mantissa, the
    largest integer that converts is [2**1024 - 2**970 - 1], and from
    [2**1024 - 2**970] on the conversion overflows. *)
Example float_of_int_values :
  float_of_int 0 = Some zero64
  /\ float_of_int 1 = Some one64
  /\ float_of_int 5 = Some (S754_finite false 5629499534213120 (-50))
  /\ float_of_int (-5) = Some (S754_finite true 5629499534213120 (-50))
  /\ float_of_int (2 ^ 53 + 1) = float_of_int (2 ^ 53)
  /\ float_of_int (2 ^ 53 + 3) = float_of_int (2 ^ 53 + 4)
  /\ float_of_int (2 ^ 1024 - 2 ^ 970 - 1)
     = Some (S754_finite false 9007199254740991 971)
  /\ float_of_int (2 ^ 1024 - 2 ^ 970) = None
  /\ float_of_int (2 ^ 1024) = None
  /\ float_of_int (10 ^ 309) = None
  /\ float_of_int (- 2 ^ 1024) = None.
Proof. vm_compute. repeat split. Qed.

(** The vectors of an arrow: [0.0 * x] keeps the sign of [x], and is not a
    number when [x] is infinite or not a number. *)
Example arrow_vectors_values :
  arrow_vectors 5
  = Some [[zero64; zero64; S754_finite false 5629499534213120 (-50)]]
  /\ arrow_vectors (-5)
     = Some [[S754_zero true; zero64;
              S754_finite true 5629499534213120 (-50)]]
  /\ arrow_vectors (PyFloat half64) = Some [[zero64; zero64; half64]]
  /\ arrow_vectors (PyFloat (S754_infinity false))
     = Some [[S754_nan; zero64; S754_infinity false]]
  /\ arrow_vectors (PyInt (2 ^ 53 + 1))
     = Some [[zero64; zero64; S754_finite false 4503599627370496 1]]
  /\ arrow_vectors (PyInt (10 ^ 309)) = None.
Proof. vm_compute. repeat split. Qed.

(** ** Strings *)

Section Strings.

Lemma app_empty t : "" +:+ t = t.
Proof. reflexivity. Qed.

Lemma app_String a s t : String a s +:+ t = String a (s +:+ t).
Proof. reflexivity. Qed.

Lemma app_assoc' s t u : (s +:+ t) +:+ u = s +:+ t +:+ u.
Proof.
  induction s as [|a s IH]; [reflexivity|].
  now rewrite !app_String, IH.
Qed.

Lemma length_app' s t :
  String.length (s +:+ t) = (String.length s + String.length t)%nat.
Proof.
  induction s as [|a s IH]; [reflexivity|].
  rewrite app_String. cbn [String.length]. now rewrite IH.
Qed.

Lemma len_app s t : Py.len (s +:+ t) = Py.len s + Py.len t.
Proof. unfold Py.len. rewrite length_app'. lia. Qed.

Lemma find_from_slash_free s i :
  Py.slash_free s = true -> Py.find_from "/" s i = -1.
Proof.
  revert i. induction s as [|a s IH]; intros i H; simpl in *; [reflexivity|].
  apply andb_prop in H as [Ha Hs].
  destruct (Ascii.eqb a "/"); [discriminate|]. now apply IH.
Qed.

Lemma find_from_prefix s rest i :
  Py.slash_free s = true ->
  Py.find_from "/" (s +:+ String "/" rest) i = i + Py.len s.
Proof.
  unfold Py.len. revert i. induction s as [|a s IH]; intros i H.
  - rewrite app_empty. simpl. lia.
  - rewrite app_String. cbn [Py.find_from Py.slash_free String.length] in *.
    apply andb_prop in H as [Ha Hs].
    destruct (Ascii.eqb a "/"); [discriminate|].
    rewrite IH by assumption. lia.
Qed.

Lemma take_app s t : Py.take (String.length s) (s +:+ t) = s.
Proof.
  induction s as [|a s IH]; [now destruct t|].
  rewrite app_String. cbn [String.length Py.take]. now rewrite IH.
Qed.

Lemma drop_app s t : Py.drop (String.length s) (s +:+ t) = t.
Proof.
  induction s as [|a s IH]; [now destruct t|].
  rewrite app_String. cbn [String.length Py.drop]. assumption.
Qed.

Lemma len_pos s : s <> "" -> 0 < Py.len s.
Proof. unfold Py.len. destruct s; cbn [String.length]; [congruence | lia]. Qed.

(** What the code computes on a name [scene/rest]. *)
Lemma split_prefixed scene rest :
  Py.slash_free scene = true -> rest <> "" ->
  let name := scene +:+ "/" +:+ rest in
  let charIndex := Py.find "/" name in
  negb (Z.eqb charIndex (-1)) && negb (Z.eqb charIndex (Py.len name - 1))
    = true
  /\ Py.slice_to name charIndex = scene
  /\ Py.slice_from name (charIndex + 1) = rest.
Proof.
  intros Hs Hr name charIndex.
  assert (Hc : charIndex = Py.len scene).
  { unfold charIndex, name, Py.find.
    rewrite app_String, app_empty, find_from_prefix by assumption. lia. }
  assert (Hl : Py.len name = Py.len scene + 1 + Py.len rest).
  { unfold name. rewrite !len_app. unfold Py.len at 2.
    cbn [String.length]. lia. }
  pose proof (len_pos rest Hr) as Hp.
  assert (H0 : 0 <= Py.len scene) by (unfold Py.len; lia).
  rewrite Hc, Hl. split; [|split].
  - apply andb_true_intro; split; apply negb_true_iff, Z.eqb_neq; lia.
  - unfold Py.slice_to, Py.len. rewrite Nat2Z.id. apply take_app.
  - unfold Py.slice_from, Py.len, name.
    rewrite <- app_assoc'.
    replace (Z.to_nat (Z.of_nat (String.length scene) + 1))
      with (String.length (scene +:+ "/")).
    + apply drop_app.
    + rewrite length_app'. cbn [String.length]. lia.
Qed.

(** A name whose first ['/'] is its last character. *)
Lemma split_trailing pre :
  Py.slash_free pre = true ->
  let name := pre +:+ "/" in
  Py.find "/" name = Py.len name - 1.
Proof.
  intros Hs name. unfold name, Py.find.
  rewrite find_from_prefix by assumption.
  rewrite len_app. unfold Py.len at 3. cbn [String.length]. lia.
Qed.

End Strings.

(** ** Scene lookup *)

Section SceneLookup.

Lemma getSceneIndex_from_unregistered l n i :
  (forall sc, In sc l -> Scene.name sc <> n) ->
  getSceneIndex_from l n i = -1.
Proof.
  revert i. induction l as [|sc l IH]; intros i H; simpl; [reflexivity|].
  destruct (String.eqb_spec (Scene.name sc) n) as [E|_].
  - exfalso. apply (H sc); [now left | assumption].
  - apply IH. intros sc' Hin. apply H. now right.
Qed.

Lemma getSceneIndex_from_registered l n i :
  (exists sc, In sc l /\ Scene.name sc = n) ->
  exists (k : nat) sc,
    getSceneIndex_from l n i = i + Z.of_nat k
    /\ l !! k = Some sc /\ Scene.name sc = n
    /\ getRecording_from l n = Scene.rec sc
    /\ (forall j sc', (j < k)%nat -> l !! j = Some sc' -> Scene.name sc' <> n).
Proof.
  revert i. induction l as [|sc l IH]; intros i [sc0 [Hin Hn]].
  - destruct Hin.
  - simpl. destruct (String.eqb_spec (Scene.name sc) n) as [E|NE].
    + exists 0%nat, sc. repeat split; try assumption; try lia.
    + destruct Hin as [->|Hin]; [congruence|].
      destruct (IH (i + 1) (ex_intro _ sc0 (conj Hin Hn)))
        as (k & sc1 & Hk & Hl & Hname & Hrec & Hfirst).
      exists (S k), sc1. repeat split; try assumption; try lia.
      intros [|j] sc' Hj Hl'; simpl in Hl'.
      * congruence.
      * apply (Hfirst j); [lia | assumption].
Qed.

Lemma getSceneIndex_from_found l n i :
  0 <= i -> getSceneIndex_from l n i <> -1 ->
  exists sc, In sc l /\ Scene.name sc = n.
Proof.
  revert i. induction l as [|sc l IH]; intros i Hi H; simpl in H.
  - congruence.
  - destruct (String.eqb_spec (Scene.name sc) n) as [E|NE].
    + exists sc. split; [now left | assumption].
    + destruct (IH (i + 1)) as [sc' [Hin Hn]]; [lia | assumption |].
      exists sc'. split; [now right | assumption].
Qed.

Lemma position_of_nat {A} (l : list A) (k : nat) x :
  l !! k = Some x -> position l (Z.of_nat k) = Some k.
Proof.
  intros H. apply lookup_lt_Some in H. unfold position.
  destruct (Z.ltb_spec (Z.of_nat k) 0); [lia|].
  destruct (Z.ltb_spec (Z.of_nat k) (Z.of_nat (length l))); [|lia].
  now rewrite Nat2Z.id.
Qed.

(** The scene object a registered name stands for: the first of that
    name. *)
Lemma scene_lookup self n :
  registered self n ->
  exists (s : SceneRef) sc,
    _getSceneIndex self n = Z.of_nat s
    /\ scene_at self s = Some sc /\ Scene.name sc = n
    /\ _getRecording self n = Scene.rec sc
    /\ position (sceneList self) (_getSceneIndex self n) = Some s.
Proof.
  intros H. unfold _getSceneIndex, _getRecording, scene_at.
  destruct (getSceneIndex_from_registered _ _ 0 H)
    as (k & sc & Hk & Hl & Hn & Hr & _).
  exists k, sc. rewrite Hk, Z.add_0_l.
  repeat split; try assumption. now apply position_of_nat with sc.
Qed.

Lemma unregistered_index self n :
  ~ registered self n <-> _getSceneIndex self n = -1.
Proof.
  unfold _getSceneIndex. split.
  - intros H. apply getSceneIndex_from_unregistered.
    intros sc Hin E. apply H. now exists sc.
  - intros H Hreg.
    destruct (getSceneIndex_from_registered _ _ 0 Hreg) as (k & ? & Hk & _).
    lia.
Qed.

Lemma registered_index self n :
  registered self n <-> _getSceneIndex self n <> -1.
Proof.
  split.
  - intros H E. now apply unregistered_index in E.
  - intros H. now apply (getSceneIndex_from_found _ _ 0).
Qed.

(** On a bare name the code never reaches a scene. *)
Lemma bare_guard self name :
  bare self name ->
  let charIndex := Py.find "/" name in
  negb (Z.eqb charIndex (-1)) && negb (Z.eqb charIndex (Py.len name - 1))
    = false
  \/ negb (Z.eqb (_getSceneIndex self (Py.slice_to name charIndex)) (-1))
    = false.
Proof.
  intros [Hs | pre Hs -> | pre rest Hs -> Hu]; cbn zeta.
  - left. unfold Py.find. rewrite find_from_slash_free by assumption.
    reflexivity.
  - left. rewrite split_trailing by assumption.
    rewrite Z.eqb_refl. apply andb_false_r.
  - destruct rest as [|c rest].
    + left. rewrite split_trailing by assumption.
      rewrite Z.eqb_refl. apply andb_false_r.
    + right.
      destruct (split_prefixed pre (String c rest) Hs) as (_ & -> & _);
        [discriminate|].
      apply unregistered_index in Hu. rewrite Hu. reflexivity.
Qed.

End SceneLookup.

(** ** Entity lookup *)

Section EntityLookup.

Lemma find_entity_Some b n j k :
  find_entity b n j = Some k ->
  exists e, b !! (k - j)%nat = Some e /\ Entity.name e = n /\ (j <= k)%nat.
Proof.
  revert j. induction b as [|e b IH]; intros j H; simpl in H; [discriminate|].
  destruct (String.eqb_spec (Entity.name e) n) as [E|NE].
  - injection H as <-. exists e. rewrite Nat.sub_diag. now repeat split.
  - destruct (IH _ H) as (e' & Hl & Hn & Hle).
    exists e'. replace (k - j)%nat with (S (k - S j)) by lia.
    repeat split; [assumption | assumption | lia].
Qed.

Lemma find_entity_None b n j :
  find_entity b n j = None <-> (forall e, In e b -> Entity.name e <> n).
Proof.
  revert j. induction b as [|e b IH]; intros j; simpl.
  - split; [intros _ e [] | reflexivity].
  - destruct (String.eqb_spec (Entity.name e) n) as [E|NE].
    + split; [discriminate|]. intros H. exfalso. now apply (H e); [left|].
    + rewrite IH. split.
      * intros H e' [<-|Hin]; [assumption | now apply H].
      * intros H e' Hin. apply H. now right.
Qed.

Lemma scan_buckets_Some bs n i r :
  scan_buckets bs n i = Some r ->
  exists b e, bs !! (r.1 - i)%nat = Some b /\ b !! r.2 = Some e
              /\ Entity.name e = n /\ (i <= r.1)%nat.
Proof.
  revert i. induction bs as [|b bs IH]; intros i H; simpl in H; [discriminate|].
  destruct (find_entity b n 0) as [j|] eqn:Hf.
  - injection H as <-. destruct (find_entity_Some _ _ _ _ Hf) as (e & Hl & Hn & _).
    exists b, e. simpl. rewrite Nat.sub_diag, Nat.sub_0_r in *. now repeat split.
  - destruct (IH _ H) as (b' & e & Hb & Hl & Hn & Hle).
    exists b', e. replace (r.1 - i)%nat with (S (r.1 - S i)) by lia.
    repeat split; [assumption | assumption | assumption | lia].
Qed.

Lemma scan_buckets_None bs n i :
  scan_buckets bs n i = None <->
  (forall b e, In b bs -> In e b -> Entity.name e <> n).
Proof.
  revert i. induction bs as [|b bs IH]; intros i; simpl.
  - split; [intros _ ? ? [] | reflexivity].
  - destruct (find_entity b n 0) as [j|] eqn:Hf.
    + split; [discriminate|]. intros H. exfalso.
      destruct (find_entity_Some _ _ _ _ Hf) as (e & Hl & Hn & _).
      apply (H b e); [now left | | assumption].
      apply list_elem_of_In, list_elem_of_lookup. eauto.
    + rewrite IH. pose proof (proj1 (find_entity_None _ _ _) Hf) as Hf'.
      split.
      * intros H b' e [<-|Hin] He; [now apply Hf' | now apply (H b')].
      * intros H b' e Hin. apply H. now right.
Qed.

(** [_getEntity] returns an entity of that name, when there is one. *)
Lemma getEntity_Some self n r :
  _getEntity self n = Some r ->
  exists e, entity_at self r = Some e /\ Entity.name e = n.
Proof.
  intros H. destruct (scan_buckets_Some _ _ _ _ H) as (b & e & Hb & Hl & Hn & _).
  exists e. split; [|assumption].
  unfold entity_at. rewrite Nat.sub_0_r in Hb. rewrite Hb. exact Hl.
Qed.

Lemma getEntity_None self n :
  _getEntity self n = None <-> ~ entity_registered self n.
Proof.
  unfold _getEntity, entity_registered. rewrite scan_buckets_None. split.
  - intros H (b & e & Hb & He & Hn). now apply (H b e).
  - intros H b e Hb He Hn. apply H. now exists b, e.
Qed.

Lemma entity_at_update self r f e :
  entity_at self r = Some e -> entity_at (update self r f) r = Some (f e).
Proof.
  unfold entity_at, update. destruct r as [i j]. simpl.
  rewrite list_lookup_alter_eq.
  destruct (entityList self !! i) as [b|]; simpl; [|discriminate].
  rewrite list_lookup_alter_eq. now intros ->.
Qed.

End EntityLookup.

(** ** Running the building blocks *)

Section Runs.

Lemma bucket_exists self ty :
  wf_Gui self = true ->
  exists b, entityList self !! Archetype.value ty = Some b.
Proof.
  unfold wf_Gui. intros H. apply andb_prop in H as [H _].
  apply Nat.eqb_eq in H.
  apply lookup_lt_is_Some_2. rewrite H. destruct ty; cbv; lia.
Qed.

Lemma entityList_append_run self ty e :
  wf_Gui self = true ->
  entityList_append (Archetype.value ty) e self =
  mkRun (Return tt) (register self ty e) [] [].
Proof.
  intros H. destruct (bucket_exists self ty H) as [b Hb].
  unfold entityList_append, mbind, M_bind, get. rewrite Hb. reflexivity.
Qed.

Lemma sceneList_ref_run self i s :
  position (sceneList self) i = Some s ->
  sceneList_ref i self = mkRun (Return s) self [] [].
Proof.
  intros H. unfold sceneList_ref, mbind, M_bind, get. rewrite H. reflexivity.
Qed.

Lemma scene_deref_run self s sc :
  scene_at self s = Some sc ->
  scene_deref s self = mkRun (Return sc) self [] [].
Proof.
  intros H. unfold scene_deref, mbind, M_bind, get. rewrite H. reflexivity.
Qed.

Lemma entity_deref_run self r e :
  entity_at self r = Some e ->
  entity_deref r self = mkRun (Return e) self [] [].
Proof.
  intros H. unfold entity_deref, mbind, M_bind, get. rewrite H. reflexivity.
Qed.

Lemma entity_update_run self r f :
  entity_update r f self = mkRun (Return tt) (update self r f) [] [].
Proof. reflexivity. Qed.

End Runs.

(** ** [_parseEntity] *)

Section ParseEntity.

Variables (name : string) (a : Payload) (ty : Archetype.t) (self : Gui).
Hypothesis Hwf : wf_Gui self = true.

(** The deferred path. *)
Lemma parseEntity_pending :
  bare self name ->
  exists j,
    _parseEntity name a ty self
    = mkRun (Return tt) (register self ty (Entity.mk name a [])) [] j
    /\ map fst j = [INFO].
Proof.
  intros Hb. unfold _parseEntity.
  destruct (bare_guard self name Hb) as [-> | H].
  - unfold_monad. rewrite entityList_append_run by assumption.
    eexists. split; reflexivity.
  - destruct (_ && _); unfold_monad.
    + fold (_getSceneIndex self (Py.slice_to name (Py.find "/" name))).
      rewrite H. rewrite entityList_append_run by assumption.
      eexists. split; reflexivity.
    + rewrite entityList_append_run by assumption.
      eexists. split; reflexivity.
Qed.

Variables (scene rest : string) (s : SceneRef) (sc : Scene.t).
Hypothesis Hp : prefixed name scene rest.
Hypothesis Hi : _getSceneIndex self scene = Z.of_nat s.
Hypothesis Hsc : scene_at self s = Some sc.

(** The immediate path: the entity is registered first, then logged
    through the operation of its kind. *)
Lemma parseEntity_immediate :
  let g := register self ty (Entity.mk rest a [s]) in
  if Archetype.eqb ty Archetype.MESH_FROM_PATH then
    match attr_path a, Scene.rec sc with
    | Some p, Some h =>
        exists j,
          _parseEntity name a ty self
          = mkRun (Return tt) g [LogFileFromPath p (Native h)] j
          /\ map fst j = [INFO]
    | _, _ =>
        _parseEntity name a ty self = mkRun (Raise AttributeError) g [] []
    end
  else
    exists j,
      _parseEntity name a ty self
      = mkRun (Return tt) g [Log rest a (Scene.rec sc)] j
      /\ map fst j = [INFO].
Proof.
  destruct Hp as (Hs & Hr & ->).
  destruct (split_prefixed scene rest Hs Hr) as (Hg & Hto & Hfrom).
  assert (Hpos : position (sceneList self) (Z.of_nat s) = Some s)
    by now apply position_of_nat with sc.
  assert (Hsc' : scene_at (register self ty (Entity.new rest a (Some s))) s
                 = Some sc) by exact Hsc.
  assert (Hne : negb (Z.eqb (Z.of_nat s) (-1)) = true)
    by (apply negb_true_iff, Z.eqb_neq; lia).
  cbv zeta. unfold _parseEntity. rewrite Hg, Hto, Hfrom.
  destruct (Archetype.eqb ty Archetype.MESH_FROM_PATH);
    [destruct (attr_path a) as [p|] eqn:Hpath;
     [destruct (Scene.rec sc) as [h|] eqn:Hrec|]|];
    try eexists;
    unfold_monad; rewrite Hi, Hne, (sceneList_ref_run _ _ _ Hpos);
    unfold_monad; rewrite entityList_append_run by assumption;
    unfold_monad.
  all: cbn [Entity.archetype Entity.new]; rewrite ?Hpath; unfold_monad;
    rewrite ?(scene_deref_run _ _ _ Hsc'); unfold_monad; rewrite ?Hrec;
    unfold_monad; rewrite ?(scene_deref_run _ _ _ Hsc'); unfold_monad.
  all: try (split; reflexivity); try reflexivity.
Qed.

End ParseEntity.

(** ** Creation calls *)

Section Creation.

(** A creation call is [_parseEntity] on the payload it builds, followed
    by its [return]. *)
Lemma creation_run c name a ty v self o g b j :
  creation c = Some (name, a, ty, v) ->
  _parseEntity name a ty self = mkRun o g b j ->
  call c self
  = mkRun (match o with Return _ => Return v | Raise e => Raise e end) g b j.
Proof.
  intros H Hrun. destruct c as [| | |p|n path| |]; try discriminate.
  - cbn [creation] in H. destruct (prim_valid p) eqn:Hv; [|discriminate].
    destruct (prim_payload p) as [a'|] eqn:Hpay; [|discriminate].
    injection H as <- <- <- <-.
    destruct p; cbn [call create prim_name prim_payload prim_kind] in *;
      unfold addFloor, addBox, addArrow, addCapsule, addLine, addSquareFace,
             addTriangleFace, addSphere, arrow_vectors;
      try (cbn [prim_valid] in Hv; rewrite Hv);
      try (destruct (to_float64 _); [|discriminate]);
      apply (inj Some) in Hpay; subst a';
      unfold_monad; rewrite Hrun; destruct o; rewrite ?app_nil_r;
      reflexivity.
  - injection H as <- <- <- <-.
    cbn [call]. unfold_monad. rewrite Hrun. destruct o; rewrite ?app_nil_r;
      reflexivity.
Qed.

Lemma creation_not_mesh p : prim_kind p <> Archetype.MESH_FROM_PATH.
Proof. destruct p; discriminate. Qed.

Lemma creation_mesh c name a v :
  creation c = Some (name, a, Archetype.MESH_FROM_PATH, v) ->
  exists path, a = MeshFromPath path.
Proof.
  destruct c as [| | |p|n path| |]; try discriminate; cbn [creation].
  - destruct (prim_valid p); [|discriminate].
    destruct (prim_payload p); [|discriminate].
    intros H. injection H as _ _ H _. now destruct p.
  - intros H. injection H as _ <- _. now exists path.
Qed.

End Creation.

(** ** Creation: immediate and deferred logging *)

(** C2, as stated, fails: on a fresh [Gui], [addArrow] with the bare name
    ["a"] and the length [10**309], an [int] with no finite [float64],
    raises [OverflowError] while the vectors of the arrow are computed,
    before [_parseEntity] is called: no entity is registered. *)
Lemma bare_creation_registers_fails : ~ bare_creation_registers.
Proof.
  intros H.
  destruct (H (Arrow "a" 1 (PyInt (10 ^ 309)) [255; 0; 0; 255]%num) Gui_init)
    as [Hout _].
  - reflexivity.
  - reflexivity.
  - apply bare_no_slash. reflexivity.
  - vm_compute in Hout. discriminate.
Qed.

(** C2, amended.  A primitive-creation call that reaches [_parseEntity]
    (its arguments pass the assertions and its payload is built: every
    call but [addTriangleFace] with a position that has not three
    coordinates and [addArrow] with a length that has no finite
    [float64]) and whose name has no ['/'], or whose first ['/'] is its
    last character, or whose prefix before the first ['/'] is not a
    registered scene, returns after registering an entity under the full
    given name, with the payload built and an empty scene-membership set,
    and makes no backend call. *)
Theorem creation_deferred c name a ty v self :
  creation c = Some (name, a, ty, v) ->
  wf_Gui self = true ->
  bare self name ->
  let r := call c self in
  outcome r = Return v
  /\ final r = register self ty (Entity.mk name a [])
  /\ backend r = [].
Proof.
  intros Hc Hwf Hb r.
  destruct (parseEntity_pending name a ty self Hwf Hb) as (j & Hrun & _).
  subst r. rewrite (creation_run _ _ _ _ _ _ _ _ _ _ Hc Hrun). cbn. auto.
Qed.

Lemma creation_deferred_witness :
  let col := [255; 0; 0; 255]%num in
  let r := call (Create (Arrow "arrowA" (PyFloat half64) 5 col)) world_bound in
  outcome r = Return (VBool true)
  /\ final r = register world_bound Archetype.ARROWS3D
                 (Entity.mk "arrowA"
                    (Arrows3D [[PyFloat half64]]
                              [[S754_zero false; S754_zero false;
                                S754_finite false 5629499534213120 (-50)]]
                              [col] ["arrowA"])
                    [])
  /\ backend r = [].
Proof.
  apply (creation_deferred
           (Create (Arrow "arrowA" (PyFloat half64) 5 [255; 0; 0; 255]%num))
           "arrowA").
  - reflexivity.
  - reflexivity.
  - apply bare_no_slash. reflexivity.
Defined.

(** C1, as stated, fails: the mesh-from-path creation ["world/m"], with
    scene ["world"] registered and not yet bound to a window, registers the
    entity and then raises [AttributeError] on the absent recording handle;
    no backend call is issued. *)
Lemma prefixed_creation_logs_once_fails : ~ prefixed_creation_logs_once.
Proof.
  intros H.
  destruct (H (AddMesh "world/m" "m.obj") "world/m" (MeshFromPath "m.obj")
              Archetype.MESH_FROM_PATH VNone world_unbound "world" "m")
    as [one Hone].
  - reflexivity.
  - reflexivity.
  - repeat split; [discriminate].
  - exists (Scene.new "world"). split; [now left | reflexivity].
  - vm_compute in Hone. discriminate.
Qed.

(** C1, amended.  A primitive-creation call that reaches [_parseEntity]
    (its arguments pass the assertions and its payload is built: every
    call but [addTriangleFace] with a position that has not three
    coordinates and [addArrow] with a length that has no finite
    [float64]) and whose name is [scene/rest], with [rest] non-empty and
    [scene] (the text before the first ['/']) the name of a registered
    scene, registers an entity named [rest] whose
    membership set is exactly that scene and issues exactly one backend
    call against that scene's recording handle: the generic log for every
    kind other than mesh-from-path, and the file-load call for
    mesh-from-path when the scene has a recording handle. *)
Theorem creation_immediate c name a ty v self scene rest :
  creation c = Some (name, a, ty, v) ->
  wf_Gui self = true ->
  prefixed name scene rest ->
  registered self scene ->
  exists (s : SceneRef) sc,
    _getSceneIndex self scene = Z.of_nat s
    /\ scene_at self s = Some sc /\ Scene.name sc = scene
    /\ let r := call c self in
       (ty <> Archetype.MESH_FROM_PATH ->
        outcome r = Return v
        /\ final r = register self ty (Entity.mk rest a [s])
        /\ backend r = [Log rest a (Scene.rec sc)])
       /\ (forall h, ty = Archetype.MESH_FROM_PATH -> Scene.rec sc = Some h ->
           exists path,
             a = MeshFromPath path
             /\ outcome r = Return v
             /\ final r = register self ty (Entity.mk rest a [s])
             /\ backend r = [LogFileFromPath path (Native h)]).
Proof.
  intros Hc Hwf Hp Hreg.
  destruct (scene_lookup self scene Hreg) as (s & sc & Hi & Hsc & Hn & _ & _).
  exists s, sc. do 3 (split; [assumption|]).
  pose proof (parseEntity_immediate name a ty self Hwf scene rest s sc Hp Hi Hsc)
    as Hcase. cbv zeta in Hcase. cbv zeta. split.
  - intros Hty.
    destruct ty; try congruence; cbn in Hcase; destruct Hcase as (j & Hrun & _);
      rewrite (creation_run _ _ _ _ _ _ _ _ _ _ Hc Hrun); cbn; auto.
  - intros h -> Hh.
    destruct (creation_mesh c name a v Hc) as [path ->]. exists path.
    cbn in Hcase. rewrite Hh in Hcase. destruct Hcase as (j & Hrun & _).
    rewrite (creation_run _ _ _ _ _ _ _ _ _ _ Hc Hrun). cbn. auto.
Qed.

Lemma creation_immediate_witness :
  exists (s : SceneRef) sc,
    _getSceneIndex world_bound "world" = Z.of_nat s
    /\ scene_at world_bound s = Some sc /\ Scene.name sc = "world"
    /\ let c := Create (Box "world/b1" 1 1 1 [255; 0; 0; 255]%num) in
       let a := Boxes3D [[1; 1; 1]]%num [[255; 0; 0; 255]%num] "Solid"
                        (Some ["world/b1"]) in
       let r := call c world_bound in
       (Archetype.BOXES3D <> Archetype.MESH_FROM_PATH ->
        outcome r = Return (VBool true)
        /\ final r = register world_bound Archetype.BOXES3D
                       (Entity.mk "b1" a [s])
        /\ backend r = [Log "b1" a (Scene.rec sc)])
       /\ (forall h, Archetype.BOXES3D = Archetype.MESH_FROM_PATH ->
           Scene.rec sc = Some h ->
           exists path,
             a = MeshFromPath path
             /\ outcome r = Return (VBool true)
             /\ final r = register world_bound Archetype.BOXES3D
                            (Entity.mk "b1" a [s])
             /\ backend r = [LogFileFromPath path (Native h)]).
Proof.
  apply (creation_immediate (Create (Box "world/b1" 1 1 1 [255; 0; 0; 255]%num))
           "world/b1" _ Archetype.BOXES3D (VBool true) world_bound "world" "b1").
  - reflexivity.
  - reflexivity.
  - repeat split; [discriminate].
  - apply registered_index. vm_compute. discriminate.
Defined.

(** ** [addToGroup] *)

Section AddToGroup.

Variables (self : Gui) (nodeName groupName : string).

Lemma addToGroup_unknown_scene :
  ~ registered self groupName ->
  exists msg,
    addToGroup nodeName groupName self
    = mkRun (Return false) self [] [(ERROR, msg)].
Proof.
  intros H. apply unregistered_index in H.
  unfold addToGroup. unfold_monad. rewrite H. eexists. reflexivity.
Qed.

Lemma addToGroup_unknown_entity :
  registered self groupName ->
  ~ entity_registered self nodeName ->
  exists msg,
    addToGroup nodeName groupName self
    = mkRun (Return false) self [] [(ERROR, msg)].
Proof.
  intros Hs H. apply getEntity_None in H.
  apply registered_index, Z.eqb_neq in Hs.
  unfold addToGroup. unfold_monad. rewrite Hs, H. eexists. reflexivity.
Qed.

(** Both names known: the effect is that of [_logArchetype], which
    dispatches on the class of the payload. *)
Lemma addToGroup_known r :
  registered self groupName ->
  _getEntity self nodeName = Some r ->
  exists e (s : SceneRef) sc,
    entity_at self r = Some e /\ Entity.name e = nodeName
    /\ _getSceneIndex self groupName = Z.of_nat s
    /\ scene_at self s = Some sc /\ Scene.name sc = groupName
    /\ match Entity.archetype e with
       | MeshFromPath path =>
           match Scene.rec sc with
           | Some h =>
               exists j,
                 addToGroup nodeName groupName self
                 = mkRun (Return true) self
                         [LogFileFromPath path (Native h)] j
                 /\ map fst j = [INFO]
           | None =>
               addToGroup nodeName groupName self
               = mkRun (Raise AttributeError) self [] []
           end
       | a =>
           exists j,
             addToGroup nodeName groupName self
             = mkRun (Return true)
                     (update self r (fun e => Entity.addScene e s))
                     [Log (Entity.name e) a (Scene.rec sc)] j
             /\ map fst j = [INFO]
       end.
Proof.
  intros Hs Hr.
  destruct (getEntity_Some self nodeName r Hr) as (e & He & Hn).
  destruct (scene_lookup self groupName Hs)
    as (s & sc & Hi & Hsc & Hsn & Hrec & Hpos).
  exists e, s, sc. do 5 (split; [assumption|]).
  apply registered_index, Z.eqb_neq in Hs.
  pose proof (entity_at_update self r (fun e => Entity.addScene e s) e He)
    as Hu.
  unfold addToGroup, _logArchetype.
  destruct (Entity.archetype e) eqn:Ha;
    [| | | | |destruct (Scene.rec sc) as [h|] eqn:Hh|];
    try eexists;
    unfold_monad; rewrite Hs, Hr; unfold_monad; rewrite Hr; unfold_monad;
    rewrite (entity_deref_run _ _ _ He); unfold_monad; rewrite Ha;
    unfold_monad; rewrite ?Hrec, ?Hh; unfold_monad;
    rewrite ?(sceneList_ref_run _ _ _ Hpos); unfold_monad;
    rewrite ?entity_update_run; unfold_monad;
    rewrite ?(entity_deref_run _ _ _ Hu); unfold_monad;
    cbn [Entity.addScene Entity.name Entity.archetype]; rewrite ?Ha;
    try (split; reflexivity); try reflexivity.
Qed.

End AddToGroup.

(** C3.  [addToGroup(e, s)] returns a failure when [s] is not a registered
    scene, whether or not entity [e] exists, and returns a failure when [e]
    is not a registered entity, whether or not scene [s] exists; in both
    cases the registry is unchanged, no backend call is made, and the
    failure is reported as one error record. *)
Theorem addToGroup_not_found self e s :
  ~ registered self s \/ ~ entity_registered self e ->
  let r := addToGroup e s self in
  outcome r = Return false
  /\ final r = self
  /\ backend r = []
  /\ levels r = [ERROR].
Proof.
  intros H r. subst r.
  destruct (Z.eq_dec (_getSceneIndex self s) (-1)) as [Hi|Hi].
  - apply unregistered_index in Hi.
    destruct (addToGroup_unknown_scene self e s Hi) as [msg ->]. now cbn.
  - apply registered_index in Hi. destruct H as [H|H]; [contradiction|].
    destruct (addToGroup_unknown_entity self e s Hi H) as [msg ->]. now cbn.
Qed.

Lemma addToGroup_not_found_witness :
  let r := addToGroup "b1" "mars" world_bound in
  outcome r = Return false
  /\ final r = world_bound
  /\ backend r = []
  /\ levels r = [ERROR].
Proof.
  apply (addToGroup_not_found world_bound "b1" "mars").
  left. apply unregistered_index. reflexivity.
Defined.

(** ** Membership after [addToGroup] *)

Section Membership.

Lemma find_entity_alter f b j n k :
  (forall e, Entity.name (f e) = Entity.name e) ->
  find_entity (alter f j b) n k = find_entity b n k.
Proof.
  intros Hf. revert j k. induction b as [|e b IH]; intros j k; [reflexivity|].
  destruct j as [|j]; cbn [alter list_alter find_entity].
  - now rewrite Hf.
  - change (list_alter f j b) with (alter f j b). now rewrite IH.
Qed.

Lemma scan_buckets_alter f bs i j n k :
  (forall e, Entity.name (f e) = Entity.name e) ->
  scan_buckets (alter (alter f j) i bs) n k = scan_buckets bs n k.
Proof.
  intros Hf. revert i k. induction bs as [|b bs IH]; intros i k; [reflexivity|].
  destruct i as [|i]; cbn [alter list_alter scan_buckets].
  - change (list_alter f j b) with (alter f j b).
    now rewrite find_entity_alter.
  - change (list_alter (alter f j) i bs) with (alter (alter f j) i bs).
    now rewrite IH.
Qed.

Lemma getEntity_update self r f n :
  (forall e, Entity.name (f e) = Entity.name e) ->
  _getEntity (update self r f) n = _getEntity self n.
Proof.
  intros Hf. unfold _getEntity, update. cbn. now apply scan_buckets_alter.
Qed.

Lemma update_twice self r f :
  (forall e, f (f e) = f e) ->
  update (update self r f) r f = update self r f.
Proof.
  intros Hf. unfold update. cbn. f_equal.
  rewrite list_alter_alter_eq. apply list_alter_ext; [|reflexivity].
  intros b _. cbn. rewrite list_alter_alter_eq.
  apply list_alter_ext; [|reflexivity]. intros e _. apply Hf.
Qed.

Lemma addScene_member e s :
  existsb (fun s' => Nat.eqb s s') (Entity.scenes (Entity.addScene e s))
  = true.
Proof.
  unfold Entity.addScene. cbn.
  destruct (existsb (Nat.eqb s) (Entity.scenes e)) eqn:H; [exact H|].
  rewrite existsb_app. cbn. rewrite Nat.eqb_refl. apply orb_true_iff. auto.
Qed.

Lemma addScene_twice e s :
  Entity.addScene (Entity.addScene e s) s = Entity.addScene e s.
Proof.
  unfold Entity.addScene at 1. cbn [Entity.name Entity.archetype].
  pose proof (addScene_member e s) as H.
  change (fun s' => Nat.eqb s s') with (Nat.eqb s) in H. rewrite H.
  now destruct (Entity.addScene e s).
Qed.

(** For an entity whose payload is not a mesh loaded from a file:
    after [addToGroup] the entity is a member of the scene, and a second
    call succeeds and leaves the registry as the first one left it.
    ([Entity.addScene] is modelled from the specification.) *)
Lemma addToGroup_member self nodeName groupName r e :
  registered self groupName ->
  _getEntity self nodeName = Some r ->
  entity_at self r = Some e ->
  is_MeshFromPath (Entity.archetype e) = false ->
  let first := addToGroup nodeName groupName self in
  let second := addToGroup nodeName groupName (final first) in
  outcome first = Return true
  /\ isMemberOf (final first) nodeName groupName = true
  /\ outcome second = Return true
  /\ final second = final first.
Proof.
  intros Hs Hr He Hm first second.
  destruct (addToGroup_known self nodeName groupName r Hs Hr)
    as (e0 & s & sc & He0 & Hn & Hi & Hsc & Hsn & Hrun).
  rewrite He in He0. injection He0 as <-.
  assert (H1 : exists b j,
             first = mkRun (Return true)
                           (update self r (fun e => Entity.addScene e s)) b j).
  { destruct (Entity.archetype e); try discriminate;
      destruct Hrun as (j & Hrun & _); eauto. }
  destruct H1 as (b1 & j1 & H1).
  assert (Hname : forall e, Entity.name (Entity.addScene e s) = Entity.name e)
    by reflexivity.
  assert (Hf : final first = update self r (fun e => Entity.addScene e s))
    by now rewrite H1.
  assert (Hr' : _getEntity (final first) nodeName = Some r).
  { rewrite Hf, getEntity_update by exact Hname. exact Hr. }
  assert (He' : entity_at (final first) r = Some (Entity.addScene e s)).
  { rewrite Hf.
    exact (entity_at_update self r (fun e => Entity.addScene e s) e He). }
  assert (Hs' : registered (final first) groupName) by (rewrite Hf; exact Hs).
  split; [now rewrite H1|]. split.
  - unfold isMemberOf. rewrite Hr', He'.
    replace (_getSceneIndex (final first) groupName) with (Z.of_nat s)
      by (rewrite Hf; symmetry; exact Hi).
    rewrite Nat2Z.id. cbn [_isEntityInScene]. rewrite addScene_member.
    replace (Z.eqb (Z.of_nat s) (-1)) with false
      by (symmetry; apply Z.eqb_neq; lia).
    reflexivity.
  - destruct (addToGroup_known (final first) nodeName groupName r Hs' Hr')
      as (e1 & s1 & sc1 & He1 & _ & Hi1 & _ & _ & Hrun1).
    fold second in Hrun1.
    rewrite He' in He1. injection He1 as <-.
    assert (s1 = s) as ->.
    { rewrite Hf in Hi1.
      change (_getSceneIndex (update self r _) groupName)
        with (_getSceneIndex self groupName) in Hi1. lia. }
    cbn [Entity.addScene Entity.archetype] in Hrun1.
    assert (H2 : exists b j,
               second = mkRun (Return true)
                          (update (final first) r
                                  (fun e => Entity.addScene e s)) b j).
    { destruct (Entity.archetype e); try discriminate;
        destruct Hrun1 as (j & Hrun1 & _); eauto. }
    destruct H2 as (b2 & j2 & H2). rewrite H2. cbn [outcome final].
    split; [reflexivity|].
    rewrite Hf. apply update_twice. intros e'. apply addScene_twice.
Qed.

End Membership.

(** C4.  After a successful [addToGroup(e, s)] the membership test
    [isMemberOf(e, s)] is meant to hold.  The code breaks this for an
    entity whose payload is a [MeshFromPath]: [_logArchetype] returns
    [True] from that branch before reaching [entity.addScene], so with
    scene ["world"] bound and the pending mesh entity ["m"],
    [addToGroup("m", "world")] succeeds, leaves the registry untouched, and
    ["m"] is still not a member of ["world"]. *)
Theorem addToGroup_mesh_not_member :
  let r := addToGroup "m" "world" mesh_pending in
  outcome r = Return true
  /\ backend r = [LogFileFromPath "m.obj" (Native (mkRecording "win" "world"))]
  /\ final r = mesh_pending
  /\ isMemberOf (final r) "m" "world" = false.
Proof. vm_compute. auto. Qed.

(** ** [resizeArrow] *)

Section ResizeArrow.

Variables (self : Gui) (arrowName : string) (radius length : Number).

Lemma for_each_run {A} (l : list A) (body : A -> M unit) g
      (emitted : A -> BackendCall) :
  (forall x, In x l ->
     exists j, body x g = mkRun (Return tt) g [emitted x] j
               /\ map fst j = [INFO]) ->
  exists j,
    for_each l body g = mkRun (Return tt) g (map emitted l) j
    /\ map fst j = map (fun _ => INFO) l.
Proof.
  induction l as [|x l IH]; intros H.
  - exists []. split; reflexivity.
  - destruct (H x (or_introl eq_refl)) as (j & Hx & Hj).
    destruct IH as (j' & Hl & Hj'); [intros y Hy; apply H; now right|].
    exists (j ++ j'). cbn [for_each]. unfold_monad. rewrite Hx, Hl.
    split; [reflexivity|]. rewrite List.map_app.
    change (map (fun _ : A => INFO) (x :: l))
      with ([INFO] ++ map (fun _ : A => INFO) l).
    f_equal; assumption.
Qed.

Lemma wf_scene_refs g r e s :
  wf_Gui g = true -> entity_at g r = Some e -> In s (Entity.scenes e) ->
  exists sc, scene_at g s = Some sc.
Proof.
  unfold wf_Gui, entity_at, scene_at. intros H He Hs.
  apply andb_prop in H as [_ H]. rewrite forallb_forall in H.
  destruct (entityList g !! r.1) as [b|] eqn:Hb; [|discriminate]. cbn in He.
  assert (Hin : In b (entityList g))
    by (apply list_elem_of_In, list_elem_of_lookup; eauto).
  specialize (H b Hin). rewrite forallb_forall in H.
  assert (Hin' : In e b)
    by (apply list_elem_of_In, list_elem_of_lookup; eauto).
  specialize (H e Hin'). rewrite forallb_forall in H.
  specialize (H s Hs). apply Nat.ltb_lt in H.
  apply lookup_lt_is_Some_2 in H. destruct H as [sc H]. now exists sc.
Qed.

(** The local [createArrow]: the rebuilt arrow when the length has a
    finite [float64], [OverflowError] otherwise. *)
Lemma createArrow_run g colors x :
  to_float64 length = Some x ->
  createArrow arrowName radius length colors g
  = mkRun (Return (Arrows3D [[radius]]
                            [[fmul zero64 x; zero64; fmul one64 x]]
                            colors [arrowName]))
          g [] [].
Proof.
  intros Hx. unfold createArrow, arrow_vectors. rewrite Hx. reflexivity.
Qed.

Lemma createArrow_overflow g colors :
  to_float64 length = None ->
  createArrow arrowName radius length colors g
  = mkRun (Raise OverflowError) g [] [].
Proof.
  intros Hx. unfold createArrow, arrow_vectors. rewrite Hx. reflexivity.
Qed.

(** The global path: no resolvable scene prefix. *)
Lemma resizeArrow_unknown :
  bare self arrowName ->
  ~ entity_registered self arrowName ->
  exists msg,
    resizeArrow arrowName radius length self
    = mkRun (Return false) self [] [(ERROR, msg)].
Proof.
  intros Hb Hn. apply getEntity_None in Hn.
  unfold resizeArrow.
  destruct (bare_guard self arrowName Hb) as [-> | H];
    [|destruct (_ && _)]; eexists; unfold_monad;
    try fold (_getSceneIndex self
                (Py.slice_to arrowName (Py.find "/" arrowName)));
    rewrite ?H, Hn; reflexivity.
Qed.

Lemma resizeArrow_globally ref e colors x :
  bare self arrowName ->
  wf_Gui self = true ->
  _getEntity self arrowName = Some ref ->
  entity_at self ref = Some e ->
  attr_colors (Entity.archetype e) = Some colors ->
  to_float64 length = Some x ->
  let newArrow :=
    Arrows3D [[radius]] [[fmul zero64 x; zero64; fmul one64 x]] colors
             [arrowName] in
  exists j,
    resizeArrow arrowName radius length self
    = mkRun (Return true)
            (update self ref (Entity.set_archetype newArrow))
            (map (fun s => Log (Entity.name e) newArrow (scene_rec self s))
                 (Entity.scenes e))
            j.
Proof.
  intros Hb Hwf Hr He Hc Hx newArrow.
  pose proof (entity_at_update self ref (Entity.set_archetype newArrow) e He)
    as Hu.
  set (g := update self ref (Entity.set_archetype newArrow)) in *.
  unfold resizeArrow.
  destruct (bare_guard self arrowName Hb) as [-> | H];
    [|destruct (_ && _)]; unfold_monad;
    try fold (_getSceneIndex self
                (Py.slice_to arrowName (Py.find "/" arrowName)));
    rewrite ?H, Hr; unfold_monad;
    rewrite (entity_deref_run _ _ _ He); unfold_monad; rewrite Hc;
    unfold_monad; rewrite (createArrow_run _ _ _ Hx); unfold_monad;
    rewrite entity_update_run; unfold_monad;
    fold newArrow; fold g; rewrite (entity_deref_run _ _ _ Hu);
    unfold_monad;
    cbn [Entity.set_archetype Entity.scenes Entity.name Entity.archetype].
  all: match goal with
       | |- context [for_each ?l ?body] =>
           destruct (for_each_run l body g
                       (fun s => Log (Entity.name e) newArrow
                                     (scene_rec self s)))
             as (jl & Hloop & _);
           [intros s Hs;
            destruct (wf_scene_refs self ref e s Hwf He Hs) as [sc Hsc];
            assert (Hsc' : scene_at g s = Some sc) by exact Hsc;
            eexists; cbv beta; rewrite (scene_deref_run _ _ _ Hsc');
            unfold scene_rec; rewrite Hsc; split; reflexivity|]
       end.
  all: revert Hloop; destruct (Entity.scenes e) as [|s0 l]; intros Hloop;
    eexists; rewrite ?Hloop; unfold_monad; cbn [app map];
    rewrite ?app_nil_r; reflexivity.
Qed.

(** On the global path the colors of the stored payload are read first,
    then the arrow is rebuilt, then the entity is changed: a payload
    without colors, or a length without a finite [float64], stops the call
    before any change. *)
Lemma resizeArrow_globally_no_colors ref e :
  bare self arrowName ->
  _getEntity self arrowName = Some ref ->
  entity_at self ref = Some e ->
  attr_colors (Entity.archetype e) = None ->
  resizeArrow arrowName radius length self
  = mkRun (Raise AttributeError) self [] [].
Proof.
  intros Hb Hr He Hc. unfold resizeArrow.
  destruct (bare_guard self arrowName Hb) as [-> | H];
    [|destruct (_ && _)]; unfold_monad;
    try fold (_getSceneIndex self
                (Py.slice_to arrowName (Py.find "/" arrowName)));
    rewrite ?H, Hr; unfold_monad;
    rewrite (entity_deref_run _ _ _ He); unfold_monad; rewrite Hc;
    reflexivity.
Qed.

Lemma resizeArrow_globally_overflow ref e colors :
  bare self arrowName ->
  _getEntity self arrowName = Some ref ->
  entity_at self ref = Some e ->
  attr_colors (Entity.archetype e) = Some colors ->
  to_float64 length = None ->
  resizeArrow arrowName radius length self
  = mkRun (Raise OverflowError) self [] [].
Proof.
  intros Hb Hr He Hc Hx. unfold resizeArrow.
  destruct (bare_guard self arrowName Hb) as [-> | H];
    [|destruct (_ && _)]; unfold_monad;
    try fold (_getSceneIndex self
                (Py.slice_to arrowName (Py.find "/" arrowName)));
    rewrite ?H, Hr; unfold_monad;
    rewrite (entity_deref_run _ _ _ He); unfold_monad; rewrite Hc;
    unfold_monad; rewrite (createArrow_overflow _ _ Hx); reflexivity.
Qed.

(** The scene path: the name is [scene/rest] and [scene] is registered. *)
Variables (scene rest : string).
Hypothesis Hp : prefixed arrowName scene rest.
Hypothesis Hreg : registered self scene.

Lemma resizeArrow_not_member :
  isMemberOf self rest scene = false ->
  exists msg,
    resizeArrow arrowName radius length self
    = mkRun (Return false) self [] [(ERROR, msg)].
Proof.
  intros Hm.
  destruct Hp as (Hs & Hr & ->).
  destruct (split_prefixed scene rest Hs Hr) as (Hg & Hto & Hfrom).
  destruct (scene_lookup self scene Hreg)
    as (s & sc & Hi & Hsc & Hsn & _ & Hpos).
  assert (Hne : negb (Z.eqb (Z.of_nat s) (-1)) = true)
    by (apply negb_true_iff, Z.eqb_neq; lia).
  rewrite Hi in Hpos.
  unfold isMemberOf in Hm. rewrite Hi, Hne, Nat2Z.id in Hm.
  unfold resizeArrow. rewrite Hg, Hto, Hfrom.
  destruct (_getEntity self rest) as [ref|] eqn:Hent.
  - destruct (getEntity_Some self rest ref Hent) as (e & He & _).
    rewrite He in Hm. cbn [andb] in Hm.
    eexists. unfold_monad. rewrite Hi, Hne, Hent.
    rewrite (sceneList_ref_run _ _ _ Hpos). unfold_monad.
    rewrite (entity_deref_run _ _ _ He). unfold_monad. rewrite Hm.
    reflexivity.
  - eexists. unfold_monad. rewrite Hi, Hne, Hent.
    rewrite (sceneList_ref_run _ _ _ Hpos). unfold_monad. reflexivity.
Qed.

Lemma resizeArrow_member ref e colors x :
  _getEntity self rest = Some ref ->
  entity_at self ref = Some e ->
  isMemberOf self rest scene = true ->
  attr_colors (Entity.archetype e) = Some colors ->
  to_float64 length = Some x ->
  let newArrow :=
    Arrows3D [[radius]] [[fmul zero64 x; zero64; fmul one64 x]] colors
             [arrowName] in
  exists (s : SceneRef) sc j,
    _getSceneIndex self scene = Z.of_nat s /\ scene_at self s = Some sc
    /\ resizeArrow arrowName radius length self
       = mkRun (Return true)
               (update self ref (Entity.set_archetype newArrow))
               [Log (Entity.name e) newArrow (Scene.rec sc)] j.
Proof.
  intros Hent He Hm Hc Hx newArrow.
  destruct Hp as (Hs & Hr & Hname).
  destruct (split_prefixed scene rest Hs Hr) as (Hg & Hto & Hfrom).
  rewrite <- Hname in Hg, Hto, Hfrom.
  destruct (scene_lookup self scene Hreg)
    as (s & sc & Hi & Hsc & Hsn & _ & Hpos).
  assert (Hne : negb (Z.eqb (Z.of_nat s) (-1)) = true)
    by (apply negb_true_iff, Z.eqb_neq; lia).
  rewrite Hi in Hpos.
  unfold isMemberOf in Hm. rewrite Hi, Hne, Nat2Z.id, Hent, He in Hm.
  cbn [andb] in Hm.
  pose proof (entity_at_update self ref (Entity.set_archetype newArrow) e He)
    as Hu.
  set (g := update self ref (Entity.set_archetype newArrow)) in *.
  assert (Hsc' : scene_at g s = Some sc) by exact Hsc.
  exists s, sc. eexists. do 2 (split; [assumption|]).
  unfold resizeArrow. rewrite Hg, Hto, Hfrom.
  unfold_monad. rewrite Hi, Hne, Hent.
  rewrite (sceneList_ref_run _ _ _ Hpos). unfold_monad.
  rewrite (entity_deref_run _ _ _ He). unfold_monad. rewrite Hm, Hc.
  unfold_monad. rewrite (createArrow_run _ _ _ Hx). unfold_monad.
  rewrite entity_update_run. unfold_monad.
  fold newArrow. fold g. rewrite (entity_deref_run _ _ _ Hu). unfold_monad.
  rewrite (scene_deref_run _ _ _ Hsc'). unfold_monad. reflexivity.
Qed.

(** On the scene path too, the call stops before any change when the
    stored payload has no colors or the length has no finite [float64]. *)
Lemma resizeArrow_member_stops ref e :
  _getEntity self rest = Some ref ->
  entity_at self ref = Some e ->
  isMemberOf self rest scene = true ->
  (attr_colors (Entity.archetype e) = None ->
   resizeArrow arrowName radius length self
   = mkRun (Raise AttributeError) self [] [])
  /\ (forall colors,
        attr_colors (Entity.archetype e) = Some colors ->
        to_float64 length = None ->
        resizeArrow arrowName radius length self
        = mkRun (Raise OverflowError) self [] []).
Proof.
  intros Hent He Hm.
  destruct Hp as (Hs & Hr & Hname).
  destruct (split_prefixed scene rest Hs Hr) as (Hg & Hto & Hfrom).
  rewrite <- Hname in Hg, Hto, Hfrom.
  destruct (scene_lookup self scene Hreg)
    as (s & sc & Hi & Hsc & Hsn & _ & Hpos).
  assert (Hne : negb (Z.eqb (Z.of_nat s) (-1)) = true)
    by (apply negb_true_iff, Z.eqb_neq; lia).
  rewrite Hi in Hpos.
  unfold isMemberOf in Hm. rewrite Hi, Hne, Nat2Z.id, Hent, He in Hm.
  cbn [andb] in Hm.
  split; [intros Hc | intros colors Hc Hx];
    unfold resizeArrow; rewrite Hg, Hto, Hfrom;
    unfold_monad; rewrite Hi, Hne, Hent;
    rewrite (sceneList_ref_run _ _ _ Hpos); unfold_monad;
    rewrite (entity_deref_run _ _ _ He); unfold_monad; rewrite Hm, Hc;
    unfold_monad; rewrite ?(createArrow_overflow _ _ Hx); reflexivity.
Qed.

End ResizeArrow.

Lemma getEntity_registered self n r :
  _getEntity self n = Some r -> entity_registered self n.
Proof.
  intros H. destruct (getEntity_Some self n r H) as (e & He & Hn).
  unfold entity_at in He.
  destruct (entityList self !! r.1) as [b|] eqn:Hb; [|discriminate].
  exists b, e. repeat split; [| |assumption];
    apply list_elem_of_In, list_elem_of_lookup; eauto.
Qed.

(** C5.  On a name [s/e] whose prefix [s] is a registered scene,
    [resizeArrow] succeeds only if an entity named [e] exists and is
    already a member of scene [s]; when the entity is missing or is not a
    member of [s], the call returns a failure, reports one error, makes no
    backend call and leaves the registry, hence the entity's payload,
    unchanged. *)
Theorem resizeArrow_prefixed_needs_member self name s e radius length :
  prefixed name s e ->
  registered self s ->
  let r := resizeArrow name radius length self in
  (outcome r = Return true ->
   entity_registered self e /\ isMemberOf self e s = true)
  /\ (isMemberOf self e s = false ->
      outcome r = Return false /\ final r = self /\ backend r = []
      /\ levels r = [ERROR]).
Proof.
  intros Hp Hreg r.
  assert (Hfail : isMemberOf self e s = false ->
                  outcome r = Return false /\ final r = self /\ backend r = []
                  /\ levels r = [ERROR]).
  { intros Hm.
    destruct (resizeArrow_not_member self name radius length s e Hp Hreg Hm)
      as [msg Hrun].
    subst r. rewrite Hrun. now cbn. }
  split; [|exact Hfail].
  intros Hok. destruct (isMemberOf self e s) eqn:Hm.
  - split; [|reflexivity]. unfold isMemberOf in Hm.
    destruct (_getEntity self e) as [ref|] eqn:Hent; [|discriminate].
    now apply getEntity_registered with ref.
  - destruct (Hfail eq_refl) as (Ho & _). congruence.
Qed.

Lemma resizeArrow_prefixed_needs_member_witness :
  let r := resizeArrow "s1/arrowA" (PyFloat half64) 5 arrow_unlogged in
  outcome r = Return false /\ final r = arrow_unlogged /\ backend r = []
  /\ levels r = [ERROR].
Proof.
  apply (resizeArrow_prefixed_needs_member
           arrow_unlogged "s1/arrowA" "s1" "arrowA" (PyFloat half64) 5).
  - repeat split; [discriminate].
  - apply registered_index. vm_compute. discriminate.
  - reflexivity.
Defined.

(** C6, as stated, fails: with the square face ["f"] created under a bare
    name, [resizeArrow("f", 1, 1)] finds the entity, and reading the colors
    of its [Mesh3D] payload raises [AttributeError]: the call neither
    replaces the payload nor reports that the entity is missing. *)
Lemma bare_resize_replaces_payload_fails : ~ bare_resize_replaces_payload.
Proof.
  intros H.
  destruct (H face_pending "f" 1%num 1%num (4, 0)%nat
              (Entity.mk "f"
                 (Mesh3D [[0; 0; 0]; [1; 0; 0]; [1; 1; 0]; [0; 1; 0]]%num
                         (Some [[0; 1; 2]; [0; 1; 3]; [0; 2; 3]; [1; 2; 3]])
                         [[255; 0; 0; 255]%num]) []))
    as [Hout _].
  - reflexivity.
  - apply bare_no_slash. reflexivity.
  - reflexivity.
  - reflexivity.
  - vm_compute in Hout. discriminate.
Qed.

(** C6, amended.  On a bare name (no resolvable scene prefix),
    [resizeArrow] fails with an error report and no effect when no entity
    has that name.  When an entity is found, the colors of its payload are
    read first: a payload without colors raises [AttributeError].  Then the
    arrow is rebuilt: a length that has no finite [float64] raises
    [OverflowError].  Either exception leaves the registry unchanged and
    no backend call is made.  Otherwise the payload of the entity is
    replaced by the rebuilt arrow (the new radius, the vector
    [[0.0 * x, 0.0, 1.0 * x]] for the [float64] value [x] of the new
    length, the colors of the existing payload, the name as label), the
    membership set is kept, and one backend log call is issued per scene
    of that set, in order, each against the scene's current recording
    handle, and no other call: none when the set is empty. *)
Theorem resizeArrow_bare_name self name radius length :
  bare self name ->
  wf_Gui self = true ->
  let r := resizeArrow name radius length self in
  (~ entity_registered self name ->
   outcome r = Return false /\ final r = self /\ backend r = []
   /\ levels r = [ERROR])
  /\ (forall ref e,
        _getEntity self name = Some ref ->
        entity_at self ref = Some e ->
        match attr_colors (Entity.archetype e), to_float64 length with
        | None, _ =>
            outcome r = Raise AttributeError /\ final r = self
            /\ backend r = []
        | Some _, None =>
            outcome r = Raise OverflowError /\ final r = self
            /\ backend r = []
        | Some colors, Some x =>
            let newArrow :=
              Arrows3D [[radius]] [[fmul zero64 x; zero64; fmul one64 x]]
                       colors [name] in
            outcome r = Return true
            /\ final r = update self ref (Entity.set_archetype newArrow)
            /\ entity_at (final r) ref
               = Some (Entity.mk (Entity.name e) newArrow (Entity.scenes e))
            /\ backend r
               = map (fun s => Log (Entity.name e) newArrow (scene_rec self s))
                     (Entity.scenes e)
            /\ (Entity.scenes e = [] -> backend r = [])
        end).
Proof.
  intros Hb Hwf r. split.
  - intros Hn.
    destruct (resizeArrow_unknown self name radius length Hb Hn) as [msg Hrun].
    subst r. rewrite Hrun. now cbn.
  - intros ref e Hr He.
    destruct (attr_colors (Entity.archetype e)) as [colors|] eqn:Hc;
      [destruct (to_float64 length) as [x|] eqn:Hx|].
    + intros newArrow.
      destruct (resizeArrow_globally self name radius length ref e colors x
                  Hb Hwf Hr He Hc Hx) as [j Hrun].
      subst r. rewrite Hrun. cbn [outcome final backend].
      repeat split.
      * exact (entity_at_update self ref (Entity.set_archetype newArrow) e He).
      * now intros ->.
    + subst r.
      rewrite (resizeArrow_globally_overflow self name radius length ref e
                 colors Hb Hr He Hc Hx).
      now cbn.
    + subst r.
      rewrite (resizeArrow_globally_no_colors self name radius length ref e
                 Hb Hr He Hc).
      now cbn.
Qed.

Lemma resizeArrow_bare_name_witness :
  let self := arrow_logged in
  let r := resizeArrow "arrowA" (PyFloat half64) 5 self in
  let newArrow :=
    Arrows3D [[PyFloat half64]]
             [[S754_zero false; S754_zero false;
               S754_finite false 5629499534213120 (-50)]]
             [[255; 0; 0; 255]%num] ["arrowA"] in
  outcome r = Return true
  /\ final r = update self (0, 0)%nat (Entity.set_archetype newArrow)
  /\ entity_at (final r) (0, 0)%nat = Some (Entity.mk "arrowA" newArrow [0%nat])
  /\ backend r = [Log "arrowA" newArrow (Some (mkRecording "win" "world"))]
  /\ ([0%nat] = @nil SceneRef -> backend r = []).
Proof.
  cbv zeta.
  assert (Hb : bare arrow_logged "arrowA") by (apply bare_no_slash; reflexivity).
  destruct (resizeArrow_bare_name arrow_logged "arrowA" (PyFloat half64) 5
              Hb eq_refl) as [_ H].
  exact (H (0, 0)%nat
           (Entity.mk "arrowA"
              (Arrows3D [[1%num]] [[zero64; zero64; one64]]
                        [[255; 0; 0; 255]%num] ["arrowA"]) [0%nat])
           eq_refl eq_refl).
Defined.

(** ** [addSceneToWindow] *)

Section AddSceneToWindow.

Variables (self : Gui) (sceneName wid : string).

Lemma window_in_spec : window_in self wid = true <-> In wid (windowList self).
Proof.
  unfold window_in. rewrite existsb_exists. split.
  - intros (w & Hin & Heq). apply String.eqb_eq in Heq. now subst.
  - intros Hin. exists wid. split; [assumption | apply String.eqb_refl].
Qed.

Lemma addSceneToWindow_not_found :
  ~ registered self sceneName \/ ~ In wid (windowList self) ->
  exists msg,
    addSceneToWindow sceneName wid self
    = mkRun (Return false) self [] [(ERROR, msg)].
Proof.
  intros H. unfold addSceneToWindow. unfold_monad.
  destruct (Z.eqb_spec (_getSceneIndex self sceneName) (-1)) as [Hi|Hi].
  - eexists. reflexivity.
  - destruct H as [H|H].
    + exfalso. apply H. now apply registered_index.
    + destruct (window_in self wid) eqn:Hw.
      * exfalso. apply H. now apply window_in_spec.
      * eexists. reflexivity.
Qed.

Lemma addSceneToWindow_bound :
  registered self sceneName ->
  In wid (windowList self) ->
  exists (s : SceneRef) sc,
    _getSceneIndex self sceneName = Z.of_nat s
    /\ scene_at self s = Some sc /\ Scene.name sc = sceneName
    /\ addSceneToWindow sceneName wid self
       = mkRun (Return true)
               (mkGui (alter (fun sc => Scene.setRec sc
                                          (mkRecording wid sceneName))
                             s (sceneList self))
                      (windowList self) (entityList self))
               [NewRecording wid sceneName true] [].
Proof.
  intros Hs Hw.
  destruct (scene_lookup self sceneName Hs)
    as (s & sc & Hi & Hsc & Hsn & _ & Hpos).
  exists s, sc. do 3 (split; [assumption|]).
  apply window_in_spec in Hw.
  apply registered_index, Z.eqb_neq in Hs.
  unfold addSceneToWindow. unfold_monad. rewrite Hs, Hw. cbn [negb].
  rewrite (sceneList_ref_run _ _ _ Hpos). reflexivity.
Qed.

End AddSceneToWindow.

(** C8.  [addSceneToWindow] returns a failure, with an error report and
    the registry unchanged, when the scene name or the window name is not
    registered; otherwise it acquires a recording from the backend with the
    window name as application id and the scene name as recording id,
    attaches it to the scene of that name, and returns success.  After
    [createScene("world")], [createWindow("win")] and the binding of
    ["world"] to ["win"], scene ["world"] has a recording handle. *)
Theorem addSceneToWindow_spec self sceneName wid :
  let r := addSceneToWindow sceneName wid self in
  (~ registered self sceneName \/ ~ In wid (windowList self) ->
   outcome r = Return false /\ final r = self /\ backend r = []
   /\ levels r = [ERROR])
  /\ (registered self sceneName -> In wid (windowList self) ->
      exists (s : SceneRef) sc,
        _getSceneIndex self sceneName = Z.of_nat s
        /\ scene_at self s = Some sc
        /\ outcome r = Return true
        /\ backend r = [NewRecording wid sceneName true]
        /\ scene_at (final r) s
           = Some (Scene.mk sceneName (Some (mkRecording wid sceneName)))
        /\ (forall s', s' <> s -> scene_at (final r) s' = scene_at self s')
        /\ windowList (final r) = windowList self
        /\ entityList (final r) = entityList self)
  /\ (exists (s : SceneRef) sc h,
        _getSceneIndex world_bound "world" = Z.of_nat s
        /\ scene_at world_bound s = Some sc
        /\ Scene.rec sc = Some h).
Proof.
  intros r. split; [|split].
  - intros H.
    destruct (addSceneToWindow_not_found self sceneName wid H) as [msg Hrun].
    subst r. rewrite Hrun. now cbn.
  - intros Hs Hw.
    destruct (addSceneToWindow_bound self sceneName wid Hs Hw)
      as (s & sc & Hi & Hsc & Hsn & Hrun).
    exists s, sc. subst r. rewrite Hrun. cbn [outcome final backend].
    repeat split; try assumption.
    + unfold scene_at in *. cbn [sceneList].
      rewrite list_lookup_alter_eq, Hsc. cbn.
      unfold Scene.setRec. now rewrite Hsn.
    + intros s' Hne. unfold scene_at. cbn [sceneList].
      now rewrite list_lookup_alter_ne by congruence.
  - exists 0%nat, (Scene.mk "world" (Some (mkRecording "win" "world"))),
      (mkRecording "win" "world").
    repeat split.
Qed.

Lemma addSceneToWindow_spec_witness :
  let r := addSceneToWindow "world" "win" world_bound in
  exists (s : SceneRef) sc,
    _getSceneIndex world_bound "world" = Z.of_nat s
    /\ scene_at world_bound s = Some sc
    /\ outcome r = Return true
    /\ backend r = [NewRecording "win" "world" true]
    /\ scene_at (final r) s
       = Some (Scene.mk "world" (Some (mkRecording "win" "world")))
    /\ (forall s', s' <> s -> scene_at (final r) s' = scene_at world_bound s')
    /\ windowList (final r) = windowList world_bound
    /\ entityList (final r) = entityList world_bound.
Proof.
  apply (addSceneToWindow_spec world_bound "world" "win").
  - apply registered_index. vm_compute. discriminate.
  - left. reflexivity.
Defined.

(** ** The mesh-from-path kind and unbound scenes *)

(** C9.  Whenever an entity of the mesh-from-path kind is logged to a
    scene, at creation under a resolvable scene prefix or later through
    [addToGroup], the backend call is the file-load operation
    [log_file_from_path], on the path of the payload and with the scene's
    recording handle converted by [to_native]; the generic [log] operation
    is never called for it (on a scene without a handle no call is made at
    all). *)
Theorem mesh_from_path_uses_log_file self :
  (forall name scene rest path,
      wf_Gui self = true -> prefixed name scene rest ->
      registered self scene ->
      let r := call (AddMesh name path) self in
      match _getRecording self scene with
      | Some h =>
          outcome r = Return VNone
          /\ backend r = [LogFileFromPath path (Native h)]
      | None => backend r = []
      end)
  /\ (forall nodeName groupName ref e path,
        registered self groupName ->
        _getEntity self nodeName = Some ref ->
        entity_at self ref = Some e ->
        Entity.archetype e = MeshFromPath path ->
        let r := addToGroup nodeName groupName self in
        match _getRecording self groupName with
        | Some h =>
            outcome r = Return true
            /\ backend r = [LogFileFromPath path (Native h)]
        | None => backend r = []
        end).
Proof.
  split.
  - intros name scene rest path Hwf Hp Hreg r.
    destruct (scene_lookup self scene Hreg) as (s & sc & Hi & Hsc & _ & Hrec & _).
    pose proof (parseEntity_immediate name (MeshFromPath path)
                  Archetype.MESH_FROM_PATH self Hwf scene rest s sc Hp Hi Hsc)
      as Hcase.
    cbn in Hcase. rewrite Hrec. subst r.
    destruct (Scene.rec sc) as [h|].
    + destruct Hcase as (j & Hrun & _).
      rewrite (creation_run (AddMesh name path) _ _ _ VNone _ _ _ _ _
                            eq_refl Hrun). now cbn.
    + rewrite (creation_run (AddMesh name path) _ _ _ VNone _ _ _ _ _
                            eq_refl Hcase). now cbn.
  - intros nodeName groupName ref e path Hreg Hr He Ha r.
    destruct (addToGroup_known self nodeName groupName ref Hreg Hr)
      as (e0 & s & sc & He0 & _ & Hi & Hsc & _ & Hrun).
    rewrite He in He0. injection He0 as <-. rewrite Ha in Hrun.
    destruct (scene_lookup self groupName Hreg)
      as (s' & sc' & Hi' & Hsc' & _ & Hrec & _).
    assert (s' = s) as -> by lia. rewrite Hsc in Hsc'. injection Hsc' as <-.
    rewrite Hrec. subst r. destruct (Scene.rec sc) as [h|].
    + destruct Hrun as (j & -> & _). now cbn.
    + rewrite Hrun. now cbn.
Qed.

Lemma mesh_from_path_uses_log_file_witness :
  (let r := call (AddMesh "world/m" "m.obj") world_bound in
   outcome r = Return VNone
   /\ backend r
      = [LogFileFromPath "m.obj" (Native (mkRecording "win" "world"))])
  /\ (let r := addToGroup "m" "world" mesh_pending in
      outcome r = Return true
      /\ backend r
         = [LogFileFromPath "m.obj" (Native (mkRecording "win" "world"))]).
Proof.
  split.
  - apply (proj1 (mesh_from_path_uses_log_file world_bound)
                 "world/m" "world" "m" "m.obj").
    + reflexivity.
    + repeat split; [discriminate].
    + apply registered_index. vm_compute. discriminate.
  - apply (proj2 (mesh_from_path_uses_log_file mesh_pending)
                 "m" "world" (5, 0)%nat
                 (Entity.mk "m" (MeshFromPath "m.obj") []) "m.obj").
    + apply registered_index. vm_compute. discriminate.
    + reflexivity.
    + reflexivity.
    + reflexivity.
Defined.

(** C10.  [addToGroup] checks that the scene and the entity are
    registered, not that the scene is bound to a window: for a registered
    entity and a registered scene whose recording handle is still unset,
    the call does not fail with a not-found result; it calls the backend
    [log] with an absent recording handle and, for a mesh-from-path
    payload, raises [AttributeError] on dereferencing the absent handle. *)
Theorem addToGroup_unbound_scene self nodeName groupName ref e :
  registered self groupName ->
  _getRecording self groupName = None ->
  _getEntity self nodeName = Some ref ->
  entity_at self ref = Some e ->
  let r := addToGroup nodeName groupName self in
  outcome r <> Return false
  /\ match Entity.archetype e with
     | MeshFromPath _ =>
         outcome r = Raise AttributeError /\ backend r = []
         /\ final r = self
     | a =>
         outcome r = Return true
         /\ backend r = [Log (Entity.name e) a None]
         /\ levels r = [INFO]
     end.
Proof.
  intros Hreg Hnone Hr He r.
  destruct (addToGroup_known self nodeName groupName ref Hreg Hr)
    as (e0 & s & sc & He0 & _ & Hi & Hsc & _ & Hrun).
  rewrite He in He0. injection He0 as <-.
  destruct (scene_lookup self groupName Hreg)
    as (s' & sc' & Hi' & Hsc' & _ & Hrec & _).
  assert (s' = s) as -> by lia. rewrite Hsc in Hsc'. injection Hsc' as <-.
  rewrite Hnone in Hrec. rewrite <- Hrec in Hrun. subst r.
  destruct (Entity.archetype e);
    try (destruct Hrun as (j & -> & Hj); cbn; repeat split;
         [discriminate | exact Hj]).
  rewrite Hrun. cbn. repeat split. discriminate.
Qed.

Lemma addToGroup_unbound_scene_witness :
  let r := addToGroup "s1" "world" sphere_unbound in
  outcome r <> Return false
  /\ outcome r = Return true
  /\ backend r
     = [Log "s1"
            (Points3D [[PyFloat zero64; PyFloat zero64; PyFloat zero64]]
                      [[2%num]] [[0; 255; 0; 255]%num] ["s1"]) None]
  /\ levels r = [INFO].
Proof.
  apply (addToGroup_unbound_scene sphere_unbound "s1" "world" (6, 0)%nat
           (Entity.mk "s1"
              (Points3D [[PyFloat zero64; PyFloat zero64; PyFloat zero64]]
                        [[2%num]] [[0; 255; 0; 255]%num] ["s1"]) [])).
  - apply registered_index. vm_compute. discriminate.
  - reflexivity.
  - reflexivity.
  - reflexivity.
Defined.

(** ** What the calls keep of the registry *)

Section Preservation.

(** The scene list is [l] and the registry satisfies [J], a property
    that survives registering or changing an entity whose scene
    references point into [l]. *)
Variable l : list Scene.t.
Variable J : Gui -> Prop.
Hypothesis J_register :
  forall g k e, sceneList g = l -> J g -> refs_below (length l) e ->
    J (mkGui (sceneList g) (windowList g)
             (alter (fun b => b ++ [e]) k (entityList g))).
Hypothesis J_update :
  forall g r f, sceneList g = l -> J g ->
    (forall e, refs_below (length l) e -> refs_below (length l) (f e)) ->
    J (update g r f).

Let I (g : Gui) : Prop := sceneList g = l /\ J g.
Let any {A} (_ : A) : Prop := True.

Lemma pres_ret {A} (a : A) (Q : A -> Prop) : Q a -> preserves I (mret a) Q.
Proof. intros H self HI. cbn. auto. Qed.

Lemma pres_bind {A B} (m : M A) (f : A -> M B) Q R :
  preserves I m Q -> (forall a, Q a -> preserves I (f a) R) ->
  preserves I (m ≫= f) R.
Proof.
  intros Hm Hf self HI. specialize (Hm self HI). unfold_monad.
  destruct (m self) as [[a|e] g b j]; [|exact Hm].
  destruct Hm as [Hg Ha]. specialize (Hf a Ha g Hg).
  destruct (f a g) as [[a'|e'] g' b' j']; exact Hf.
Qed.

Lemma pres_get : preserves I get I.
Proof. intros self HI. cbn. auto. Qed.

Lemma pres_raise {A} e (Q : A -> Prop) : preserves I (raise e) Q.
Proof. intros self HI. exact HI. Qed.

Lemma pres_emit c : preserves I (emit c) any.
Proof. intros self HI. cbn. now split. Qed.

Lemma pres_logger_info msg : preserves I (logger_info msg) any.
Proof. intros self HI. cbn. now split. Qed.

Lemma pres_logger_error msg : preserves I (logger_error msg) any.
Proof. intros self HI. cbn. now split. Qed.

Lemma pres_or_raise {A} e (o : option A) : preserves I (or_raise e o) any.
Proof. intros self HI. destruct o; cbn; [now split | exact HI]. Qed.

Lemma pres_to_native rec : preserves I (to_native rec) any.
Proof. intros self HI. destruct rec; cbn; [now split | exact HI]. Qed.

Lemma pres_assert cond : preserves I (assert cond) any.
Proof. intros self HI. destruct cond; cbn; [now split | exact HI]. Qed.

Lemma pres_createArrow n radius length colors :
  preserves I (createArrow n radius length colors) any.
Proof.
  intros self HI. unfold createArrow, arrow_vectors. unfold_monad.
  destruct (to_float64 length); cbn; [now split | exact HI].
Qed.

Lemma pres_sceneList_ref i :
  preserves I (sceneList_ref i) (fun s => (s < length l)%nat).
Proof.
  intros self [Hl HJ]. unfold sceneList_ref. unfold_monad.
  rewrite Hl. unfold position.
  destruct (Z.ltb_spec i 0).
  - destruct (Z.ltb_spec (i + Z.of_nat (length l)) 0);
      cbn; repeat split; auto; lia.
  - destruct (Z.ltb_spec i (Z.of_nat (length l)));
      cbn; repeat split; auto; lia.
Qed.

Lemma pres_scene_deref s : preserves I (scene_deref s) any.
Proof.
  intros self HI. unfold scene_deref. unfold_monad.
  destruct (scene_at self s); cbn; [now split | exact HI].
Qed.

Lemma pres_entity_deref r : preserves I (entity_deref r) any.
Proof.
  intros self HI. unfold entity_deref. unfold_monad.
  destruct (entity_at self r); cbn; [now split | exact HI].
Qed.

Lemma pres_entityList_append k e :
  refs_below (length l) e -> preserves I (entityList_append k e) any.
Proof.
  intros He self [Hl HJ]. unfold entityList_append. unfold_monad.
  destruct (entityList self !! k); [|now split].
  split; [split|exact Logic.I]; [exact Hl | now apply J_register].
Qed.

Lemma pres_entity_update r f :
  (forall e, refs_below (length l) e -> refs_below (length l) (f e)) ->
  preserves I (entity_update r f) any.
Proof.
  intros Hf self [Hl HJ]. unfold entity_update. unfold_monad.
  split; [split|exact Logic.I]; [exact Hl | now apply J_update].
Qed.

Lemma pres_for_each {A} (xs : list A) body :
  (forall x, preserves I (body x) any) -> preserves I (for_each xs body) any.
Proof.
  intros H. induction xs as [|x xs IH]; cbn [for_each].
  - now apply pres_ret.
  - eapply pres_bind; [apply H | intros _ _; exact IH].
Qed.

Lemma refs_below_new n name a : refs_below n (Entity.new name a None).
Proof. constructor. Qed.

Lemma refs_below_new_in n name a s :
  (s < n)%nat -> refs_below n (Entity.new name a (Some s)).
Proof. intros H. repeat constructor. exact H. Qed.

Lemma refs_below_set_archetype n a e :
  refs_below n e -> refs_below n (Entity.set_archetype a e).
Proof. intros H. exact H. Qed.

Lemma refs_below_addScene n s e :
  (s < n)%nat -> refs_below n e -> refs_below n (Entity.addScene e s).
Proof.
  intros Hs He. unfold refs_below, Entity.addScene. cbn.
  destruct (existsb _ _); [exact He|].
  apply Forall_app. split; [exact He | now repeat constructor].
Qed.

(** One step of the proof that a method keeps [I]: follow the structure
    of its body. *)
Ltac pres :=
  lazymatch goal with
  | |- preserves _ (mbind _ _) _ =>
      eapply pres_bind; [pres | intros ? ?; pres]
  | |- preserves _ (mret _) _ => apply pres_ret; exact Logic.I
  | |- preserves _ get _ => apply pres_get
  | |- preserves _ (raise _) _ => apply pres_raise
  | |- preserves _ (emit _) _ => apply pres_emit
  | |- preserves _ (logger_info _) _ => apply pres_logger_info
  | |- preserves _ (logger_error _) _ => apply pres_logger_error
  | |- preserves _ (or_raise _ _) _ => apply pres_or_raise
  | |- preserves _ (to_native _) _ => apply pres_to_native
  | |- preserves _ (assert _) _ => apply pres_assert
  | |- preserves _ (createArrow _ _ _ _) _ => apply pres_createArrow
  | |- preserves _ (rr_log _ _ _) _ => apply pres_emit
  | |- preserves _ (rr_log_file_from_path _ _) _ => apply pres_emit
  | |- preserves _ (sceneList_ref _) _ => apply pres_sceneList_ref
  | |- preserves _ (scene_deref _) _ => apply pres_scene_deref
  | |- preserves _ (entity_deref _) _ => apply pres_entity_deref
  | |- preserves _ (entityList_append _ _) _ =>
      apply pres_entityList_append;
      first [apply refs_below_new | now apply refs_below_new_in]
  | |- preserves _ (entity_update _ _) _ =>
      apply pres_entity_update; intros ? ?;
      first [now apply refs_below_set_archetype
            | now apply refs_below_addScene]
  | |- preserves _ (for_each _ _) _ => apply pres_for_each; intros ?; pres
  | |- preserves _ (if ?b then _ else _) _ => destruct b; pres
  | |- preserves _ (match ?x with _ => _ end) _ => destruct x; pres
  | |- preserves _ (let _ := _ in _) _ => cbv zeta; pres
  end.

Lemma pres_parseEntity name a ty : preserves I (_parseEntity name a ty) any.
Proof. unfold _parseEntity. cbv zeta. pres. Qed.

Lemma pres_resizeArrow name radius length :
  preserves I (resizeArrow name radius length) any.
Proof. unfold resizeArrow. cbv zeta. pres. Qed.

Lemma pres_logArchetype e g : preserves I (_logArchetype e g) any.
Proof. unfold _logArchetype. cbv zeta. pres. Qed.

Lemma pres_addToGroup e g : preserves I (addToGroup e g) any.
Proof.
  unfold addToGroup.
  eapply pres_bind; [apply pres_get | intros self' _].
  destruct (Z.eqb _ _); [pres|].
  destruct (_getEntity self' e); [apply pres_logArchetype | pres].
Qed.

Lemma pres_create p : preserves I (create p) any.
Proof.
  destruct p; cbn [create];
    unfold addFloor, addBox, addArrow, addCapsule, addLine, addSquareFace,
           addTriangleFace, addSphere; cbv zeta;
    repeat (eapply pres_bind;
            [first [apply pres_parseEntity | apply pres_assert
                   | apply pres_or_raise]
            |intros ? _]);
    now apply pres_ret.
Qed.

(** The creation calls, [resizeArrow] and [addToGroup] keep [I]. *)
Lemma pres_call c :
  match c with
  | CreateWindow _ | CreateScene _ | AddSceneToWindow _ _ => True
  | _ => preserves I (call c) any
  end.
Proof.
  destruct c; cbn [call]; try exact Logic.I; unfold fmap, M_fmap;
    (eapply pres_bind; [|intros ? _; now apply pres_ret]).
  - apply pres_create.
  - apply pres_parseEntity.
  - apply pres_resizeArrow.
  - apply pres_addToGroup.
Qed.

End Preservation.

(** ** Well-formed registries *)

Section WellFormed.

Lemma wf_Gui_spec g :
  wf_Gui g = true <->
  length (entityList g) = Archetype.count
  /\ Forall (Forall (refs_below (length (sceneList g)))) (entityList g).
Proof.
  unfold wf_Gui, refs_below.
  rewrite andb_true_iff, Nat.eqb_eq, forallb_forall, List.Forall_forall.
  apply and_iff_compat_l. split; intros H b Hb.
  - rewrite List.Forall_forall. intros e He.
    rewrite List.Forall_forall. intros s Hs. apply Nat.ltb_lt.
    specialize (H b Hb). rewrite forallb_forall in H.
    specialize (H e He). rewrite forallb_forall in H. now apply H.
  - specialize (H b Hb). rewrite List.Forall_forall in H.
    rewrite forallb_forall. intros e He. rewrite forallb_forall.
    intros s Hs. apply Nat.ltb_lt.
    specialize (H e He). rewrite List.Forall_forall in H. now apply H.
Qed.

Lemma wf_register l g k e :
  sceneList g = l -> wf_Gui g = true -> refs_below (length l) e ->
  wf_Gui (mkGui (sceneList g) (windowList g)
                (alter (fun b => b ++ [e]) k (entityList g))) = true.
Proof.
  intros <- Hwf He. apply wf_Gui_spec in Hwf as [Hlen Hall].
  apply wf_Gui_spec. cbn [sceneList entityList]. split.
  - now rewrite length_alter.
  - apply Forall_alter; [exact Hall|].
    intros b _ Hb. apply Forall_app. split; [exact Hb | now constructor].
Qed.

Lemma wf_update l g r f :
  sceneList g = l -> wf_Gui g = true ->
  (forall e, refs_below (length l) e -> refs_below (length l) (f e)) ->
  wf_Gui (update g r f) = true.
Proof.
  intros <- Hwf Hf. apply wf_Gui_spec in Hwf as [Hlen Hall].
  apply wf_Gui_spec. unfold update. cbn [sceneList entityList]. split.
  - now rewrite length_alter.
  - apply Forall_alter; [exact Hall|].
    intros b _ Hb. apply Forall_alter; [exact Hb|].
    intros e _ He. now apply Hf.
Qed.

Lemma wf_scenes g scenes' :
  (length (sceneList g) <= length scenes')%nat -> wf_Gui g = true ->
  forall windows', wf_Gui (mkGui scenes' windows' (entityList g)) = true.
Proof.
  intros Hle Hwf windows'. apply wf_Gui_spec in Hwf as [Hlen Hall].
  apply wf_Gui_spec. cbn [sceneList entityList]. split; [exact Hlen|].
  eapply Forall_impl; [exact Hall|]. intros b Hb.
  eapply Forall_impl; [exact Hb|]. intros e He. unfold refs_below in *.
  eapply Forall_impl; [exact He|]. intros s Hs. cbn beta in *. lia.
Qed.

(** Every call keeps the registry well formed. *)
Lemma call_wf c self :
  wf_Gui self = true -> wf_Gui (final (call c self)) = true.
Proof.
  intros Hwf.
  pose proof (pres_call (sceneList self) (fun g => wf_Gui g = true)
                (wf_register (sceneList self)) (wf_update (sceneList self)) c)
    as Hc.
  destruct c;
    try (specialize (Hc self (conj eq_refl Hwf));
         destruct (call _ self) as [[a|e] g b j]; cbn [final];
         tauto).
  - cbn. apply (wf_scenes self); [lia | exact Hwf].
  - cbn. apply (wf_scenes self); [|exact Hwf].
    rewrite length_app. lia.
  - cbn [call]. unfold fmap, M_fmap, addSceneToWindow. unfold_monad.
    destruct (Z.eqb _ _); [exact Hwf|].
    destruct (window_in _ _); cbn [negb]; [|exact Hwf].
    unfold sceneList_ref. unfold_monad.
    destruct (position _ _); [|exact Hwf].
    cbn [final]. apply (wf_scenes self); [|exact Hwf].
    rewrite length_alter. lia.
Qed.

(** Every registry a client can reach from a fresh [Gui] is well
    formed. *)
Lemma session_wf cs : wf_Gui (session cs Gui_init) = true.
Proof.
  assert (H : forall g, wf_Gui g = true -> wf_Gui (session cs g) = true).
  { induction cs as [|c cs IH]; intros g Hg; [exact Hg|].
    cbn [session]. apply IH. now apply call_wf. }
  apply H. reflexivity.
Qed.

(** The creation calls, [resizeArrow] and [addToGroup] leave the scene
    list as it is. *)
Lemma call_keeps_scenes c self :
  match c with
  | CreateWindow _ | CreateScene _ | AddSceneToWindow _ _ => True
  | _ => sceneList (final (call c self)) = sceneList self
  end.
Proof.
  pose proof (pres_call (sceneList self) (fun _ => True)
                (fun _ _ _ _ _ _ => Logic.I) (fun _ _ _ _ _ _ => Logic.I) c)
    as Hc.
  destruct c; try exact Logic.I;
    specialize (Hc self (conj eq_refl Logic.I));
    destruct (call _ self) as [[a|e] g b j]; cbn [final]; tauto.
Qed.

End WellFormed.

(** ** Recording handles *)

(** C7, as stated, fails: with scene ["world"] bound to window ["win"],
    binding it again to window ["win2"] succeeds and replaces the handle
    opened for ["win"] by the one opened for ["win2"]. *)
Lemma handle_never_replaced_fails : ~ handle_never_replaced.
Proof.
  intros H.
  destruct (H two_windows (AddSceneToWindow "world" "win2") 0%nat
              (Scene.mk "world" (Some (mkRecording "win" "world")))
              (mkRecording "win" "world") eq_refl eq_refl eq_refl)
    as (sc' & Hsc' & Hrec).
  vm_compute in Hsc'. injection Hsc' as <-. discriminate Hrec.
Qed.

(** C7, amended.  Once a scene has a recording handle it keeps one: every
    call leaves the scene in place under its name, and leaves its handle
    as it is unless the call is a successful [addSceneToWindow] on that
    scene's name, which overwrites the handle with the one newly acquired
    for the given window. *)
Theorem handle_kept_unless_rebound self c s sc h :
  scene_at self s = Some sc ->
  Scene.rec sc = Some h ->
  exists sc',
    scene_at (final (call c self)) s = Some sc'
    /\ Scene.name sc' = Scene.name sc
    /\ (Scene.rec sc' = Some h
        \/ exists wid,
             c = AddSceneToWindow (Scene.name sc) wid
             /\ In wid (windowList self)
             /\ _getSceneIndex self (Scene.name sc) = Z.of_nat s
             /\ Scene.rec sc' = Some (mkRecording wid (Scene.name sc))).
Proof.
  intros Hsc Hh.
  pose proof (call_keeps_scenes c self) as Hkeep.
  destruct c as [n|n|sceneName wid|p|n path|n r l|n g];
    try (exists sc; unfold scene_at in *; rewrite Hkeep; auto).
  - exists sc. cbn. auto.
  - exists sc. unfold scene_at in *. cbn. split; [|auto].
    now apply lookup_app_l_Some.
  - cbn [call]. unfold fmap, M_fmap. unfold mbind at 1, M_bind at 1.
    destruct (Z.eq_dec (_getSceneIndex self sceneName) (-1)) as [Hi|Hi].
    { apply unregistered_index in Hi.
      destruct (addSceneToWindow_not_found self sceneName wid (or_introl Hi))
        as [msg ->].
      exists sc. cbn. auto. }
    apply registered_index in Hi.
    destruct (window_in self wid) eqn:Hw.
    + apply window_in_spec in Hw.
      destruct (addSceneToWindow_bound self sceneName wid Hi Hw)
        as (s0 & sc0 & Hi0 & Hsc0 & Hn0 & ->).
      cbn [mret M_ret final]. unfold scene_at in *. cbn [sceneList].
      destruct (Nat.eq_dec s0 s) as [->|Hne].
      * rewrite Hsc in Hsc0. injection Hsc0 as <-.
        exists (Scene.setRec sc (mkRecording wid sceneName)).
        rewrite list_lookup_alter_eq, Hsc. subst sceneName.
        repeat split. right. exists wid. auto.
      * exists sc. rewrite list_lookup_alter_ne by exact Hne. auto.
    + assert (Hnw : ~ In wid (windowList self)).
      { intros Hin. apply window_in_spec in Hin. congruence. }
      destruct (addSceneToWindow_not_found self sceneName wid (or_intror Hnw))
        as [msg ->].
      exists sc. cbn. auto.
Qed.

Lemma handle_kept_unless_rebound_witness :
  exists sc',
    scene_at (final (call (AddSceneToWindow "world" "win2") two_windows)) 0%nat
    = Some sc'
    /\ Scene.name sc' = "world"
    /\ (Scene.rec sc' = Some (mkRecording "win" "world")
        \/ exists wid,
             AddSceneToWindow "world" "win2" = AddSceneToWindow "world" wid
             /\ In wid (windowList two_windows)
             /\ _getSceneIndex two_windows "world" = Z.of_nat 0
             /\ Scene.rec sc' = Some (mkRecording wid "world")).
Proof.
  apply (handle_kept_unless_rebound two_windows
           (AddSceneToWindow "world" "win2") 0%nat
           (Scene.mk "world" (Some (mkRecording "win" "world")))
           (mkRecording "win" "world")).
  - reflexivity.
  - reflexivity.
Defined.

(** ** The scenarios of the specification *)

(** [addBox("world/b1", 1, 1, 1, [255, 0, 0, 255])]: entity ["b1"] exists,
    is a member of ["world"], and one log call was issued. *)
Example scenario_box :
  let r := addBox "world/b1" 1 1 1 [255; 0; 0; 255]%num world_bound in
  outcome r = Return true
  /\ isMemberOf (final r) "b1" "world" = true
  /\ length (backend r) = 1%nat.
Proof. vm_compute. auto. Qed.

(** [addSphere("s1", 2, [0, 255, 0, 255])] then [addToGroup("s1",
    "world")]: empty membership first, then a member, with exactly one log
    call. *)
Example scenario_sphere :
  let created := addSphere "s1" 2 [0; 255; 0; 255]%num world_bound in
  let r := addToGroup "s1" "world" (final created) in
  backend created = []
  /\ isMemberOf (final created) "s1" "world" = false
  /\ outcome r = Return true
  /\ isMemberOf (final r) "s1" "world" = true
  /\ length (backend r) = 1%nat.
Proof. vm_compute. auto 6. Qed.

(** A mesh-from-path entity created under a resolvable scene prefix is a
    member of the scene: the creation path records the membership that
    [_logArchetype] skips. *)
Example scenario_mesh_prefixed :
  let r := call (AddMesh "world/m" "m.obj") world_bound in
  outcome r = Return VNone
  /\ backend r = [LogFileFromPath "m.obj" (Native (mkRecording "win" "world"))]
  /\ isMemberOf (final r) "m" "world" = true.
Proof. vm_compute. auto. Qed.

(** The registries of the examples are reachable, hence well formed. *)
Example arrow_logged_wf : wf_Gui arrow_logged = true.
Proof. apply session_wf. Qed.

(** ** Lookups by name: first match *)

Section FirstMatch.

Lemma find_entity_first b n j k :
  find_entity b n j = Some k ->
  forall i e, (i < k - j)%nat -> b !! i = Some e -> Entity.name e <> n.
Proof.
  revert j. induction b as [|e0 b IH]; intros j H i e Hi Hl; [discriminate|].
  cbn [find_entity] in H.
  destruct (String.eqb_spec (Entity.name e0) n) as [E|NE].
  - injection H as <-. lia.
  - destruct i as [|i]; cbn in Hl.
    + now injection Hl as <-.
    + apply (IH (S j) H i e); [|exact Hl].
      destruct (find_entity_Some _ _ _ _ H) as (_ & _ & _ & Hle). lia.
Qed.

Lemma scan_buckets_first bs n i r :
  scan_buckets bs n i = Some r ->
  (forall k b e, (k < r.1 - i)%nat -> bs !! k = Some b -> In e b ->
                 Entity.name e <> n)
  /\ (forall b j e, bs !! (r.1 - i)%nat = Some b -> (j < r.2)%nat ->
                   b !! j = Some e -> Entity.name e <> n).
Proof.
  revert i. induction bs as [|b0 bs IH]; intros i H; [discriminate|].
  cbn [scan_buckets] in H.
  destruct (find_entity b0 n 0) as [j0|] eqn:Hf.
  - injection H as <-. cbn [fst snd]. rewrite Nat.sub_diag. split.
    + intros k b e Hk. lia.
    + intros b j e Hb Hj Hl. cbn in Hb. injection Hb as <-.
      apply (find_entity_first _ _ _ _ Hf j e); [lia | exact Hl].
  - destruct (scan_buckets_Some _ _ _ _ H) as (_ & _ & _ & _ & _ & Hle).
    destruct (IH (S i) H) as [IH1 IH2].
    replace (r.1 - i)%nat with (S (r.1 - S i)) by lia. split.
    + intros [|k] b e Hk Hb He.
      * cbn in Hb. injection Hb as <-.
        now apply (proj1 (find_entity_None _ _ _) Hf).
      * cbn in Hb. apply (IH1 k b e); [lia | exact Hb | exact He].
    + intros b j e Hb. cbn in Hb. now apply IH2.
Qed.

Lemma getSceneIndex_from_range l n i :
  0 <= i ->
  getSceneIndex_from l n i = -1
  \/ i <= getSceneIndex_from l n i < i + Z.of_nat (length l).
Proof.
  revert i. induction l as [|sc l IH]; intros i Hi; cbn [getSceneIndex_from].
  - now left.
  - destruct (String.eqb _ _).
    + right. cbn [length]. lia.
    + destruct (IH (i + 1)) as [H|H]; [lia | now left | right].
      cbn [length]. lia.
Qed.

Lemma getSceneIndex_from_app l sc n i :
  0 <= i ->
  getSceneIndex_from (l ++ [sc]) n i =
  if Z.eqb (getSceneIndex_from l n i) (-1)
  then (if String.eqb (Scene.name sc) n then i + Z.of_nat (length l) else -1)
  else getSceneIndex_from l n i.
Proof.
  revert i. induction l as [|sc0 l IH]; intros i Hi.
  - cbn. destruct (String.eqb _ _); [|reflexivity].
    rewrite Z.add_0_r. reflexivity.
  - cbn [app getSceneIndex_from length].
    destruct (String.eqb (Scene.name sc0) n).
    + destruct (Z.eqb_spec i (-1)); [lia | reflexivity].
    + rewrite IH by lia.
      destruct (Z.eqb _ _); [|reflexivity].
      destruct (String.eqb _ _); [lia | reflexivity].
Qed.

Lemma getRecording_from_app l sc n :
  getRecording_from (l ++ [sc]) n =
  if Z.eqb (getSceneIndex_from l n 0) (-1)
  then (if String.eqb (Scene.name sc) n then Scene.rec sc else None)
  else getRecording_from l n.
Proof.
  assert (H : forall i, 0 <= i ->
            getRecording_from (l ++ [sc]) n =
            if Z.eqb (getSceneIndex_from l n i) (-1)
            then (if String.eqb (Scene.name sc) n then Scene.rec sc else None)
            else getRecording_from l n).
  { induction l as [|sc0 l IH]; intros i Hi.
    - reflexivity.
    - cbn [app getSceneIndex_from getRecording_from].
      destruct (String.eqb (Scene.name sc0) n).
      + destruct (Z.eqb_spec i (-1)); [lia | reflexivity].
      + apply IH. lia. }
  apply H. lia.
Qed.

Lemma getSceneIndex_from_alter f l s n i :
  (forall sc, Scene.name (f sc) = Scene.name sc) ->
  getSceneIndex_from (alter f s l) n i = getSceneIndex_from l n i.
Proof.
  intros Hf. revert s i. induction l as [|sc l IH]; intros s i; [reflexivity|].
  destruct s as [|s]; cbn [alter list_alter getSceneIndex_from].
  - now rewrite Hf.
  - change (list_alter f s l) with (alter f s l). now rewrite IH.
Qed.

Lemma getRecording_from_alter_first l s sc n r :
  l !! s = Some sc -> Scene.name sc = n ->
  (forall j sc', (j < s)%nat -> l !! j = Some sc' -> Scene.name sc' <> n) ->
  getRecording_from (alter (fun sc => Scene.setRec sc r) s l) n = Some r.
Proof.
  revert s. induction l as [|sc0 l IH]; intros s Hl Hn Hfirst; [discriminate|].
  destruct s as [|s]; cbn [alter list_alter getRecording_from].
  - cbn in Hl. injection Hl as ->. cbn [Scene.setRec Scene.name Scene.rec].
    rewrite Hn, String.eqb_refl. reflexivity.
  - destruct (String.eqb_spec (Scene.name sc0) n) as [E|_].
    + exfalso. apply (Hfirst 0%nat sc0); [lia | reflexivity | exact E].
    + apply IH; [exact Hl | exact Hn |].
      intros j sc' Hj Hl'. apply (Hfirst (S j) sc'); [lia | exact Hl'].
Qed.

Lemma getRecording_from_alter_other l s sc m r :
  l !! s = Some sc -> Scene.name sc <> m ->
  getRecording_from (alter (fun sc => Scene.setRec sc r) s l) m
  = getRecording_from l m.
Proof.
  revert s. induction l as [|sc0 l IH]; intros s Hl Hn; [reflexivity|].
  destruct s as [|s]; cbn [alter list_alter getRecording_from].
  - cbn in Hl. injection Hl as ->. cbn [Scene.setRec Scene.name Scene.rec].
    destruct (String.eqb_spec (Scene.name sc) m); [contradiction | reflexivity].
  - destruct (String.eqb _ _); [reflexivity|]. now apply IH.
Qed.

Lemma scene_lookup_first self n :
  registered self n ->
  exists (s : SceneRef) sc,
    _getSceneIndex self n = Z.of_nat s
    /\ scene_at self s = Some sc /\ Scene.name sc = n
    /\ _getRecording self n = Scene.rec sc
    /\ (forall j sc', (j < s)%nat -> scene_at self j = Some sc' ->
                      Scene.name sc' <> n).
Proof.
  intros H. unfold _getSceneIndex, _getRecording, scene_at.
  destruct (getSceneIndex_from_registered _ _ 0 H)
    as (k & sc & Hk & Hl & Hn & Hr & Hfirst).
  exists k, sc. rewrite Hk, Z.add_0_l. auto.
Qed.

End FirstMatch.

(** X1.  [_getSceneIndex] returns [-1] exactly when no scene has the
    name; otherwise it returns the position of the first scene of that
    name: a valid index, and no earlier scene carries the name. *)
Theorem getSceneIndex_first_match self n :
  (_getSceneIndex self n = -1 <-> ~ registered self n)
  /\ (_getSceneIndex self n = -1
      \/ exists (s : SceneRef) sc,
           _getSceneIndex self n = Z.of_nat s
           /\ (s < length (sceneList self))%nat
           /\ scene_at self s = Some sc /\ Scene.name sc = n
           /\ (forall j sc', (j < s)%nat -> scene_at self j = Some sc' ->
                             Scene.name sc' <> n)).
Proof.
  split.
  - split; intros H; now apply unregistered_index.
  - destruct (Z.eq_dec (_getSceneIndex self n) (-1)) as [Hi|Hi]; [now left|].
    right. apply registered_index in Hi.
    destruct (scene_lookup_first self n Hi) as (s & sc & H1 & H2 & H3 & _ & H5).
    exists s, sc. repeat split; try assumption.
    unfold scene_at in H2. now apply lookup_lt_Some in H2.
Qed.

Lemma getRecording_unregistered self n :
  _getSceneIndex self n = -1 -> _getRecording self n = None.
Proof.
  intros Hi. apply unregistered_index in Hi.
  unfold _getRecording. unfold registered in Hi.
  induction (sceneList self) as [|sc l IH]; [reflexivity|].
  cbn [getRecording_from].
  destruct (String.eqb_spec (Scene.name sc) n) as [E|NE].
  - exfalso. apply Hi. exists sc. split; [now left | exact E].
  - apply IH. intros (sc' & Hin & Hn). apply Hi. exists sc'.
    split; [now right | exact Hn].
Qed.

(** X2.  [_getRecording] and [_getSceneIndex] agree on the scene a name
    stands for: [_getRecording] is [None] when no scene has the name, and
    otherwise the handle ([None] while unbound) of the scene at the index
    [_getSceneIndex] returns. *)
Theorem getRecording_agrees_with_index self n :
  _getRecording self n =
  if Z.eqb (_getSceneIndex self n) (-1) then None
  else scene_rec self (Z.to_nat (_getSceneIndex self n)).
Proof.
  destruct (Z.eqb_spec (_getSceneIndex self n) (-1)) as [Hi|Hi].
  - now apply getRecording_unregistered.
  - apply registered_index in Hi.
    destruct (scene_lookup self n Hi) as (s & sc & H1 & H2 & _ & H4 & _).
    rewrite H4, H1, Nat2Z.id. unfold scene_rec. now rewrite H2.
Qed.

(** X3.  [_getEntity] returns [None] exactly when no bucket holds an
    entity of that name; otherwise it returns an entity of that name, the
    first one in the order of the scan: the lowest archetype bucket that
    holds the name, and in it the earliest entity. *)
Theorem getEntity_first_match self n :
  (_getEntity self n = None <-> ~ entity_registered self n)
  /\ match _getEntity self n with
     | None => True
     | Some r =>
         exists e,
           entity_at self r = Some e /\ Entity.name e = n
           /\ (forall r' e', entity_at self r' = Some e' ->
                             Entity.name e' = n ->
                             (r.1 < r'.1)%nat
                             \/ (r.1 = r'.1 /\ (r.2 <= r'.2)%nat))
     end.
Proof.
  split; [apply getEntity_None|].
  destruct (_getEntity self n) as [r|] eqn:Hr; [|exact Logic.I].
  destruct (getEntity_Some self n r Hr) as (e & He & Hn).
  exists e. repeat split; try assumption.
  intros r' e' He' Hn'.
  destruct (scan_buckets_first _ _ _ _ Hr) as [H1 H2].
  rewrite Nat.sub_0_r in H1, H2.
  unfold entity_at in He'.
  destruct (entityList self !! r'.1) as [b'|] eqn:Hb'; [|discriminate].
  cbn in He'.
  destruct (Nat.lt_trichotomy r.1 r'.1) as [Hlt|[Heq|Hgt]]; [now left| |].
  - right. split; [exact Heq|].
    destruct (Nat.le_gt_cases r.2 r'.2) as [Hle|Hgt]; [exact Hle|].
    exfalso. rewrite <- Heq in Hb'. now apply (H2 b' r'.2 e' Hb' Hgt He').
  - exfalso. apply (H1 r'.1 b' e' Hgt Hb'); [|exact Hn'].
    apply list_elem_of_In, list_elem_of_lookup. eauto.
Qed.

(** ** Declaring and binding scenes *)

Lemma createScene_run n self :
  exists msg,
    createScene n self
    = mkRun (Return tt)
            (mkGui (sceneList self ++ [Scene.new n]) (windowList self)
                   (entityList self)) [] [(INFO, msg)].
Proof. eexists. reflexivity. Qed.

Lemma createWindow_run n self :
  exists msg,
    createWindow n self
    = mkRun (Return n)
            (mkGui (sceneList self) (windowList self ++ [n])
                   (entityList self)) [] [(INFO, msg)].
Proof. eexists. reflexivity. Qed.

(** After a successful binding the name resolves to the new handle, and
    no other lookup by name changes. *)
Lemma bound_lookup self s w :
  registered self s -> In w (windowList self) ->
  let g := final (addSceneToWindow s w self) in
  _getRecording g s = Some (mkRecording w s)
  /\ (forall m, _getSceneIndex g m = _getSceneIndex self m)
  /\ (forall m, m <> s -> _getRecording g m = _getRecording self m).
Proof.
  intros Hs Hw g.
  destruct (scene_lookup_first self s Hs)
    as (k & sc & Hi & Hsc & Hn & _ & Hfirst).
  destruct (addSceneToWindow_bound self s w Hs Hw)
    as (k' & sc' & Hi' & _ & _ & Hrun).
  assert (k' = k) as -> by lia.
  subst g. rewrite Hrun. cbn [final].
  unfold _getRecording, _getSceneIndex, scene_at in *. cbn [sceneList].
  split; [|split].
  - now apply getRecording_from_alter_first with sc.
  - intros m. now apply getSceneIndex_from_alter.
  - intros m Hm. apply getRecording_from_alter_other with sc; [exact Hsc|].
    congruence.
Qed.

(** X4.  [createScene(n)] appends an unbound scene and calls no backend:
    a name that was already registered keeps its index (a second scene of
    the same name is shadowed by the first), [n] if new resolves to the
    new last position, any other unknown name stays unknown, and no
    recording found by name changes. *)
Theorem createScene_lookup self n m :
  let r := createScene n self in
  outcome r = Return tt /\ backend r = []
  /\ sceneList (final r) = sceneList self ++ [Scene.mk n None]
  /\ windowList (final r) = windowList self
  /\ entityList (final r) = entityList self
  /\ _getSceneIndex (final r) m
     = (if Z.eqb (_getSceneIndex self m) (-1)
        then (if String.eqb n m then Z.of_nat (length (sceneList self))
              else -1)
        else _getSceneIndex self m)
  /\ _getRecording (final r) m = _getRecording self m.
Proof.
  intros r. destruct (createScene_run n self) as [msg Hrun].
  subst r. rewrite Hrun. cbn [outcome final backend sceneList windowList
                               entityList].
  do 5 (split; [reflexivity|]). split.
  - unfold _getSceneIndex. cbn [sceneList].
    rewrite getSceneIndex_from_app by lia. reflexivity.
  - unfold _getRecording. cbn [sceneList].
    rewrite getRecording_from_app.
    destruct (Z.eqb_spec (getSceneIndex_from (sceneList self) m 0) (-1))
      as [Hi|Hi]; [|reflexivity].
    pose proof (getRecording_unregistered self m Hi) as Hn.
    unfold _getRecording in Hn. rewrite Hn.
    cbn. now destruct (String.eqb n m).
Qed.

(** X5.  After a successful [addSceneToWindow(s, w)] the recording found
    under the name [s] is the one opened for window [w] and scene [s];
    every name keeps its scene index, and the recording found under any
    other name is unchanged. *)
Theorem addSceneToWindow_then_lookup self s w m :
  registered self s -> In w (windowList self) ->
  let g := final (addSceneToWindow s w self) in
  _getRecording g s = Some (mkRecording w s)
  /\ _getSceneIndex g m = _getSceneIndex self m
  /\ (m <> s -> _getRecording g m = _getRecording self m).
Proof.
  intros Hs Hw g. destruct (bound_lookup self s w Hs Hw) as (H1 & H2 & H3).
  split; [exact H1|]. split; [apply H2 | apply H3].
Qed.

Lemma addSceneToWindow_then_lookup_witness :
  let g := final (addSceneToWindow "world" "win2" two_windows) in
  _getRecording g "world" = Some (mkRecording "win2" "world")
  /\ _getSceneIndex g "mars" = _getSceneIndex two_windows "mars"
  /\ ("mars" <> "world" ->
      _getRecording g "mars" = _getRecording two_windows "mars").
Proof.
  apply (addSceneToWindow_then_lookup two_windows "world" "win2" "mars").
  - apply registered_index. vm_compute. discriminate.
  - right. left. reflexivity.
Defined.

(** X6.  Declaring a scene and a window and then binding them always
    succeeds, on any registry: [createScene(s)], [createWindow(w)],
    [addSceneToWindow(s, w)] returns [True] after exactly one
    [new_recording(application_id=w, recording_id=s, spawn=True)], and the
    recording found under [s] afterwards is that one. *)
Theorem declare_then_bind self s w :
  let g := final (createWindow w (final (createScene s self))) in
  let r := addSceneToWindow s w g in
  outcome r = Return true
  /\ backend r = [NewRecording w s true]
  /\ _getRecording (final r) s = Some (mkRecording w s).
Proof.
  intros g r.
  assert (Hs : registered g s).
  { exists (Scene.new s). split; [|reflexivity].
    subst g. cbn. apply in_or_app. right. now left. }
  assert (Hw : In w (windowList g)).
  { subst g. cbn. apply in_or_app. right. now left. }
  destruct (addSceneToWindow_bound g s w Hs Hw) as (k & sc & _ & _ & _ & Hrun).
  destruct (bound_lookup g s w Hs Hw) as (Hrec & _).
  subst r. split; [now rewrite Hrun|]. split; [now rewrite Hrun | exact Hrec].
Qed.

(** ** Every name resolves one way *)

Lemma slash_split s :
  Py.slash_free s = false ->
  exists pre rest, Py.slash_free pre = true /\ s = pre +:+ "/" +:+ rest.
Proof.
  induction s as [|a s IH]; intros H; [discriminate|].
  cbn [Py.slash_free] in H.
  destruct (Ascii.eqb a "/") eqn:Ha.
  - apply Ascii.eqb_eq in Ha. subst a. exists "", s. split; reflexivity.
  - cbn [negb andb] in H. destruct (IH H) as (pre & rest & Hp & ->).
    exists (String a pre), rest. split; [|reflexivity].
    cbn [Py.slash_free]. now rewrite Ha, Hp.
Qed.

(** A name is bare, or it is [scene/rest] with [scene] registered. *)
Lemma name_cases self name :
  bare self name
  \/ exists scene rest, prefixed name scene rest /\ registered self scene.
Proof.
  destruct (Py.slash_free name) eqn:Hs; [left; now apply bare_no_slash|].
  destruct (slash_split name Hs) as (pre & rest & Hp & ->).
  destruct rest as [|c rest].
  - left. now apply bare_trailing with pre.
  - destruct (Z.eq_dec (_getSceneIndex self pre) (-1)) as [Hi|Hi].
    + left. apply bare_unregistered with pre (String c rest); auto.
      now apply unregistered_index.
    + right. exists pre, (String c rest). split.
      * repeat split; [exact Hp | discriminate].
      * now apply registered_index.
Qed.

(** The two ways exclude each other. *)
Lemma bare_not_prefixed self name scene rest :
  bare self name -> prefixed name scene rest -> ~ registered self scene.
Proof.
  intros Hb (Hs & Hr & Hn) Hreg.
  destruct (split_prefixed scene rest Hs Hr) as (Hg & Hto & _).
  rewrite <- Hn in Hg, Hto.
  destruct (bare_guard self name Hb) as [H|H].
  - congruence.
  - rewrite Hto in H. apply registered_index in Hreg.
    apply negb_false_iff, Z.eqb_eq in H. contradiction.
Qed.

(** ** Lookup after registration *)

Section RegisterLookup.

Lemma find_entity_app b e n j :
  find_entity (b ++ [e]) n j =
  match find_entity b n j with
  | Some k => Some k
  | None => if String.eqb (Entity.name e) n then Some (j + length b)%nat
            else None
  end.
Proof.
  revert j. induction b as [|e0 b IH]; intros j.
  - cbn. rewrite Nat.add_0_r. reflexivity.
  - cbn [app find_entity length].
    destruct (String.eqb (Entity.name e0) n); [reflexivity|].
    rewrite IH. destruct (find_entity b n (S j)); [reflexivity|].
    destruct (String.eqb _ _); [|reflexivity]. f_equal. lia.
Qed.

Lemma scan_buckets_append bs k bk e n i :
  bs !! k = Some bk ->
  scan_buckets (alter (fun b => b ++ [e]) k bs) n i =
  if String.eqb (Entity.name e) n then
    match scan_buckets bs n i with
    | Some r => if (r.1 <=? i + k)%nat then Some r
                else Some ((i + k)%nat, length bk)
    | None => Some ((i + k)%nat, length bk)
    end
  else scan_buckets bs n i.
Proof.
  revert k i. induction bs as [|b bs IH]; intros k i Hk; [discriminate|].
  destruct k as [|k]; cbn [alter list_alter scan_buckets].
  - cbn in Hk. injection Hk as ->. rewrite find_entity_app.
    rewrite Nat.add_0_r.
    destruct (find_entity bk n 0) as [j|] eqn:Hf.
    + destruct (String.eqb _ _); [|reflexivity].
      cbn [fst]. now rewrite Nat.leb_refl.
    + destruct (String.eqb _ _); [|reflexivity].
      destruct (scan_buckets bs n (S i)) as [r|] eqn:Hr; [|reflexivity].
      destruct (scan_buckets_Some _ _ _ _ Hr) as (_ & _ & _ & _ & _ & Hle).
      destruct (Nat.leb_spec r.1 i); [lia | reflexivity].
  - change (list_alter (fun b0 => b0 ++ [e]) k bs)
      with (alter (fun b0 => b0 ++ [e]) k bs).
    cbn in Hk. rewrite (IH k (S i) Hk).
    replace (S i + k)%nat with (i + S k)%nat by lia.
    destruct (find_entity b n 0) as [j|] eqn:Hf; [|reflexivity].
    destruct (String.eqb _ _); [|reflexivity].
    cbn [fst]. destruct (Nat.leb_spec i (i + S k)); [reflexivity | lia].
Qed.

Lemma getEntity_register self ty e m b :
  entityList self !! Archetype.value ty = Some b ->
  _getEntity (register self ty e) m =
  if String.eqb (Entity.name e) m then
    match _getEntity self m with
    | Some r => if (r.1 <=? Archetype.value ty)%nat then Some r
                else Some (Archetype.value ty, length b)
    | None => Some (Archetype.value ty, length b)
    end
  else _getEntity self m.
Proof.
  intros Hb. unfold _getEntity, register. cbn [entityList].
  now rewrite (scan_buckets_append _ _ _ _ _ _ Hb).
Qed.

Lemma entity_at_register_new self ty e b :
  entityList self !! Archetype.value ty = Some b ->
  entity_at (register self ty e) (Archetype.value ty, length b) = Some e.
Proof.
  intros Hb. unfold entity_at, register. cbn [entityList fst snd].
  rewrite list_lookup_alter_eq, Hb. cbn.
  rewrite lookup_app_r by lia. now rewrite Nat.sub_diag.
Qed.

Lemma entity_at_register_old self ty e r e0 :
  entity_at self r = Some e0 -> entity_at (register self ty e) r = Some e0.
Proof.
  unfold entity_at, register. cbn [entityList]. intros H.
  destruct (entityList self !! r.1) as [b|] eqn:Hb; [|discriminate].
  cbn in H.
  destruct (Nat.eq_dec (Archetype.value ty) r.1) as [E|NE].
  - rewrite E, list_lookup_alter_eq, Hb. cbn. now apply lookup_app_l_Some.
  - rewrite list_lookup_alter_ne by exact NE. now rewrite Hb.
Qed.

End RegisterLookup.

(** What a creation call registers: one entity, in the bucket of its
    kind, under the name and with the membership that the resolution of
    the name gives; this holds also when the call raises afterwards. *)
Lemma creation_registers c name a ty v self :
  creation c = Some (name, a, ty, v) ->
  wf_Gui self = true ->
  exists e,
    final (call c self) = register self ty e
    /\ Entity.archetype e = a
    /\ ((bare self name /\ Entity.name e = name /\ Entity.scenes e = [])
        \/ (exists scene rest (s : SceneRef),
              prefixed name scene rest
              /\ _getSceneIndex self scene = Z.of_nat s
              /\ Entity.name e = rest /\ Entity.scenes e = [s])).
Proof.
  intros Hc Hwf.
  destruct (name_cases self name) as [Hb | (scene & rest & Hp & Hreg)].
  - destruct (parseEntity_pending name a ty self Hwf Hb) as (j & Hrun & _).
    exists (Entity.mk name a []).
    rewrite (creation_run _ _ _ _ _ _ _ _ _ _ Hc Hrun). cbn.
    repeat split. left. auto.
  - destruct (scene_lookup self scene Hreg) as (s & sc & Hi & Hsc & _).
    exists (Entity.mk rest a [s]).
    pose proof (parseEntity_immediate name a ty self Hwf scene rest s sc
                  Hp Hi Hsc) as Hcase.
    cbv zeta in Hcase.
    assert (Hf : exists o b j,
               _parseEntity name a ty self
               = mkRun o (register self ty (Entity.mk rest a [s])) b j).
    { destruct (Archetype.eqb ty Archetype.MESH_FROM_PATH).
      - destruct (attr_path a); [destruct (Scene.rec sc)|].
        + destruct Hcase as (j & -> & _). eauto.
        + rewrite Hcase. eauto.
        + rewrite Hcase. eauto.
      - destruct Hcase as (j & -> & _). eauto. }
    destruct Hf as (o & b & j & Hrun).
    rewrite (creation_run _ _ _ _ _ _ _ _ _ _ Hc Hrun). cbn [final].
    repeat split. right. exists scene, rest, s. auto.
Qed.

(** X7.  A creation call that reaches [_parseEntity] (its arguments pass
    the assertions and its payload is built) registers exactly one
    entity, in the bucket of its kind, and touches nothing else: every
    entity already registered stays where it is, unchanged, the lookup of
    any other name gives what it gave before, and if the stored name was
    not in use, [_getEntity] finds the new entity under it. *)
Theorem creation_then_lookup c name a ty v self :
  creation c = Some (name, a, ty, v) ->
  wf_Gui self = true ->
  exists e,
    let g := final (call c self) in
    g = register self ty e /\ Entity.archetype e = a
    /\ (forall r e0, entity_at self r = Some e0 -> entity_at g r = Some e0)
    /\ (forall m, m <> Entity.name e -> _getEntity g m = _getEntity self m)
    /\ (~ entity_registered self (Entity.name e) ->
        exists r, _getEntity g (Entity.name e) = Some r
                  /\ r.1 = Archetype.value ty
                  /\ entity_at g r = Some e).
Proof.
  intros Hc Hwf.
  destruct (creation_registers c name a ty v self Hc Hwf) as (e & Hf & Ha & _).
  destruct (bucket_exists self ty Hwf) as [b Hb].
  exists e. cbv zeta. rewrite Hf. repeat split; try assumption.
  - intros r e0. apply entity_at_register_old.
  - intros m Hm. rewrite (getEntity_register self ty e m b Hb).
    destruct (String.eqb_spec (Entity.name e) m); [congruence | reflexivity].
  - intros Hfree. apply getEntity_None in Hfree.
    exists (Archetype.value ty, length b).
    rewrite (getEntity_register self ty e _ b Hb), String.eqb_refl, Hfree.
    repeat split. now apply entity_at_register_new.
Qed.

Lemma creation_then_lookup_witness :
  exists e,
    let c := Create (Sphere "s1" 2 [0; 255; 0; 255]%num) in
    let g := final (call c world_bound) in
    g = register world_bound Archetype.POINTS3D e
    /\ Entity.archetype e
       = Points3D [[PyFloat zero64; PyFloat zero64; PyFloat zero64]]
                  [[2%num]] [[0; 255; 0; 255]%num] ["s1"]
    /\ (forall r e0, entity_at world_bound r = Some e0 ->
                     entity_at g r = Some e0)
    /\ (forall m, m <> Entity.name e ->
                  _getEntity g m = _getEntity world_bound m)
    /\ (~ entity_registered world_bound (Entity.name e) ->
        exists r, _getEntity g (Entity.name e) = Some r
                  /\ r.1 = Archetype.value Archetype.POINTS3D
                  /\ entity_at g r = Some e).
Proof.
  apply (creation_then_lookup (Create (Sphere "s1" 2 [0; 255; 0; 255]%num))
           "s1" _ Archetype.POINTS3D (VBool true) world_bound).
  - reflexivity.
  - reflexivity.
Defined.

(** X8.  Entity names are not kept unique.  When a creation that reaches
    [_parseEntity] (its arguments pass the assertions and its payload is
    built) stores its entity under a name already in use, the entity
    found by name stays the old one if the new entity's bucket does not
    come before the old one's in the order of [Archetype]; if it comes
    before, the new entity is the one found by name from then on. *)
Theorem creation_duplicate_name c name a ty v self :
  creation c = Some (name, a, ty, v) ->
  wf_Gui self = true ->
  exists e,
    let g := final (call c self) in
    g = register self ty e
    /\ forall r0, _getEntity self (Entity.name e) = Some r0 ->
         ((r0.1 <= Archetype.value ty)%nat ->
          _getEntity g (Entity.name e) = Some r0)
         /\ ((Archetype.value ty < r0.1)%nat ->
             exists r, _getEntity g (Entity.name e) = Some r
                       /\ r.1 = Archetype.value ty
                       /\ entity_at g r = Some e).
Proof.
  intros Hc Hwf.
  destruct (creation_registers c name a ty v self Hc Hwf) as (e & Hf & _).
  destruct (bucket_exists self ty Hwf) as [b Hb].
  exists e. cbv zeta. rewrite Hf. split; [reflexivity|].
  intros r0 Hr0.
  rewrite (getEntity_register self ty e _ b Hb), String.eqb_refl, Hr0.
  split; intros H.
  - destruct (Nat.leb_spec r0.1 (Archetype.value ty)); [reflexivity | lia].
  - destruct (Nat.leb_spec r0.1 (Archetype.value ty)); [lia|].
    exists (Archetype.value ty, length b). repeat split.
    now apply entity_at_register_new.
Qed.

Lemma creation_duplicate_name_witness :
  exists e,
    let self := session [Create (Sphere "x" 2 [0; 255; 0; 255]%num)] Gui_init in
    let g := final (call (Create (Arrow "x" 1 1 [255; 0; 0; 255]%num)) self) in
    g = register self Archetype.ARROWS3D e
    /\ forall r0, _getEntity self (Entity.name e) = Some r0 ->
         ((r0.1 <= Archetype.value Archetype.ARROWS3D)%nat ->
          _getEntity g (Entity.name e) = Some r0)
         /\ ((Archetype.value Archetype.ARROWS3D < r0.1)%nat ->
             exists r, _getEntity g (Entity.name e) = Some r
                       /\ r.1 = Archetype.value Archetype.ARROWS3D
                       /\ entity_at g r = Some e).
Proof.
  apply (creation_duplicate_name (Create (Arrow "x" 1 1 [255; 0; 0; 255]%num))
           "x" (Arrows3D [[1%num]] [[zero64; zero64; one64]]
                         [[255; 0; 0; 255]%num] ["x"])
           Archetype.ARROWS3D (VBool true)
           (session [Create (Sphere "x" 2 [0; 255; 0; 255]%num)] Gui_init)).
  - reflexivity.
  - reflexivity.
Defined.

(** ** Every case of [resizeArrow] and [addToGroup] *)

(** [resizeArrow] fails without effect, or raises without effect
    ([AttributeError] on a payload without colors, [OverflowError] on a
    length without a finite [float64]), or replaces the payload of one
    entity by the rebuilt arrow. *)
Lemma resizeArrow_cases self arrowName radius length :
  wf_Gui self = true ->
  (exists msg,
      resizeArrow arrowName radius length self
      = mkRun (Return false) self [] [(ERROR, msg)])
  \/ (exists exn,
        (exn = AttributeError \/ exn = OverflowError)
        /\ resizeArrow arrowName radius length self
           = mkRun (Raise exn) self [] [])
  \/ (exists ref e colors x b j,
        entity_at self ref = Some e
        /\ attr_colors (Entity.archetype e) = Some colors
        /\ to_float64 length = Some x
        /\ resizeArrow arrowName radius length self
           = mkRun (Return true)
               (update self ref
                  (Entity.set_archetype
                     (Arrows3D [[radius]]
                               [[fmul zero64 x; zero64; fmul one64 x]]
                               colors [arrowName]))) b j).
Proof.
  intros Hwf.
  destruct (name_cases self arrowName) as [Hb | (scene & rest & Hp & Hreg)].
  - destruct (_getEntity self arrowName) as [ref|] eqn:Hr.
    + destruct (getEntity_Some _ _ _ Hr) as (e & He & _).
      destruct (attr_colors (Entity.archetype e)) as [colors|] eqn:Hc;
        [destruct (to_float64 length) as [x|] eqn:Hx|].
      * right. right.
        destruct (resizeArrow_globally self arrowName radius length ref e
                    colors x Hb Hwf Hr He Hc Hx) as [j Hrun].
        exists ref, e, colors, x. eauto 10.
      * right. left. exists OverflowError. split; [now right|].
        now apply resizeArrow_globally_overflow with ref e colors.
      * right. left. exists AttributeError. split; [now left|].
        now apply resizeArrow_globally_no_colors with ref e.
    + left. apply resizeArrow_unknown; [exact Hb|]. now apply getEntity_None.
  - destruct (isMemberOf self rest scene) eqn:Hm.
    + assert (Hr : exists ref, _getEntity self rest = Some ref).
      { unfold isMemberOf in Hm.
        destruct (_getEntity self rest); [eauto | discriminate]. }
      destruct Hr as [ref Hr].
      destruct (getEntity_Some _ _ _ Hr) as (e & He & _).
      destruct (resizeArrow_member_stops self arrowName radius length scene
                  rest Hp Hreg ref e Hr He Hm) as [Hattr Hover].
      destruct (attr_colors (Entity.archetype e)) as [colors|] eqn:Hc;
        [destruct (to_float64 length) as [x|] eqn:Hx|].
      * right. right.
        destruct (resizeArrow_member self arrowName radius length scene rest
                    Hp Hreg ref e colors x Hr He Hm Hc Hx)
          as (s & sc & j & _ & _ & Hrun).
        exists ref, e, colors, x. eauto 10.
      * right. left. exists OverflowError. split; [now right|].
        now apply Hover with colors.
      * right. left. exists AttributeError. split; [now left|].
        now apply Hattr.
    + left. now apply resizeArrow_not_member with scene rest.
Qed.

(** [addToGroup] fails without effect, or raises on a mesh and an unbound
    scene, without effect, or loads a mesh file and leaves the registry, or
    logs an entity and adds the scene to its membership. *)
Lemma addToGroup_cases self nodeName groupName :
  (exists msg,
      addToGroup nodeName groupName self
      = mkRun (Return false) self [] [(ERROR, msg)])
  \/ addToGroup nodeName groupName self
     = mkRun (Raise AttributeError) self [] []
  \/ (exists one j,
        addToGroup nodeName groupName self
        = mkRun (Return true) self [one] j)
  \/ (exists ref (s : SceneRef) one j,
        (s < length (sceneList self))%nat
        /\ addToGroup nodeName groupName self
           = mkRun (Return true)
                   (update self ref (fun e => Entity.addScene e s)) [one] j).
Proof.
  destruct (Z.eq_dec (_getSceneIndex self groupName) (-1)) as [Hi|Hi].
  { left. apply addToGroup_unknown_scene. now apply unregistered_index. }
  apply registered_index in Hi.
  destruct (_getEntity self nodeName) as [ref|] eqn:Hr.
  - destruct (addToGroup_known self nodeName groupName ref Hi Hr)
      as (e & s & sc & He & _ & _ & Hsc & _ & Hrun).
    assert (Hlt : (s < length (sceneList self))%nat)
      by (unfold scene_at in Hsc; now apply lookup_lt_Some in Hsc).
    destruct (Entity.archetype e);
      try (right; right; right; destruct Hrun as (j & Hrun & _);
           exists ref, s; eauto).
    destruct (Scene.rec sc).
    + right. right. left. destruct Hrun as (j & Hrun & _). eauto.
    + right. left. exact Hrun.
  - left. apply addToGroup_unknown_entity; [exact Hi|].
    now apply getEntity_None.
Qed.

(** A creation call returns, or, for a mesh under the prefix of an unbound
    scene, raises [AttributeError]; in both cases one entity is registered
    and at most one backend call is made, none when it raises. *)
Lemma creation_cases c name a ty v self :
  creation c = Some (name, a, ty, v) ->
  wf_Gui self = true ->
  exists e b j,
    refs_below (length (sceneList self)) e
    /\ Entity.archetype e = a /\ (length b <= 1)%nat
    /\ (call c self = mkRun (Return v) (register self ty e) b j
        \/ (ty = Archetype.MESH_FROM_PATH /\ b = []
            /\ call c self
               = mkRun (Raise AttributeError) (register self ty e) b j)).
Proof.
  intros Hc Hwf.
  destruct (name_cases self name) as [Hb | (scene & rest & Hp & Hreg)].
  - destruct (parseEntity_pending name a ty self Hwf Hb) as (j & Hrun & _).
    exists (Entity.mk name a []), [], j. split; [constructor|].
    do 2 (split; [cbn; auto|]).
    left. now rewrite (creation_run _ _ _ _ _ _ _ _ _ _ Hc Hrun).
  - destruct (scene_lookup self scene Hreg) as (s & sc & Hi & Hsc & _).
    pose proof (parseEntity_immediate name a ty self Hwf scene rest s sc
                  Hp Hi Hsc) as Hcase.
    cbv zeta in Hcase.
    assert (Hlt : refs_below (length (sceneList self)) (Entity.mk rest a [s])).
    { repeat constructor. unfold scene_at in Hsc.
      now apply lookup_lt_Some in Hsc. }
    destruct (Archetype.eqb ty Archetype.MESH_FROM_PATH) eqn:Hty.
    + assert (ty = Archetype.MESH_FROM_PATH) as -> by now destruct ty.
      destruct (creation_mesh c name a v Hc) as [path ->]. cbn in Hcase.
      destruct (Scene.rec sc) as [r|].
      * destruct Hcase as (j & Hrun & _).
        exists (Entity.mk rest (MeshFromPath path) [s]),
          [LogFileFromPath path (Native r)], j.
        split; [exact Hlt|]. do 2 (split; [cbn; auto|]). left.
        now rewrite (creation_run _ _ _ _ _ _ _ _ _ _ Hc Hrun).
      * exists (Entity.mk rest (MeshFromPath path) [s]), [], [].
        split; [exact Hlt|]. do 2 (split; [cbn; auto|]). right.
        now rewrite (creation_run _ _ _ _ _ _ _ _ _ _ Hc Hcase).
    + destruct Hcase as (j & Hrun & _).
      exists (Entity.mk rest a [s]), [Log rest a (Scene.rec sc)], j.
      split; [exact Hlt|]. do 2 (split; [cbn; auto|]). left.
      now rewrite (creation_run _ _ _ _ _ _ _ _ _ _ Hc Hrun).
Qed.

(** ** What any call does *)

Lemma create_invalid p self :
  prim_valid p = false ->
  call (Create p) self = mkRun (Raise AssertionError) self [] [].
Proof.
  destruct p; try discriminate. cbn [prim_valid]. intros H.
  cbn [call create]. unfold addTriangleFace. rewrite H. reflexivity.
Qed.

(** A creation whose payload cannot be built raises [OverflowError]
    before [_parseEntity] is called. *)
Lemma create_overflow p self :
  prim_valid p = true -> prim_payload p = None ->
  call (Create p) self = mkRun (Raise OverflowError) self [] [].
Proof.
  destruct p; try discriminate. cbn [prim_payload]. intros _ H.
  cbn [call create]. unfold addArrow, arrow_vectors.
  destruct (to_float64 length); [discriminate | reflexivity].
Qed.

(** The change of the registry, the exceptions and the failures of a call
    on a well-formed registry. *)
Lemma call_summary c self :
  wf_Gui self = true ->
  change self c (final (call c self))
  /\ (outcome (call c self) = Return (VBool false) ->
      final (call c self) = self /\ backend (call c self) = [])
  /\ (forall e, outcome (call c self) = Raise e ->
                (e = AttributeError \/ e = AssertionError
                 \/ e = OverflowError)
                /\ backend (call c self) = []).
Proof.
  intros Hwf.
  destruct c as [n|n|sn w|p|n path|n x y|n g].
  - destruct (createWindow_run n self) as [msg Hrun].
    cbn [call]. unfold fmap, M_fmap. unfold_monad. rewrite Hrun.
    cbn [outcome final backend]. split; [constructor|].
    split; [discriminate | intros e; discriminate].
  - destruct (createScene_run n self) as [msg Hrun].
    cbn [call]. unfold_monad. rewrite Hrun.
    cbn [outcome final backend]. split; [constructor|].
    split; [discriminate | intros e; discriminate].
  - cbn [call]. unfold fmap, M_fmap. unfold_monad.
    destruct (Z.eq_dec (_getSceneIndex self sn) (-1)) as [Hi|Hi].
    { apply unregistered_index in Hi.
      destruct (addSceneToWindow_not_found self sn w (or_introl Hi))
        as [msg ->].
      cbn [outcome final backend]. split; [constructor|].
      split; [auto | intros e; discriminate]. }
    apply registered_index in Hi.
    destruct (window_in self w) eqn:Hw.
    + apply window_in_spec in Hw.
      destruct (addSceneToWindow_bound self sn w Hi Hw)
        as (s & sc & _ & Hsc & _ & ->).
      cbn [outcome final backend]. split.
      * constructor. unfold scene_at in Hsc. now apply lookup_lt_Some in Hsc.
      * split; [discriminate | intros e; discriminate].
    + assert (Hnw : ~ In w (windowList self)).
      { intros Hin. apply window_in_spec in Hin. congruence. }
      destruct (addSceneToWindow_not_found self sn w (or_intror Hnw))
        as [msg ->].
      cbn [outcome final backend]. split; [constructor|].
      split; [auto | intros e; discriminate].
  - destruct (prim_valid p) eqn:Hv; [destruct (prim_payload p) as [a|] eqn:Ha|].
    + assert (Hc : creation (Create p)
                   = Some (prim_name p, a, prim_kind p, VBool true))
        by (cbn [creation]; now rewrite Hv, Ha).
      destruct (creation_cases _ _ _ _ _ self Hc Hwf)
        as (e & b & j & He & Hpay & _ & [Hrun | (Hty & _)]).
      * rewrite Hrun. cbn [outcome final backend].
        split; [now apply change_register with (1 := Hc)|].
        split; [discriminate | intros e'; discriminate].
      * now destruct p.
    + rewrite (create_overflow p self Hv Ha). cbn [outcome final backend].
      split; [constructor|]. split; [discriminate|].
      intros e H. injection H as <-. auto.
    + rewrite (create_invalid p self Hv). cbn [outcome final backend].
      split; [constructor|]. split; [discriminate|].
      intros e H. injection H as <-. auto.
  - destruct (creation_cases (AddMesh n path) _ _ _ _ self eq_refl Hwf)
      as (e & b & j & He & Ha & _ & [Hrun | (_ & -> & Hrun)]);
      rewrite Hrun; cbn [outcome final backend];
      (split; [now apply change_register with (1 := eq_refl)|]);
      (split; [discriminate|]); intros e' H; [discriminate|].
    injection H as <-. auto.
  - cbn [call]. unfold fmap, M_fmap. unfold_monad.
    destruct (resizeArrow_cases self n x y Hwf)
      as [[msg ->] | [(exn & Hexn & ->)
                     | (ref & e & colors & x' & b & j & _ & _ & _ & ->)]];
      cbn [outcome final backend].
    + split; [constructor|]. split; [auto | intros e; discriminate].
    + split; [constructor|]. split; [discriminate|].
      intros e H. injection H as <-. destruct Hexn; auto.
    + split; [constructor|]. split; [discriminate | intros e'; discriminate].
  - cbn [call]. unfold fmap, M_fmap. unfold_monad.
    destruct (addToGroup_cases self n g)
      as [[msg ->] | [-> | [(one & j & ->)
                           | (ref & s & one & j & Hs & ->)]]];
      cbn [outcome final backend].
    + split; [constructor|]. split; [auto | intros e; discriminate].
    + split; [constructor|]. split; [discriminate|].
      intros e H. injection H as <-. auto.
    + split; [constructor|]. split; [discriminate | intros e; discriminate].
    + split; [now constructor|].
      split; [discriminate | intros e; discriminate].
Qed.

Section Changes.

Lemma entity_at_update_cases self ref f r :
  entity_at (update self ref f) r
  = if decide (r = ref) then f <$> entity_at self r else entity_at self r.
Proof.
  unfold entity_at, update. cbn [entityList].
  destruct r as [i j], ref as [i' j']. cbn [fst snd].
  rewrite list_lookup_alter.
  destruct (decide (i' = i)) as [->|Hi].
  - destruct (entityList self !! i) as [b|]; cbn.
    + rewrite list_lookup_alter.
      destruct (decide (j' = j)) as [->|Hj].
      * now rewrite decide_True.
      * rewrite decide_False by congruence. reflexivity.
    + now destruct (decide _).
  - rewrite decide_False by congruence. reflexivity.
Qed.

Lemma addScene_incl e s :
  incl (Entity.scenes e) (Entity.scenes (Entity.addScene e s)).
Proof.
  unfold Entity.addScene. cbn [Entity.scenes].
  destruct (existsb _ _); [apply incl_refl | now apply incl_appl, incl_refl].
Qed.

(** Whatever the change, an entity stays at its place, under its name,
    with at least the membership it had, and with its payload unless the
    call is a [resizeArrow]. *)
Lemma change_entity_kept self c g r e :
  change self c g -> entity_at self r = Some e ->
  exists e',
    entity_at g r = Some e'
    /\ Entity.name e' = Entity.name e
    /\ incl (Entity.scenes e) (Entity.scenes e')
    /\ ((forall n x y, c <> ResizeArrow n x y) ->
        Entity.archetype e' = Entity.archetype e).
Proof.
  intros Hc He.
  destruct Hc as [c| w | n | n w s Hs | c name a ty v e0 Hcr He0 Ha
                 | n x y ref a | n grp ref s Hs];
    try (exists e; repeat split; [exact He | apply incl_refl]).
  - exists e. repeat split; [|apply incl_refl].
    now apply entity_at_register_old.
  - rewrite entity_at_update_cases, He.
    destruct (decide (r = ref)); cbn [fmap option_fmap option_map].
    + eexists. split; [reflexivity|]. repeat split; [apply incl_refl|].
      intros H. now destruct (H n x y).
    + exists e. repeat split. apply incl_refl.
  - rewrite entity_at_update_cases, He.
    destruct (decide (r = ref)); cbn [fmap option_fmap option_map].
    + eexists. split; [reflexivity|]. repeat split. apply addScene_incl.
    + exists e. repeat split. apply incl_refl.
Qed.

(** Whatever the change, a registered scene name keeps its index and a
    declared window stays declared. *)
Lemma change_scene_index self c g n :
  change self c g -> registered self n ->
  _getSceneIndex g n = _getSceneIndex self n.
Proof.
  intros Hc Hn. apply registered_index in Hn.
  destruct Hc; try reflexivity; unfold _getSceneIndex in *; cbn [sceneList].
  - rewrite getSceneIndex_from_app by lia.
    destruct (Z.eqb_spec (getSceneIndex_from (sceneList self) n 0) (-1));
      [contradiction | reflexivity].
  - now apply getSceneIndex_from_alter.
Qed.

Lemma change_window_kept self c g w :
  change self c g -> In w (windowList self) -> In w (windowList g).
Proof.
  intros Hc Hw. destruct Hc; try exact Hw.
  cbn [windowList]. apply in_or_app. now left.
Qed.

End Changes.

(** Only an arrow can fail to build its payload: when its length is an
    [int] with no finite [float64]. *)
Lemma prim_payload_None p :
  prim_payload p = None <->
  exists n radius z col,
    p = Arrow n radius (PyInt z) col /\ float_of_int z = None.
Proof.
  split.
  - destruct p; try discriminate. cbn [prim_payload].
    destruct length as [z|f]; cbn [to_float64].
    + destruct (float_of_int z) eqn:Hz; [discriminate|]. eauto 10.
    + discriminate.
  - intros (n & radius & z & col & -> & Hz). cbn [prim_payload to_float64].
    now rewrite Hz.
Qed.

(** X9.  What one of the eight public creation methods does on a
    well-formed registry is fixed by its arguments, whatever the name.
    [addTriangleFace] with a position that has not three coordinates
    fails its assertion before any effect.  [addArrow] with a length that
    has no finite [float64] (an [int] too large) raises [OverflowError]
    before any effect; no other method and no other argument does.
    Every other call returns [True], registers exactly one entity with the
    payload built from the arguments, in the bucket of its kind, and
    makes at most one backend call. *)
Theorem create_registers_or_raises p self :
  wf_Gui self = true ->
  let r := call (Create p) self in
  (if prim_valid p then
     match prim_payload p with
     | Some a =>
         outcome r = Return (VBool true)
         /\ (exists e, final r = register self (prim_kind p) e
                       /\ Entity.archetype e = a)
         /\ (length (backend r) <= 1)%nat
     | None =>
         outcome r = Raise OverflowError /\ final r = self /\ backend r = []
     end
   else
     outcome r = Raise AssertionError /\ final r = self /\ backend r = [])
  /\ (prim_payload p = None <->
      exists n radius z col,
        p = Arrow n radius (PyInt z) col /\ float_of_int z = None).
Proof.
  intros Hwf r. subst r. split; [|apply prim_payload_None].
  destruct (prim_valid p) eqn:Hv; [destruct (prim_payload p) as [a|] eqn:Ha|].
  - assert (Hc : creation (Create p)
                 = Some (prim_name p, a, prim_kind p, VBool true))
      by (cbn [creation]; now rewrite Hv, Ha).
    destruct (creation_cases _ _ _ _ _ self Hc Hwf)
      as (e & b & j & _ & Hpay & Hlen & [Hrun | (Hty & _)]).
    + rewrite Hrun. cbn [outcome final backend]. eauto.
    + now destruct p.
  - rewrite (create_overflow p self Hv Ha). now cbn.
  - rewrite (create_invalid p self Hv). now cbn.
Qed.

Lemma create_registers_or_raises_witness :
  let p := Arrow "a" 1 (PyInt (10 ^ 309)) [255; 0; 0; 255]%num in
  let r := call (Create p) world_bound in
  (outcome r = Raise OverflowError /\ final r = world_bound /\ backend r = [])
  /\ (prim_payload p = None <->
      exists n radius z col,
        p = Arrow n radius (PyInt z) col /\ float_of_int z = None).
Proof.
  apply (create_registers_or_raises
           (Arrow "a" 1 (PyInt (10 ^ 309)) [255; 0; 0; 255]%num) world_bound).
  reflexivity.
Defined.

(** X10.  On every registry reachable from a fresh [Gui], a call that
    raises raises [AttributeError] (a payload without colors, a mesh file
    on a scene without a recording handle), [AssertionError] (a triangle
    position that has not three coordinates) or [OverflowError] (an arrow
    length with no finite [float64]), never [IndexError]: every index into
    [sceneList] and [entityList] is in range.  It raises before any
    backend call. *)
Theorem reachable_raises_before_backend cs c e :
  outcome (call c (session cs Gui_init)) = Raise e ->
  (e = AttributeError \/ e = AssertionError \/ e = OverflowError)
  /\ e <> IndexError
  /\ backend (call c (session cs Gui_init)) = [].
Proof.
  intros H.
  destruct (call_summary c (session cs Gui_init) (session_wf cs))
    as (_ & _ & Hraise).
  destruct (Hraise e H) as [[-> | [-> | ->]] Hb]; repeat split; auto;
    discriminate.
Qed.

Lemma reachable_raises_before_backend_witness :
  (OverflowError = AttributeError \/ OverflowError = AssertionError
   \/ OverflowError = OverflowError)
  /\ OverflowError <> IndexError
  /\ backend (call (ResizeArrow "arrowA" 1 (PyInt (2 ^ 1024)))
                   (session [CreateScene "world"; CreateWindow "win";
                             AddSceneToWindow "world" "win";
                             Create (Arrow "arrowA" 1 1 [255; 0; 0; 255]%num);
                             AddToGroup "arrowA" "world"] Gui_init)) = [].
Proof.
  apply (reachable_raises_before_backend
           [CreateScene "world"; CreateWindow "win";
            AddSceneToWindow "world" "win";
            Create (Arrow "arrowA" 1 1 [255; 0; 0; 255]%num);
            AddToGroup "arrowA" "world"]
           (ResizeArrow "arrowA" 1 (PyInt (2 ^ 1024))) OverflowError).
  reflexivity.
Defined.

(** X11.  A call that returns [False] has changed nothing and has called
    no backend: the failures of [addSceneToWindow], [addToGroup] and
    [resizeArrow] are free of effects. *)
Theorem failure_has_no_effect c self :
  wf_Gui self = true ->
  outcome (call c self) = Return (VBool false) ->
  final (call c self) = self /\ backend (call c self) = [].
Proof.
  intros Hwf H. destruct (call_summary c self Hwf) as (_ & Hfail & _).
  now apply Hfail.
Qed.

Lemma failure_has_no_effect_witness :
  final (call (ResizeArrow "s1/arrowA" (PyFloat half64) 5) arrow_unlogged)
  = arrow_unlogged
  /\ backend (call (ResizeArrow "s1/arrowA" (PyFloat half64) 5)
                   arrow_unlogged) = [].
Proof.
  apply (failure_has_no_effect (ResizeArrow "s1/arrowA" (PyFloat half64) 5)
           arrow_unlogged).
  - reflexivity.
  - reflexivity.
Defined.

(** X12.  No call deletes, moves or renames an entity, or removes a scene
    from its membership: after any call, an entity is still at its place
    under its name, with at least the scenes it had, and with the payload
    it had unless the call is a [resizeArrow]. *)
Theorem entities_persist c self r e :
  wf_Gui self = true ->
  entity_at self r = Some e ->
  exists e',
    entity_at (final (call c self)) r = Some e'
    /\ Entity.name e' = Entity.name e
    /\ incl (Entity.scenes e) (Entity.scenes e')
    /\ ((forall n x y, c <> ResizeArrow n x y) ->
        Entity.archetype e' = Entity.archetype e).
Proof.
  intros Hwf He. destruct (call_summary c self Hwf) as (Hc & _).
  now apply change_entity_kept with self.
Qed.

Lemma entities_persist_witness :
  exists e',
    let c := ResizeArrow "arrowA" (PyFloat half64) 5 in
    let e := Entity.mk "arrowA"
               (Arrows3D [[1%num]] [[zero64; zero64; one64]]
                         [[255; 0; 0; 255]%num]
                         ["arrowA"]) [0%nat] in
    entity_at (final (call c arrow_logged)) (0, 0)%nat = Some e'
    /\ Entity.name e' = Entity.name e
    /\ incl (Entity.scenes e) (Entity.scenes e')
    /\ ((forall n x y, c <> ResizeArrow n x y) ->
        Entity.archetype e' = Entity.archetype e).
Proof.
  apply (entities_persist (ResizeArrow "arrowA" (PyFloat half64) 5) arrow_logged
           (0, 0)%nat
           (Entity.mk "arrowA"
              (Arrows3D [[1%num]] [[zero64; zero64; one64]]
                        [[255; 0; 0; 255]%num]
                        ["arrowA"]) [0%nat])).
  - reflexivity.
  - reflexivity.
Defined.

(** X13.  Names stay resolved: after any call, a scene name that was
    registered still resolves to the same index, and a window that was
    declared is still declared. *)
Theorem names_stay_resolved c self :
  wf_Gui self = true ->
  let g := final (call c self) in
  (forall n, registered self n -> _getSceneIndex g n = _getSceneIndex self n)
  /\ (forall w, In w (windowList self) -> In w (windowList g)).
Proof.
  intros Hwf g. destruct (call_summary c self Hwf) as (Hc & _). split.
  - intros n. now apply change_scene_index with c.
  - intros w. now apply change_window_kept with c.
Qed.

Lemma names_stay_resolved_witness :
  let g := final (call (CreateScene "world") world_bound) in
  (forall n, registered world_bound n ->
             _getSceneIndex g n = _getSceneIndex world_bound n)
  /\ (forall w, In w (windowList world_bound) -> In w (windowList g)).
Proof.
  apply (names_stay_resolved (CreateScene "world") world_bound).
  reflexivity.
Defined.

(** ** More on [resizeArrow] and [addToGroup] *)

Lemma isMemberOf_update self ref a e s :
  isMemberOf (update self ref (Entity.set_archetype a)) e s
  = isMemberOf self e s.
Proof.
  unfold isMemberOf.
  rewrite getEntity_update by reflexivity.
  change (_getSceneIndex (update self ref (Entity.set_archetype a)) s)
    with (_getSceneIndex self s).
  destruct (_getEntity self e) as [r|]; [|reflexivity].
  rewrite entity_at_update_cases.
  destruct (decide (r = ref)); [|reflexivity].
  now destruct (entity_at self r).
Qed.

(** X14.  [resizeArrow] changes at most the payload of one entity: the
    scenes and the windows are as before, every name is found at the same
    entity as before, and every membership test gives what it gave
    before. *)
Theorem resizeArrow_keeps_names_and_membership self n x y :
  wf_Gui self = true ->
  let g := final (resizeArrow n x y self) in
  sceneList g = sceneList self
  /\ windowList g = windowList self
  /\ (forall m, _getEntity g m = _getEntity self m)
  /\ (forall e s, isMemberOf g e s = isMemberOf self e s).
Proof.
  intros Hwf g. subst g.
  destruct (resizeArrow_cases self n x y Hwf)
    as [[msg ->] | [(exn & _ & ->)
                   | (ref & e & colors & x' & b & j & _ & _ & _ & ->)]];
    cbn [final]; repeat split.
  - intros m. now apply getEntity_update.
  - intros e' s. apply isMemberOf_update.
Qed.

Lemma resizeArrow_keeps_names_and_membership_witness :
  let g := final (resizeArrow "arrowA" (PyFloat half64) 5 arrow_logged) in
  sceneList g = sceneList arrow_logged
  /\ windowList g = windowList arrow_logged
  /\ (forall m, _getEntity g m = _getEntity arrow_logged m)
  /\ (forall e s, isMemberOf g e s = isMemberOf arrow_logged e s).
Proof.
  apply (resizeArrow_keeps_names_and_membership arrow_logged "arrowA"
           (PyFloat half64) 5).
  reflexivity.
Defined.

(** X15.  On a name [scene/rest] whose entity is a member of [scene] and
    has colors, and for a length whose [float64] value is [x],
    [resizeArrow] returns [True], replaces the payload by the rebuilt
    arrow (radius as given, vector [[0.0 * x, 0.0, 1.0 * x]], the colors
    of the old payload, the full name given as label), and issues exactly
    one log call, for the stored entity name and against the handle of
    that one scene, whatever other scenes the entity belongs to.  When
    the payload has no colors the call raises [AttributeError], and when
    the length has no finite [float64] it raises [OverflowError]: in both
    cases nothing is changed and nothing is logged. *)
Theorem resizeArrow_prefixed_logs_one_scene self name radius length scene rest
        ref e :
  prefixed name scene rest ->
  registered self scene ->
  _getEntity self rest = Some ref ->
  entity_at self ref = Some e ->
  isMemberOf self rest scene = true ->
  let r := resizeArrow name radius length self in
  match attr_colors (Entity.archetype e), to_float64 length with
  | None, _ =>
      outcome r = Raise AttributeError /\ final r = self /\ backend r = []
  | Some _, None =>
      outcome r = Raise OverflowError /\ final r = self /\ backend r = []
  | Some colors, Some x =>
      let newArrow :=
        Arrows3D [[radius]] [[fmul zero64 x; zero64; fmul one64 x]] colors
                 [name] in
      outcome r = Return true
      /\ final r = update self ref (Entity.set_archetype newArrow)
      /\ backend r
         = [Log (Entity.name e) newArrow (_getRecording self scene)]
  end.
Proof.
  intros Hp Hreg Hr He Hm r.
  destruct (resizeArrow_member_stops self name radius length scene rest
              Hp Hreg ref e Hr He Hm) as [Hattr Hover].
  destruct (attr_colors (Entity.archetype e)) as [colors|] eqn:Hc;
    [destruct (to_float64 length) as [x|] eqn:Hx|].
  - intros newArrow.
    destruct (resizeArrow_member self name radius length scene rest Hp Hreg
                ref e colors x Hr He Hm Hc Hx)
      as (s & sc & j & Hi & Hsc & Hrun).
    destruct (scene_lookup self scene Hreg)
      as (s' & sc' & Hi' & Hsc' & _ & Hrec & _).
    assert (s' = s) as -> by lia. rewrite Hsc in Hsc'. injection Hsc' as <-.
    subst r. rewrite Hrun, Hrec. now cbn.
  - subst r. rewrite (Hover colors eq_refl eq_refl). now cbn.
  - subst r. rewrite (Hattr eq_refl). now cbn.
Qed.

Lemma resizeArrow_prefixed_logs_one_scene_witness :
  let newArrow :=
    Arrows3D [[PyFloat half64]]
             [[S754_zero false; S754_zero false;
               S754_finite false 5629499534213120 (-50)]]
             [[255; 0; 0; 255]%num] ["world/arrowA"] in
  let r := resizeArrow "world/arrowA" (PyFloat half64) 5 arrow_logged in
  outcome r = Return true
  /\ final r = update arrow_logged (0, 0)%nat (Entity.set_archetype newArrow)
  /\ backend r = [Log "arrowA" newArrow (Some (mkRecording "win" "world"))].
Proof.
  apply (resizeArrow_prefixed_logs_one_scene arrow_logged "world/arrowA"
           (PyFloat half64) 5 "world" "arrowA" (0, 0)%nat
           (Entity.mk "arrowA"
              (Arrows3D [[1%num]] [[zero64; zero64; one64]]
                        [[255; 0; 0; 255]%num] ["arrowA"]) [0%nat])).
  - repeat split; [discriminate].
  - apply registered_index. vm_compute. discriminate.
  - reflexivity.
  - reflexivity.
  - reflexivity.
Defined.

(** X16.  For a registered scene and a registered entity whose payload is
    not a mesh loaded from a file, [addToGroup] returns [True] after
    exactly one log call, for the stored name and payload of the entity
    found under the name and against the recording found under the scene
    name; the entity is then a member of the scene, and no other entity,
    no scene and no window has changed. *)
Theorem addToGroup_logs_and_joins self n g ref e :
  registered self g ->
  _getEntity self n = Some ref ->
  entity_at self ref = Some e ->
  is_MeshFromPath (Entity.archetype e) = false ->
  let r := addToGroup n g self in
  outcome r = Return true
  /\ backend r = [Log (Entity.name e) (Entity.archetype e)
                      (_getRecording self g)]
  /\ isMemberOf (final r) n g = true
  /\ (forall r', r' <> ref -> entity_at (final r) r' = entity_at self r')
  /\ sceneList (final r) = sceneList self
  /\ windowList (final r) = windowList self.
Proof.
  intros Hreg Hr He Hm r.
  destruct (addToGroup_member self n g ref e Hreg Hr He Hm) as (_ & Hmem & _).
  destruct (addToGroup_known self n g ref Hreg Hr)
    as (e0 & s & sc & He0 & _ & Hi & Hsc & _ & Hrun).
  rewrite He in He0. injection He0 as <-.
  destruct (scene_lookup self g Hreg) as (s' & sc' & Hi' & Hsc' & _ & Hrec & _).
  assert (s' = s) as -> by lia. rewrite Hsc in Hsc'. injection Hsc' as <-.
  assert (H : exists j,
             r = mkRun (Return true)
                       (update self ref (fun e => Entity.addScene e s))
                       [Log (Entity.name e) (Entity.archetype e)
                            (Scene.rec sc)] j).
  { destruct (Entity.archetype e); try discriminate;
      destruct Hrun as (j & Hrun & _); eauto. }
  destruct H as [j H]. fold r in Hmem. rewrite H in *.
  cbn [outcome final backend] in *. rewrite Hrec.
  repeat split; try assumption.
  intros r' Hne. rewrite entity_at_update_cases.
  now rewrite decide_False.
Qed.

Lemma addToGroup_logs_and_joins_witness :
  let e := Entity.mk "s1"
             (Points3D [[PyFloat zero64; PyFloat zero64; PyFloat zero64]]
                       [[2%num]] [[0; 255; 0; 255]%num] ["s1"]) [] in
  let r := addToGroup "s1" "world" sphere_unbound in
  outcome r = Return true
  /\ backend r = [Log (Entity.name e) (Entity.archetype e)
                      (_getRecording sphere_unbound "world")]
  /\ isMemberOf (final r) "s1" "world" = true
  /\ (forall r', r' <> (6, 0)%nat ->
                 entity_at (final r) r' = entity_at sphere_unbound r')
  /\ sceneList (final r) = sceneList sphere_unbound
  /\ windowList (final r) = windowList sphere_unbound.
Proof.
  apply (addToGroup_logs_and_joins sphere_unbound "s1" "world" (6, 0)%nat
           (Entity.mk "s1"
              (Points3D [[PyFloat zero64; PyFloat zero64; PyFloat zero64]]
                        [[2%num]] [[0; 255; 0; 255]%num] ["s1"])
              [])).
  - apply registered_index. vm_compute. discriminate.
  - reflexivity.
  - reflexivity.
  - reflexivity.
Defined.

(** ** Scenes are shared by reference *)

Section Rebinding.

Variables (self : Gui) (s w : string) (k : SceneRef) (sc : Scene.t).
Hypothesis Hk : scene_at self k = Some sc.

Let g : Gui :=
  mkGui (alter (fun sc => Scene.setRec sc (mkRecording w s)) k
               (sceneList self))
        (windowList self) (entityList self).

Lemma rebound_index n : _getSceneIndex g n = _getSceneIndex self n.
Proof. unfold _getSceneIndex, g. cbn. now apply getSceneIndex_from_alter. Qed.

Lemma rebound_bare n : bare self n -> bare g n.
Proof.
  intros [H | pre H E | pre rest H E Hu].
  - now apply bare_no_slash.
  - now apply bare_trailing with pre.
  - apply bare_unregistered with pre rest; [assumption | assumption |].
    intros Hreg. apply Hu. apply registered_index.
    apply registered_index in Hreg. now rewrite rebound_index in Hreg.
Qed.

Lemma rebound_wf : wf_Gui self = true -> wf_Gui g = true.
Proof.
  intros Hwf. apply (wf_scenes self); [|exact Hwf].
  rewrite length_alter. lia.
Qed.

Lemma rebound_rec s' :
  scene_rec g s'
  = if Nat.eqb s' k then Some (mkRecording w s) else scene_rec self s'.
Proof.
  unfold scene_rec, scene_at, g in *. cbn [sceneList].
  destruct (Nat.eqb_spec s' k) as [->|Hne].
  - rewrite list_lookup_alter_eq, Hk. reflexivity.
  - rewrite list_lookup_alter_ne by congruence. reflexivity.
Qed.

End Rebinding.

(** X17.  Entities refer to scenes, not to copies of their handles: after
    a scene is bound, or bound again, by [addSceneToWindow(s, w)], a
    [resizeArrow] on a bare name, for an entity that has colors and a
    length whose [float64] value is [x], logs the rebuilt arrow against
    the new handle for that scene and against the unchanged handles of
    the other scenes of its membership. *)
Theorem rebinding_redirects_logs self s w name radius length ref e colors x :
  wf_Gui self = true ->
  registered self s ->
  In w (windowList self) ->
  bare self name ->
  _getEntity self name = Some ref ->
  entity_at self ref = Some e ->
  attr_colors (Entity.archetype e) = Some colors ->
  to_float64 length = Some x ->
  let g := final (addSceneToWindow s w self) in
  let r := resizeArrow name radius length g in
  let newArrow :=
    Arrows3D [[radius]] [[fmul zero64 x; zero64; fmul one64 x]] colors
             [name] in
  outcome r = Return true
  /\ backend r
     = map (fun s' =>
              Log (Entity.name e) newArrow
                  (if Z.eqb (Z.of_nat s') (_getSceneIndex self s)
                   then Some (mkRecording w s) else scene_rec self s'))
           (Entity.scenes e).
Proof.
  intros Hwf Hs Hw Hb Hr He Hc Hx g r newArrow.
  destruct (addSceneToWindow_bound self s w Hs Hw)
    as (k & sc & Hi & Hsc & _ & Hrun).
  subst r g. rewrite Hrun. cbn [final].
  destruct (resizeArrow_globally _ name radius length ref e colors x
              (rebound_bare self s w k name Hb) (rebound_wf self s w k Hwf)
              Hr He Hc Hx) as [j Hrun'].
  rewrite Hrun'. cbn [outcome backend]. split; [reflexivity|].
  apply map_ext. intros s'. rewrite (rebound_rec self s w k sc Hsc), Hi.
  destruct (Nat.eqb_spec s' k) as [->|Hne].
  - now rewrite Z.eqb_refl.
  - destruct (Z.eqb_spec (Z.of_nat s') (Z.of_nat k)); [lia | reflexivity].
Qed.

Lemma rebinding_redirects_logs_witness :
  let self := arrow_in_two_scenes in
  let g := final (addSceneToWindow "world" "win2" self) in
  let r := resizeArrow "arrowA" (PyFloat half64) 5 g in
  let newArrow :=
    Arrows3D [[PyFloat half64]]
             [[S754_zero false; S754_zero false;
               S754_finite false 5629499534213120 (-50)]]
             [[255; 0; 0; 255]%num] ["arrowA"] in
  (scene_rec self 0 = Some (mkRecording "win" "world")
   /\ scene_rec self 1 = Some (mkRecording "win" "aux"))
  /\ outcome r = Return true
  /\ backend r
     = [Log "arrowA" newArrow (Some (mkRecording "win2" "world"));
        Log "arrowA" newArrow (Some (mkRecording "win" "aux"))].
Proof.
  assert (Hb : bare arrow_in_two_scenes "arrowA")
    by (apply bare_no_slash; reflexivity).
  assert (Hs : registered arrow_in_two_scenes "world")
    by (apply registered_index; vm_compute; discriminate).
  split; [split; reflexivity|].
  exact (rebinding_redirects_logs arrow_in_two_scenes "world" "win2" "arrowA"
           (PyFloat half64) 5 (0, 0)%nat
           (Entity.mk "arrowA"
              (Arrows3D [[1%num]] [[zero64; zero64; one64]]
                        [[255; 0; 0; 255]%num] ["arrowA"]) [0%nat; 1%nat])
           [[255; 0; 0; 255]%num] (S754_finite false 5629499534213120 (-50))
           eq_refl Hs (or_intror (or_introl eq_refl)) Hb eq_refl eq_refl
           eq_refl eq_refl).
Defined.

(** X18.  The resolution of a name has exactly two outcomes.  A creation
    call that reaches [_parseEntity] (its arguments pass the assertions
    and its payload is built) either takes the deferred path, and this
    is when the name is bare: the entity is stored under the full name
    with no scene; or it takes the immediate path, and this is when the
    name is [scene/rest] with [scene] registered: the entity is stored
    under [rest] with that scene as its membership.  The two cases
    exclude each other. *)
Theorem creation_resolves_one_way c name a ty v self :
  creation c = Some (name, a, ty, v) ->
  wf_Gui self = true ->
  let g := final (call c self) in
  (bare self name /\ g = register self ty (Entity.mk name a [])
   \/ exists scene rest (s : SceneRef),
        prefixed name scene rest /\ registered self scene
        /\ _getSceneIndex self scene = Z.of_nat s
        /\ g = register self ty (Entity.mk rest a [s]))
  /\ ~ (bare self name
        /\ exists scene rest, prefixed name scene rest
                              /\ registered self scene).
Proof.
  intros Hc Hwf g. split.
  - destruct (creation_registers c name a ty v self Hc Hwf)
      as (e & Hf & Ha & [(Hb & Hn & Hsc)
                        | (scene & rest & s & Hp & Hi & Hn & Hsc)]);
      subst g; rewrite Hf; destruct e as [en ea es]; cbn in *; subst.
    + left. auto.
    + right. exists scene, rest, s. repeat split; try assumption.
      * apply Hp.
      * apply Hp.
      * apply Hp.
      * apply registered_index. lia.
  - intros (Hb & scene & rest & Hp & Hreg).
    exact (bare_not_prefixed self name scene rest Hb Hp Hreg).
Qed.

Lemma creation_resolves_one_way_witness :
  let c := Create (Box "world/b1" 1 1 1 [255; 0; 0; 255]%num) in
  let a := Boxes3D [[1; 1; 1]]%num [[255; 0; 0; 255]%num] "Solid"
                   (Some ["world/b1"]) in
  let g := final (call c world_bound) in
  (bare world_bound "world/b1"
   /\ g = register world_bound Archetype.BOXES3D (Entity.mk "world/b1" a [])
   \/ exists scene rest (s : SceneRef),
        prefixed "world/b1" scene rest /\ registered world_bound scene
        /\ _getSceneIndex world_bound scene = Z.of_nat s
        /\ g = register world_bound Archetype.BOXES3D (Entity.mk rest a [s]))
  /\ ~ (bare world_bound "world/b1"
        /\ exists scene rest, prefixed "world/b1" scene rest
                              /\ registered world_bound scene).
Proof.
  apply (creation_resolves_one_way
           (Create (Box "world/b1" 1 1 1 [255; 0; 0; 255]%num))
           "world/b1" _ Archetype.BOXES3D (VBool true) world_bound).
  - reflexivity.
  - reflexivity.
Defined.

(** ** Reachable registries, deferred entities, partial effects *)

(** X19.  Every registry reachable from a fresh [Gui] by any sequence of
    calls, failed and raising ones included, has exactly one bucket per
    member of [Archetype], and every scene in the membership of every
    entity is a scene of [sceneList]. *)
Theorem reachable_registry_shape cs :
  let g := session cs Gui_init in
  length (entityList g) = Archetype.count
  /\ forall r e s, entity_at g r = Some e -> In s (Entity.scenes e) ->
                   exists sc, scene_at g s = Some sc.
Proof.
  intros g. pose proof (session_wf cs) as Hwf. fold g in Hwf. split.
  - now apply wf_Gui_spec in Hwf.
  - intros r e s. now apply wf_scene_refs.
Qed.

(** X20.  A resize of a pending entity is not lost, and a failed one
    leaves no trace.  For a bare name whose entity has colors and belongs
    to no scene yet: when the length has the [float64] value [x],
    [resizeArrow] returns [True] with no backend call and a later
    [addToGroup] logs the entity with the rebuilt arrow as payload; when
    the length has no finite [float64], [resizeArrow] raises
    [OverflowError] and a later [addToGroup] logs the entity with the
    payload it had. *)
Theorem resize_then_addToGroup self name radius length g ref e colors :
  wf_Gui self = true ->
  bare self name ->
  registered self g ->
  _getEntity self name = Some ref ->
  entity_at self ref = Some e ->
  attr_colors (Entity.archetype e) = Some colors ->
  Entity.scenes e = [] ->
  let resized := resizeArrow name radius length self in
  let r := addToGroup name g (final resized) in
  outcome r = Return true
  /\ backend resized = []
  /\ match to_float64 length with
     | Some x =>
         let newArrow :=
           Arrows3D [[radius]] [[fmul zero64 x; zero64; fmul one64 x]] colors
                    [name] in
         outcome resized = Return true
         /\ backend r = [Log (Entity.name e) newArrow (_getRecording self g)]
     | None =>
         outcome resized = Raise OverflowError
         /\ backend r
            = [Log (Entity.name e) (Entity.archetype e)
                   (_getRecording self g)]
     end.
Proof.
  intros Hwf Hb Hreg Hr He Hc Hsc resized r.
  assert (Hlog : forall a,
             attr_colors a = Some colors ->
             let g' := update self ref (Entity.set_archetype a) in
             outcome (addToGroup name g g') = Return true
             /\ backend (addToGroup name g g')
                = [Log (Entity.name e) a (_getRecording self g)]).
  { intros a Ha g'.
    assert (Hr' : _getEntity g' name = Some ref)
      by (unfold g'; now rewrite getEntity_update).
    assert (Hreg' : registered g' g) by exact Hreg.
    destruct (addToGroup_known g' name g ref Hreg' Hr')
      as (e0 & s & sc & He0 & _ & Hi & Hsc' & _ & Hrun').
    unfold g' in He0.
    rewrite (entity_at_update self ref (Entity.set_archetype a) e He) in He0.
    injection He0 as <-.
    destruct (scene_lookup self g Hreg)
      as (s' & sc' & Hi' & Hsc'' & _ & Hrec & _).
    change (_getSceneIndex g' g) with (_getSceneIndex self g) in Hi.
    assert (s' = s) as -> by lia.
    change (scene_at g' s) with (scene_at self s) in Hsc'.
    rewrite Hsc' in Hsc''. injection Hsc'' as <-.
    cbn [Entity.set_archetype Entity.archetype Entity.name] in Hrun'.
    destruct a; try discriminate;
      destruct Hrun' as (j' & -> & _); rewrite Hrec; now cbn. }
  destruct (to_float64 length) as [x|] eqn:Hx.
  - destruct (resizeArrow_globally self name radius length ref e colors x
                Hb Hwf Hr He Hc Hx) as [j Hrun].
    rewrite Hsc in Hrun. cbn [map] in Hrun.
    subst r resized. rewrite Hrun. cbn [outcome final backend].
    destruct (Hlog (Arrows3D [[radius]]
                             [[fmul zero64 x; zero64; fmul one64 x]] colors
                             [name]) eq_refl) as [Ho Hbk].
    cbv zeta in Ho, Hbk. auto.
  - subst r resized.
    rewrite (resizeArrow_globally_overflow self name radius length ref e
               colors Hb Hr He Hc Hx).
    cbn [outcome final backend].
    destruct (Hlog (Entity.archetype e) Hc) as [Ho Hbk].
    cbv zeta in Ho, Hbk.
    assert (Hsame : update self ref (Entity.set_archetype (Entity.archetype e))
                    = self).
    { destruct self as [sl wl el]. unfold update. cbn [sceneList windowList
        entityList fst snd]. f_equal.
      unfold entity_at in He. cbn [entityList] in He.
      destruct (el !! ref.1) as [bk|] eqn:Hbk'; [|discriminate].
      cbn in He.
      apply list_eq. intros i.
      destruct (decide (i = ref.1)) as [->|Hne].
      - rewrite list_lookup_alter_eq, Hbk'. cbn. f_equal.
        apply list_eq. intros i'.
        destruct (decide (i' = ref.2)) as [->|Hne'].
        + rewrite list_lookup_alter_eq, He. cbn. now destruct e.
        + now rewrite list_lookup_alter_ne by congruence.
      - now rewrite list_lookup_alter_ne by congruence. }
    rewrite Hsame in Ho, Hbk. auto.
Qed.

Lemma resize_then_addToGroup_witness :
  let resized := resizeArrow "arrowA" (PyFloat half64) 5 arrow_unlogged in
  let r := addToGroup "arrowA" "s1" (final resized) in
  let newArrow :=
    Arrows3D [[PyFloat half64]]
             [[S754_zero false; S754_zero false;
               S754_finite false 5629499534213120 (-50)]]
             [[255; 0; 0; 255]%num] ["arrowA"] in
  outcome r = Return true
  /\ backend resized = []
  /\ outcome resized = Return true
  /\ backend r = [Log "arrowA" newArrow None].
Proof.
  assert (Hb : bare arrow_unlogged "arrowA")
    by (apply bare_no_slash; reflexivity).
  assert (Hs : registered arrow_unlogged "s1")
    by (apply registered_index; vm_compute; discriminate).
  exact (resize_then_addToGroup arrow_unlogged "arrowA" (PyFloat half64) 5 "s1"
           (0, 0)%nat
           (Entity.mk "arrowA"
              (Arrows3D [[1%num]] [[zero64; zero64; one64]]
                        [[255; 0; 0; 255]%num] ["arrowA"]) [])
           [[255; 0; 0; 255]%num]
           eq_refl Hb Hs eq_refl eq_refl eq_refl eq_refl).
Defined.

(** X21.  The immediate path is not atomic.  [_parseEntity] appends the
    entity before it logs it, so a mesh-from-path creation under the
    prefix of a registered scene that has no recording handle raises
    [AttributeError] with the entity already registered, as a member of
    that scene, and with no backend call made. *)
Theorem mesh_creation_leaves_entity self name scene rest path :
  wf_Gui self = true ->
  prefixed name scene rest ->
  registered self scene ->
  _getRecording self scene = None ->
  let r := call (AddMesh name path) self in
  exists s : SceneRef,
    _getSceneIndex self scene = Z.of_nat s
    /\ outcome r = Raise AttributeError
    /\ backend r = []
    /\ final r = register self Archetype.MESH_FROM_PATH
                   (Entity.mk rest (MeshFromPath path) [s]).
Proof.
  intros Hwf Hp Hreg Hnone r.
  destruct (scene_lookup self scene Hreg) as (s & sc & Hi & Hsc & _ & Hrec & _).
  pose proof (parseEntity_immediate name (MeshFromPath path)
                Archetype.MESH_FROM_PATH self Hwf scene rest s sc Hp Hi Hsc)
    as Hcase.
  cbn in Hcase. rewrite Hnone in Hrec. rewrite <- Hrec in Hcase.
  exists s. subst r.
  rewrite (creation_run (AddMesh name path) _ _ _ VNone _ _ _ _ _
                        eq_refl Hcase).
  now cbn.
Qed.

Lemma mesh_creation_leaves_entity_witness :
  let r := call (AddMesh "world/m" "m.obj") world_unbound in
  exists s : SceneRef,
    _getSceneIndex world_unbound "world" = Z.of_nat s
    /\ outcome r = Raise AttributeError
    /\ backend r = []
    /\ final r = register world_unbound Archetype.MESH_FROM_PATH
                   (Entity.mk "m" (MeshFromPath "m.obj") [s]).
Proof.
  apply (mesh_creation_leaves_entity world_unbound "world/m" "world" "m"
           "m.obj").
  - reflexivity.
  - repeat split; [discriminate].
  - apply registered_index. vm_compute. discriminate.
  - reflexivity.
Defined.
